(** * cctime: daily aggregation of conversation timestamps

    A shallow embedding of the aggregation core of [data-loader.ts]
    ([formatTime], [formatDate], [calculateConversationTime] and the part of
    [loadDailyConversationData] that runs once the entries are loaded) together
    with the branded-string schemas of [types.ts] it depends on.

    Modelling conventions.
    - An ISO timestamp is represented by the instant it denotes: the integer
      [new Date(timestamp).getTime()], milliseconds since the epoch.  All the
      arithmetic of the source is on such integers, far below 2^53, so the
      floating point operations of the source are exact and are written on [Z].
    - The local time zone of the process is an explicit parameter
      [tz : Z -> Z]: the offset of local time from UTC, in milliseconds, at a
      given instant.
    - A thrown [ZodError] is the [Throw] constructor of [Result].
    - Strings are [string]; the date strings the source compares contain only
      ASCII digits and hyphens, on which the code-unit order of JavaScript and
      [String.compare] agree.
    - The console output under the [debug] flag does not change any result and
      is left out.  Reading and parsing the usage files, which produce
      [allEntries], are outside the model.
    - The fields [start] and [end] of a session are [session_start] and
      [session_end]. *)

From Stdlib Require Import ZArith List String Ascii Bool Lia.
From Stdlib Require Import Sorting.Sorted Sorting.Permutation.
Import ListNotations.

Local Open Scope string_scope.
Local Open Scope Z_scope.

(** ** Errors *)

Inductive Error : Type :=
| ZodError (message : string).

Inductive Result (A : Type) : Type :=
| Ok (value : A)
| Throw (err : Error).

Arguments Ok {A} value.
Arguments Throw {A} err.

Definition bind {A B : Type} (r : Result A) (k : A -> Result B) : Result B :=
  match r with
  | Ok a => k a
  | Throw e => Throw e
  end.

Notation "x <- r ;; k" := (bind r (fun x => k))
  (at level 61, r at next level, right associativity).

(** ** JavaScript strings *)

Module Js.

Definition digitChar (d : Z) : ascii := ascii_of_N (48 + Z.to_N d).

Fixpoint digitsOf (fuel : nat) (n : Z) (acc : string) : string :=
  match fuel with
  | O => acc
  | S fuel' =>
      let acc' := String (digitChar (n mod 10)) acc in
      if n <? 10 then acc' else digitsOf fuel' (n / 10) acc'
  end.

(** [String(n)] and the interpolation of an integer in a template. *)
Definition numberToString (n : Z) : string :=
  if n <? 0
  then String "-" (digitsOf (S (Z.to_nat (Z.log2 (- n)))) (- n) "")
  else digitsOf (S (Z.to_nat (Z.log2 n))) n "".

Fixpoint repeatChar (n : nat) (c : ascii) : string :=
  match n with
  | O => ""
  | S n' => String c (repeatChar n' c)
  end.

(** [s.padStart(width, c)] for a one-character filler. *)
Definition padStart (width : nat) (c : ascii) (s : string) : string :=
  (repeatChar (width - String.length s) c ++ s)%string.

(** [s.replace(/-/g, '')]. *)
Fixpoint removeHyphens (s : string) : string :=
  match s with
  | EmptyString => EmptyString
  | String c s' =>
      if Ascii.eqb c "-" then removeHyphens s' else String c (removeHyphens s')
  end.

(** [a < b] and [a > b] on strings. *)
Definition lt (a b : string) : bool := String.ltb a b.
Definition gt (a b : string) : bool := String.ltb b a.

(** [a.localeCompare(b)]: on the digit-and-hyphen strings of [DailyDate] the
    collation order is the code-unit order. *)
Definition localeCompare (a b : string) : Z :=
  match String.compare a b with
  | Lt => -1
  | Eq => 0
  | Gt => 1
  end.

(** A string is truthy when it is not empty. *)
Definition truthy (s : string) : bool :=
  match s with
  | EmptyString => false
  | String _ _ => true
  end.

(** [Array.prototype.sort(cmp)]: a stable sort; [x] stays in front of [y]
    when [cmp x y <= 0]. *)
Section Sort.
Context {A : Type} (cmp : A -> A -> Z).

Fixpoint insertSorted (x : A) (l : list A) : list A :=
  match l with
  | [] => [x]
  | y :: l' => if cmp x y <=? 0 then x :: y :: l' else y :: insertSorted x l'
  end.

Fixpoint sort (l : list A) : list A :=
  match l with
  | [] => []
  | x :: l' => insertSorted x (sort l')
  end.
End Sort.

(** [Array.from(new Set(xs))]: the first occurrence of each value, in
    order. *)
Fixpoint uniqueFrom (seen : list string) (xs : list string) : list string :=
  match xs with
  | [] => []
  | x :: xs' =>
      if existsb (String.eqb x) seen then uniqueFrom seen xs'
      else x :: uniqueFrom (x :: seen) xs'
  end.

Definition unique (xs : list string) : list string := uniqueFrom [] xs.

End Js.

(** ** JavaScript dates in local time *)

Module JsDate.

Definition msPerMinute : Z := 60000.
Definition msPerHour : Z := 3600000.
Definition msPerDay : Z := 86400000.

(** Proleptic Gregorian date [(year, month 1..12, day)] of a day number
    counted from 1970-01-01. *)
Definition civilFromDays (days : Z) : Z * Z * Z :=
  let z := days + 719468 in
  let era := z / 146097 in
  let doe := z mod 146097 in
  let yoe := (doe - doe / 1460 + doe / 36524 - doe / 146096) / 365 in
  let doy := doe - (365 * yoe + yoe / 4 - yoe / 100) in
  let mp := (5 * doy + 2) / 153 in
  let d := doy - (153 * mp + 2) / 5 + 1 in
  let m := if mp <? 10 then mp + 3 else mp - 9 in
  let y := yoe + era * 400 + (if m <=? 2 then 1 else 0) in
  (y, m, d).

Section Local.
Variable tz : Z -> Z.

Definition localTime (t : Z) : Z := t + tz t.

Definition localCivil (t : Z) : Z * Z * Z :=
  civilFromDays (localTime t / msPerDay).

Definition getFullYear (t : Z) : Z := fst (fst (localCivil t)).
Definition getMonth (t : Z) : Z := snd (fst (localCivil t)) - 1.
Definition getDate (t : Z) : Z := snd (localCivil t).
Definition getHours (t : Z) : Z := (localTime t mod msPerDay) / msPerHour.
Definition getMinutes (t : Z) : Z :=
  (localTime t mod msPerHour) / msPerMinute.
End Local.

End JsDate.

(** ** types.ts *)

Module Types.

Definition isDigit (c : ascii) : bool :=
  ((48 <=? N_of_ascii c) && (N_of_ascii c <=? 57))%N.

Definition isHyphen (c : ascii) : bool := Ascii.eqb c "-".

(** The regular expression of [dailyDateSchema]: [^\d{4}-\d{2}-\d{2}$]. *)
Definition matchesDailyDate (s : string) : bool :=
  match list_ascii_of_string s with
  | [y1; y2; y3; y4; h1; m1; m2; h2; d1; d2] =>
      isDigit y1 && isDigit y2 && isDigit y3 && isDigit y4 && isHyphen h1
      && isDigit m1 && isDigit m2 && isHyphen h2 && isDigit d1 && isDigit d2
  | _ => false
  end.

Definition DailyDate : Type := string.
Definition SessionId : Type := string.

(** [dailyDateSchema.parse(value)]. *)
Definition createDailyDate (value : string) : Result DailyDate :=
  if matchesDailyDate value then Ok value
  else Throw (ZodError "Date must be in YYYY-MM-DD format").

(** An element of [allEntries]: the fields the aggregation reads. *)
Record Entry : Type := mkEntry {
  timestamp : Z;
  sessionId : SessionId;
  filePath : string
}.

Record DailyConversation : Type := mkDailyConversation {
  date : DailyDate;
  firstMessageTime : string;
  lastMessageTime : string;
  estimatedConversationTime : string;
  messageCount : Z;
  sessionIds : list SessionId
}.

Record LoadOptions : Type := mkLoadOptions {
  since : option string;
  until : option string
}.

End Types.

(** ** data-loader.ts *)

Module DataLoader.
Import Types.

Section WithTimeZone.
Variable tz : Z -> Z.

Definition formatTime (timestamp : Z) : string :=
  let hours := Js.padStart 2 "0" (Js.numberToString (JsDate.getHours tz timestamp)) in
  let minutes := Js.padStart 2 "0" (Js.numberToString (JsDate.getMinutes tz timestamp)) in
  (hours ++ ":" ++ minutes)%string.

Definition formatDate (timestamp : Z) : Result DailyDate :=
  let year := JsDate.getFullYear tz timestamp in
  let month := Js.padStart 2 "0" (Js.numberToString (JsDate.getMonth tz timestamp + 1)) in
  let day := Js.padStart 2 "0" (Js.numberToString (JsDate.getDate tz timestamp)) in
  createDailyDate (Js.numberToString year ++ "-" ++ month ++ "-" ++ day)%string.
End WithTimeZone.

Record Session : Type := mkSession {
  session_start : Z;
  session_end : Z
}.

Definition SESSION_GAP_MS : Z := 3 * 60 * 1000.

(** The comparator of both timestamp sorts. *)
Definition byTimestamp (a b : Entry) : Z := timestamp a - timestamp b.

(** The variables of the segmentation loop. *)
Record LoopState : Type := mkLoopState {
  currentSessionStart : Z;
  currentSessionEnd : Z;
  sessions : list Session
}.

Definition initialState (first : Entry) : LoopState :=
  mkLoopState (timestamp first) (timestamp first) [].

(** One iteration of the loop over [sortedEntries[i]], i >= 1. *)
Definition loopStep (gap : Z) (st : LoopState) (entry : Entry) : LoopState :=
  let currentTime := timestamp entry in
  let timeSinceLastMessage := currentTime - currentSessionEnd st in
  if timeSinceLastMessage <=? gap
  then mkLoopState (currentSessionStart st) currentTime (sessions st)
  else mkLoopState currentTime currentTime
         (sessions st ++ [mkSession (currentSessionStart st) (currentSessionEnd st)])%list.

Definition runLoop (gap : Z) (first : Entry) (rest : list Entry) : LoopState :=
  fold_left (loopStep gap) rest (initialState first).

(** The [sessions] array once the last session has been pushed. *)
Definition closeLast (st : LoopState) : list Session :=
  (sessions st ++ [mkSession (currentSessionStart st) (currentSessionEnd st)])%list.

(** The sessions of a sorted array.  The source only reaches this code with
    at least two entries. *)
Definition segment (gap : Z) (sortedEntries : list Entry) : list Session :=
  match sortedEntries with
  | [] => []
  | first :: rest => closeLast (runLoop gap first rest)
  end.

Definition sessionMinutes (session : Session) : Z :=
  let sessionDurationMs := session_end session - session_start session in
  Z.max 1 (sessionDurationMs / (1000 * 60)).

Definition totalMinutesOf (sessions : list Session) : Z :=
  fold_left (fun totalMinutes session => totalMinutes + sessionMinutes session)
    sessions 0.

(** The rendering at the end of [calculateConversationTime]. *)
Definition renderMinutes (totalMinutes : Z) : string :=
  if totalMinutes <? 60 then (Js.numberToString totalMinutes ++ "m")%string
  else
    let hours := totalMinutes / 60 in
    let minutes := totalMinutes mod 60 in
    if minutes =? 0 then (Js.numberToString hours ++ "h")%string
    else (Js.numberToString hours ++ "h " ++ Js.numberToString minutes ++ "m")%string.

Definition calculateConversationTime (entries : list Entry) : string :=
  match entries with
  | [] => "0m"
  | [_] => "1m"
  | _ =>
      let sortedEntries := Js.sort byTimestamp entries in
      renderMinutes (totalMinutesOf (segment SESSION_GAP_MS sortedEntries))
  end.

(** [options?.since] as a condition: defined and not empty. *)
Definition provided (bound : option string) : bool :=
  match bound with
  | Some s => Js.truthy s
  | None => false
  end.

Definition boundOr (bound : option string) : string :=
  match bound with
  | Some s => s
  | None => ""
  end.

Record LoadResult : Type := mkLoadResult {
  conversations : list DailyConversation;
  allEntries : list Entry
}.

(** [dailyGroups]: a [Map] keeps its keys in insertion order. *)
Definition DailyGroups : Type := list (DailyDate * list Entry).

(** [if (!dailyGroups.has(date)) dailyGroups.set(date, []);
     dailyGroups.get(date)!.push(entry)]. *)
Fixpoint pushEntry (dailyGroups : DailyGroups) (date : DailyDate) (entry : Entry)
  : DailyGroups :=
  match dailyGroups with
  | [] => [(date, [entry])]
  | (key, entries) :: others =>
      if String.eqb key date then (key, (entries ++ [entry])%list) :: others
      else (key, entries) :: pushEntry others date entry
  end.

(** [array.filter(callback)] with a callback that may throw. *)
Fixpoint filterEntries (keep : Entry -> Result bool) (entries : list Entry)
  : Result (list Entry) :=
  match entries with
  | [] => Ok []
  | entry :: others =>
      kept <- keep entry ;;
      rest <- filterEntries keep others ;;
      Ok (if kept then entry :: rest else rest)
  end.

Section WithTimeZone.
Variable tz : Z -> Z.

(** The callback of the date-range filter. *)
Definition keepEntry (options : LoadOptions) (entry : Entry) : Result bool :=
  date <- formatDate tz (timestamp entry) ;;
  let dateStr := Js.removeHyphens date in
  if provided (since options) && Js.lt dateStr (boundOr (since options))
  then Ok false
  else if provided (until options) && Js.gt dateStr (boundOr (until options))
  then Ok false
  else Ok true.

Definition filterByRange (options : LoadOptions) (allEntries : list Entry)
  : Result (list Entry) :=
  if negb (provided (since options)) && negb (provided (until options))
  then Ok allEntries
  else filterEntries (keepEntry options) allEntries.

Fixpoint groupByDate (filteredEntries : list Entry) (dailyGroups : DailyGroups)
  : Result DailyGroups :=
  match filteredEntries with
  | [] => Ok dailyGroups
  | entry :: others =>
      date <- formatDate tz (timestamp entry) ;;
      groupByDate others (pushEntry dailyGroups date entry)
  end.

(** The body of the loop over [dailyGroups]: nothing is pushed for an
    empty group. *)
Definition summarize (date : DailyDate) (group : list Entry)
  : list DailyConversation :=
  match group with
  | [] => []
  | entry0 :: _ =>
      let entries := Js.sort byTimestamp group in
      let firstEntry := hd entry0 entries in
      let lastEntry := last entries entry0 in
      let sessionIds := Js.unique (map sessionId entries) in
      [ mkDailyConversation date
          (formatTime tz (timestamp firstEntry))
          (formatTime tz (timestamp lastEntry))
          (calculateConversationTime entries)
          (Z.of_nat (List.length entries))
          sessionIds ]
  end.

Definition byDateDescending (a b : DailyConversation) : Z :=
  Js.localeCompare (date b) (date a).

(** [loadDailyConversationData] from the point where [allEntries] has been
    read from the usage files. *)
Definition loadDailyConversationData (options : LoadOptions)
    (allEntries : list Entry) : Result LoadResult :=
  filteredEntries <- filterByRange options allEntries ;;
  dailyGroups <- groupByDate filteredEntries [] ;;
  let dailyConversations :=
    flat_map (fun '(date, entries) => summarize date entries) dailyGroups in
  Ok (mkLoadResult (Js.sort byDateDescending dailyConversations) filteredEntries).
End WithTimeZone.

End DataLoader.

Import Types DataLoader.

(** ** Vocabulary of the specification *)

(** Sample data: two time zones and an entry at a given instant. *)

Definition utc : Z -> Z := fun _ => 0.
Definition utcPlus1 : Z -> Z := fun _ => 3600000.
Definition entryAt (t : Z) : Entry := mkEntry t "session-001" "conversation.jsonl".

(** Four entries, on 2024-12-01, 2024-12-15, 2024-12-20 and 2024-12-25 (UTC),
    given out of order, and the bounds 2024-12-10 .. 2024-12-20. *)
Definition sampleEntries : list Entry :=
  [ mkEntry 1734274800000 "session-001" "a.jsonl";
    mkEntry 1735156800000 "session-002" "b.jsonl";
    mkEntry 1733047200000 "session-001" "a.jsonl";
    mkEntry 1734737400000 "session-002" "b.jsonl" ].

Definition sampleOptions : LoadOptions :=
  mkLoadOptions (Some "20241210") (Some "20241220").

Definition noOptions : LoadOptions := mkLoadOptions None None.

Definition resultOr (r : Result LoadResult) : LoadResult :=
  match r with
  | Ok value => value
  | Throw _ => mkLoadResult [] []
  end.

Definition sampleResult : LoadResult :=
  Eval vm_compute in resultOr (loadDailyConversationData utc noOptions sampleEntries).

Definition sampleFiltered : LoadResult :=
  Eval vm_compute in resultOr (loadDailyConversationData utc sampleOptions sampleEntries).

(** The reading of the duration rule of the specification:
    [max(1, floor((end - start) in minutes))], summed over the sessions. *)
Definition specSessionMinutes (s : Session) : Z :=
  Z.max 1 ((session_end s - session_start s) / 60000).

Definition specTotalMinutes (ss : list Session) : Z :=
  fold_right Z.add 0 (map specSessionMinutes ss).

(** The order a comparator of [sort] induces. *)
Definition cmpLe {A : Type} (cmp : A -> A -> Z) (x y : A) : Prop := cmp x y <= 0.

(** [withStart s ss]: the sessions [ss] with the first one starting at [s]. *)
Definition withStart (s : Z) (ss : list Session) : list Session :=
  match ss with
  | [] => []
  | first :: others => mkSession s (session_end first) :: others
  end.

(** Calendar dates [(year, month, day)] in chronological order. *)
Definition CalendarDate : Type := (Z * Z * Z)%type.

Definition civilCompare (a b : CalendarDate) : comparison :=
  let '(y1, m1, d1) := a in
  let '(y2, m2, d2) := b in
  match y1 ?= y2 with
  | Eq => match m1 ?= m2 with
          | Eq => d1 ?= d2
          | other => other
          end
  | other => other
  end.

Definition civilLeb (a b : CalendarDate) : bool :=
  match civilCompare a b with
  | Gt => false
  | _ => true
  end.

(** Reading decimal numerals. *)
Definition digitValue (c : ascii) : Z := Z.of_N (N_of_ascii c) - 48.

Fixpoint allDigits (s : string) : bool :=
  match s with
  | EmptyString => true
  | String c s' => isDigit c && allDigits s'
  end.

Fixpoint decimalValue (s : string) : Z :=
  match s with
  | EmptyString => 0
  | String c s' => digitValue c * 10 ^ Z.of_nat (String.length s') + decimalValue s'
  end.

(** The calendar date a [YYYY-MM-DD] string denotes. *)
Definition parseDailyDate (s : string) : CalendarDate :=
  (decimalValue (substring 0 4 s),
   decimalValue (substring 5 2 s),
   decimalValue (substring 8 2 s)).

(** The bounds [since] and [until] are given in [YYYYMMDD] form. *)
Definition isYYYYMMDD (s : string) : bool :=
  (String.length s =? 8)%nat && allDigits s.

Definition parseYYYYMMDD (s : string) : CalendarDate :=
  (decimalValue (substring 0 4 s),
   decimalValue (substring 4 2 s),
   decimalValue (substring 6 2 s)).

Definition wellFormedBound (bound : option string) : Prop :=
  match bound with
  | Some s => isYYYYMMDD s = true
  | None => True
  end.

(** [date] lies in the inclusive interval of the bounds that are given. *)
Definition inRange (since until : option string) (date : CalendarDate) : bool :=
  match since with
  | Some s => civilLeb (parseYYYYMMDD s) date
  | None => true
  end
  &&
  match until with
  | Some u => civilLeb date (parseYYYYMMDD u)
  | None => true
  end.

Definition fourDigitYear (tz : Z -> Z) (entry : Entry) : Prop :=
  1000 <= JsDate.getFullYear tz (timestamp entry) <= 9999.

Definition totalMessageCount (summaries : list DailyConversation) : Z :=
  fold_right Z.add 0 (map messageCount summaries).

(** The number of entries held by the groups. *)
Definition groupSize (groups : DailyGroups) : Z :=
  fold_right Z.add 0 (map (fun group => Z.of_nat (List.length (snd group))) groups).

(** [entry] falls on the local date [key]. *)
Definition hasDate (tz : Z -> Z) (key : DailyDate) (entry : Entry) : bool :=
  match formatDate tz (timestamp entry) with
  | Ok date => String.eqb date key
  | Throw _ => false
  end.

(** The groups built from the entries [processed] so far: distinct keys, no
    empty group, each group holding, in order, the entries that fall on its
    date, and every entry falling in some group. *)
Definition groupsOk (tz : Z -> Z) (processed : list Entry) (groups : DailyGroups)
  : Prop :=
  NoDup (map fst groups)
  /\ Forall (fun group =>
               snd group <> []
               /\ snd group = filter (hasDate tz (fst group)) processed)
       groups
  /\ (forall entry, In entry processed ->
        exists group, In group groups /\ hasDate tz (fst group) entry = true).

(** [pushEntry] on a group. *)
Definition addTo (date : DailyDate) (entry : Entry) (group : DailyDate * list Entry)
  : DailyDate * list Entry :=
  if String.eqb (fst group) date then (fst group, (snd group ++ [entry])%list)
  else group.

Definition summaries (tz : Z -> Z) (groups : DailyGroups) : list DailyConversation :=
  flat_map (fun '(date, entries) => summarize tz date entries) groups.

(** Later dates first. *)
Definition laterDateFirst (a b : DailyConversation) : Prop :=
  Js.lt (date b) (date a) = true.

Definition laterDayFirst (a b : DailyConversation) : Prop :=
  civilCompare (parseDailyDate (date b)) (parseDailyDate (date a)) = Lt.

(** [s] is the decimal numeral of [n] on [width] digits. *)
Definition numeralOk (width : nat) (s : string) (n : Z) : bool :=
  (String.length s =? width)%nat && allDigits s && (decimalValue s =? n).

(** Checking a decidable property on the integers [lo, lo + n). *)
Fixpoint checkRange (f : Z -> bool) (lo : Z) (n : nat) : bool :=
  match n with
  | O => true
  | S n' => if f lo then checkRange f (lo + 1) n' else false
  end.

(** ** More of the JavaScript library *)

Module JsLib.

(** [a || b] on strings: [b] when [a] is empty. *)
Definition orElse (a b : string) : string := if Js.truthy a then a else b.

Definition backslash : ascii := "092"%char.

(** [s.split(sep)] for a one-character separator. *)
Fixpoint split (sep : ascii) (s : string) : list string :=
  match s with
  | EmptyString => [EmptyString]
  | String c s' =>
      if Ascii.eqb c sep then EmptyString :: split sep s'
      else match split sep s' with
           | first :: others => String c first :: others
           | [] => [String c EmptyString]
           end
  end.

(** [parts.pop()] of the array a [split] returns, which is never empty. *)
Definition pop (parts : list string) : string := last parts EmptyString.

(** [s.startsWith(c)] for a one-character prefix. *)
Definition startsWith (c : ascii) (s : string) : bool :=
  match s with
  | String c' _ => Ascii.eqb c' c
  | EmptyString => false
  end.

(** White space as [\s] and [parseInt] understand it.  A string is a sequence
    of UTF-8 bytes, so U+00A0, U+1680, U+2000..U+200A, U+2028, U+2029, U+202F,
    U+205F, U+3000 and U+FEFF are the byte sequences that encode them. *)
Definition isAsciiSpace (c : ascii) : bool :=
  let n := N_of_ascii c in
  (((9 <=? n) && (n <=? 13)) || (n =? 32))%N.

Definition isSpace2 (c1 c2 : ascii) : bool :=
  ((N_of_ascii c1 =? 194) && (N_of_ascii c2 =? 160))%N.

Definition isSpace3 (c1 c2 c3 : ascii) : bool :=
  let n1 := N_of_ascii c1 in
  let n2 := N_of_ascii c2 in
  let n3 := N_of_ascii c3 in
  (((n1 =? 225) && (n2 =? 154) && (n3 =? 128))
   || ((n1 =? 226) && (n2 =? 128)
       && (((128 <=? n3) && (n3 <=? 138)) || (n3 =? 168) || (n3 =? 169)
           || (n3 =? 175)))
   || ((n1 =? 226) && (n2 =? 129) && (n3 =? 159))
   || ((n1 =? 227) && (n2 =? 128) && (n3 =? 128))
   || ((n1 =? 239) && (n2 =? 187) && (n3 =? 191)))%N.

(** The string without its leading white space. *)
Fixpoint skipWhitespace (s : string) : string :=
  match s with
  | EmptyString => EmptyString
  | String c1 s1 =>
      if isAsciiSpace c1 then skipWhitespace s1
      else match s1 with
           | EmptyString => s
           | String c2 s2 =>
               if isSpace2 c1 c2 then skipWhitespace s2
               else match s2 with
                    | EmptyString => s
                    | String c3 s3 =>
                        if isSpace3 c1 c2 c3 then skipWhitespace s3 else s
                    end
           end
  end.

(** The longest prefix of decimal digits, and what follows it. *)
Fixpoint spanDigits (s : string) : string * string :=
  match s with
  | EmptyString => (EmptyString, EmptyString)
  | String c s' =>
      if isDigit c
      then let (digits, rest) := spanDigits s' in (String c digits, rest)
      else (EmptyString, s)
  end.

Fixpoint digitsValue (acc : Z) (digits : string) : Z :=
  match digits with
  | EmptyString => acc
  | String c digits' => digitsValue (acc * 10 + (Z.of_N (N_of_ascii c) - 48)) digits'
  end.

(** [parseInt(s, 10)]; [None] is NaN. *)
Definition parseInt (s : string) : option Z :=
  let trimmed := skipWhitespace s in
  let '(sign, unsigned) :=
    match trimmed with
    | String c rest =>
        if Ascii.eqb c "-" then (-1, rest)
        else if Ascii.eqb c "+" then (1, rest)
        else (1, trimmed)
    | EmptyString => (1, trimmed)
    end in
  match fst (spanDigits unsigned) with
  | EmptyString => None
  | String _ _ as digits => Some (sign * digitsValue 0 digits)
  end.

(** [Math.round(a / b)] for integers [a >= 0] and [b > 0]. *)
Definition roundDiv (a b : Z) : Z := (2 * a + b) / (2 * b).

(** [set.add(x)] on a [Set] kept in insertion order. *)
Definition setAdd (x : string) (set : list string) : list string :=
  if existsb (String.eqb x) set then set else (set ++ [x])%list.

Definition weekDayName (day : Z) : string :=
  nth (Z.to_nat ((day + 4) mod 7))
    ["Sun"; "Mon"; "Tue"; "Wed"; "Thu"; "Fri"; "Sat"] "".

Definition monthName (month : Z) : string :=
  nth (Z.to_nat month)
    ["Jan"; "Feb"; "Mar"; "Apr"; "May"; "Jun";
     "Jul"; "Aug"; "Sep"; "Oct"; "Nov"; "Dec"] "".

(** [new Date(t).toDateString()], as in "Sun Dec 08 2024". *)
Definition toDateString (tz : Z -> Z) (t : Z) : string :=
  let year := JsDate.getFullYear tz t in
  let yearSign := if year <? 0 then "-" else "" in
  (weekDayName (JsDate.localTime tz t / JsDate.msPerDay) ++ " "
   ++ monthName (JsDate.getMonth tz t) ++ " "
   ++ Js.padStart 2 "0" (Js.numberToString (JsDate.getDate tz t)) ++ " "
   ++ yearSign ++ Js.padStart 4 "0" (Js.numberToString (Z.abs year)))%string.

End JsLib.

(** ** html-report.ts *)

Module HtmlReport.

(** An element of [allEntries] as the report reads it; [role] is
    [message?.role]. *)
Record ReportEntry : Type := mkReportEntry {
  timestamp : Z;
  cwd : option string;
  role : option string
}.

Record HourlyActivity : Type := mkHourlyActivity {
  hour : Z;
  hourly_messageCount : Z;
  hourly_conversationTime : Z;
  days : list string
}.

Record ProjectActivity : Type := mkProjectActivity {
  projectName : string;
  project_messageCount : Z;
  project_conversationTime : Z;
  sessionCount : Z
}.

Record SessionDetail : Type := mkSessionDetail {
  detail_start : Z;
  detail_end : Z;
  duration : Z;
  detail_messageCount : Z;
  detail_project : string
}.

Record UserToUserGap : Type := mkUserToUserGap {
  gap : Z;
  gap_timestamp : Z;
  gap_project : string
}.

Definition SESSION_GAP_MS : Z := 3 * 60 * 1000.

(** [(?:(\d+)X)?] at the head of [s]: the digits captured, if any, and the
    rest of the string. *)
Definition matchNumberThen (suffix : ascii) (s : string) : option string * string :=
  let (digits, rest) := JsLib.spanDigits s in
  match digits, rest with
  | String _ _, String c rest' =>
      if Ascii.eqb c suffix then (Some digits, rest') else (None, s)
  | _, _ => (None, s)
  end.

(** [parseInt(part || '0', 10)]; the parts are strings of digits, on which
    [parseInt] is not NaN. *)
Definition partValue (part : option string) : Z :=
  match JsLib.parseInt (match part with Some digits => JsLib.orElse digits "0"
                                        | None => "0" end) with
  | Some value => value
  | None => 0
  end.

(** The pattern [(?:(\d+)h)?\s*(?:(\d+)m)?] matches at the head of every
    string, so [parts] is never null. *)
Definition convertToMinutes (timeStr : string) : Z :=
  let (hoursPart, afterHours) := matchNumberThen "h" timeStr in
  let (minutesPart, _) := matchNumberThen "m" (JsLib.skipWhitespace afterHours) in
  let hours := partValue hoursPart in
  let minutes := partValue minutesPart in
  hours * 60 + minutes.

(** An object [{ timestamp }] is represented by its timestamp. *)
Definition byStamp (a b : Z) : Z := a - b.

Definition stampStep (st : LoopState) (currentTime : Z) : LoopState :=
  let timeSinceLastMessage := currentTime - currentSessionEnd st in
  if timeSinceLastMessage <=? SESSION_GAP_MS
  then mkLoopState (currentSessionStart st) currentTime (sessions st)
  else mkLoopState currentTime currentTime
         (sessions st ++ [mkSession (currentSessionStart st) (currentSessionEnd st)])%list.

(** The [sessions] array of [calculateProjectConversationTime]. *)
Definition projectSessions (sortedEntries : list Z) : list Session :=
  match sortedEntries with
  | [] => []
  | first :: rest =>
      let st := fold_left stampStep rest (mkLoopState first first []) in
      (sessions st ++ [mkSession (currentSessionStart st) (currentSessionEnd st)])%list
  end.

Definition projectTotalMinutes (sessions : list Session) : Z :=
  fold_left
    (fun totalMinutes session =>
       let sessionDurationMs := session_end session - session_start session in
       totalMinutes + Z.max 1 (sessionDurationMs / (1000 * 60)))
    sessions 0.

(** The rendering shared by [calculateProjectConversationTime] and
    [formatTotalTime]. *)
Definition formatTotalTime (totalMinutes : Z) : string :=
  if totalMinutes <? 60 then (Js.numberToString totalMinutes ++ "m")%string
  else
    let hours := totalMinutes / 60 in
    let minutes := totalMinutes mod 60 in
    if minutes =? 0 then (Js.numberToString hours ++ "h")%string
    else (Js.numberToString hours ++ "h " ++ Js.numberToString minutes ++ "m")%string.

Definition calculateProjectConversationTime (entries : list Z) : string :=
  match entries with
  | [] => "0m"
  | [_] => "1m"
  | _ =>
      let sortedEntries := Js.sort byStamp entries in
      formatTotalTime (projectTotalMinutes (projectSessions sortedEntries))
  end.

(** [entry.cwd || 'Unknown Project'], then its last path component. *)
Definition projectNameOf (entry : ReportEntry) : string :=
  let projectPath :=
    match cwd entry with
    | Some path => JsLib.orElse path "Unknown Project"
    | None => "Unknown Project"
    end in
  JsLib.orElse (JsLib.pop (JsLib.split "/" projectPath))
    (JsLib.orElse (JsLib.pop (JsLib.split JsLib.backslash projectPath)) projectPath).

Definition ProjectData : Type := list (string * list Z).

Fixpoint pushStamp (projectData : ProjectData) (projectName : string) (stamp : Z)
  : ProjectData :=
  match projectData with
  | [] => [(projectName, [stamp])]
  | (key, entries) :: others =>
      if String.eqb key projectName then (key, (entries ++ [stamp])%list) :: others
      else (key, entries) :: pushStamp others projectName stamp
  end.

Definition groupByProject (allEntries : list ReportEntry) : ProjectData :=
  fold_left
    (fun projectData entry =>
       pushStamp projectData (projectNameOf entry) (timestamp entry))
    allEntries [].

Definition byTimeDescending (a b : ProjectActivity) : Z :=
  project_conversationTime b - project_conversationTime a.

Definition projectActivityOf (group : string * list Z) : ProjectActivity :=
  let (projectName, entries) := group in
  let conversationTimeStr := calculateProjectConversationTime entries in
  let conversationMinutes := convertToMinutes conversationTimeStr in
  mkProjectActivity projectName (Z.of_nat (List.length entries)) conversationMinutes 0.

Definition analyzeProjectActivity (allEntries : list ReportEntry)
  : list ProjectActivity :=
  Js.sort byTimeDescending (map projectActivityOf (groupByProject allEntries)).

(** [currentProject?.split('/').pop() || currentProject?.split('\\').pop()
    || 'Unknown']. *)
Definition projectLabel (currentProject : option string) : string :=
  match currentProject with
  | Some path =>
      JsLib.orElse (JsLib.pop (JsLib.split "/" path))
        (JsLib.orElse (JsLib.pop (JsLib.split JsLib.backslash path)) "Unknown")
  | None => "Unknown"
  end.

Definition byReportTimestamp (a b : ReportEntry) : Z := timestamp a - timestamp b.

(** The variables of the loop of [analyzeSessionDetails]. *)
Record DetailState : Type := mkDetailState {
  detailSessionStart : Z;
  detailSessionEnd : Z;
  currentSessionMessages : Z;
  currentProject : option string;
  detailSessions : list SessionDetail
}.

Definition closeDetail (st : DetailState) : SessionDetail :=
  let duration :=
    Z.max 1 ((detailSessionEnd st - detailSessionStart st) / (1000 * 60)) in
  mkSessionDetail (detailSessionStart st) (detailSessionEnd st) duration
    (currentSessionMessages st) (projectLabel (currentProject st)).

Definition detailStep (st : DetailState) (entry : ReportEntry) : DetailState :=
  let currentTime := timestamp entry in
  let timeSinceLastMessage := currentTime - detailSessionEnd st in
  if timeSinceLastMessage <=? SESSION_GAP_MS
  then mkDetailState (detailSessionStart st) currentTime
         (currentSessionMessages st + 1) (currentProject st) (detailSessions st)
  else mkDetailState currentTime currentTime 1 (cwd entry)
         (detailSessions st ++ [closeDetail st])%list.

(** The sessions of [analyzeSessionDetails] before the final sort. *)
Definition sessionDetailsOf (sortedEntries : list ReportEntry) : list SessionDetail :=
  match sortedEntries with
  | [] => []
  | first :: rest =>
      let st :=
        fold_left detailStep rest
          (mkDetailState (timestamp first) (timestamp first) 1 (cwd first) []) in
      (detailSessions st ++ [closeDetail st])%list
  end.

Definition byDurationDescending (a b : SessionDetail) : Z := duration b - duration a.

Definition analyzeSessionDetails (allEntries : list ReportEntry)
  : list SessionDetail :=
  match allEntries with
  | [] => []
  | _ =>
      let sortedEntries := Js.sort byReportTimestamp allEntries in
      Js.sort byDurationDescending (sessionDetailsOf sortedEntries)
  end.

Definition isUserMessage (entry : ReportEntry) : bool :=
  match role entry with
  | Some r => String.eqb r "user"
  | None => false
  end.

(** The loop of [analyzeUserToUserGaps] from index [i] on, [prev] being
    [userMessages[i - 1]]. *)
Fixpoint gapLoop (prev : ReportEntry) (rest : list ReportEntry)
    (gaps : list UserToUserGap) : list UserToUserGap :=
  match rest with
  | [] => gaps
  | current :: rest' =>
      let gap := (timestamp current - timestamp prev) / (1000 * 60) in
      gapLoop current rest'
        (if gap >? 3
         then (gaps ++ [mkUserToUserGap gap (timestamp current)
                          (projectLabel (cwd current))])%list
         else gaps)
  end.

Definition byGapDescending (a b : UserToUserGap) : Z := gap b - gap a.

Definition analyzeUserToUserGaps (allEntries : list ReportEntry)
  : list UserToUserGap :=
  let userMessages := Js.sort byReportTimestamp (filter isUserMessage allEntries) in
  Js.sort byGapDescending
    match userMessages with
    | [] => []
    | first :: rest => gapLoop first rest []
    end.

(** A value of [hourlyData]. *)
Record HourData : Type := mkHourData {
  messages : Z;
  dayKeys : list string;
  totalTime : Z
}.

Definition HourlyData : Type := list (Z * HourData).

Definition emptyHourlyData : HourlyData :=
  map (fun h => (Z.of_nat h, mkHourData 0 [] 0)) (seq 0 24).

(** [const data = hourlyData.get(hour)!; data.messages++;
    data.days.add(dayKey)]; [None] is the [TypeError] of a missing key. *)
Fixpoint recordMessage (hourlyData : HourlyData) (hour : Z) (dayKey : string)
  : option HourlyData :=
  match hourlyData with
  | [] => None
  | (key, data) :: others =>
      if key =? hour
      then Some ((key, mkHourData (messages data + 1)
                         (JsLib.setAdd dayKey (dayKeys data)) (totalTime data))
                 :: others)
      else option_map (cons (key, data)) (recordMessage others hour dayKey)
  end.

Section WithTimeZone.
Variable tz : Z -> Z.

Fixpoint recordAll (allEntries : list ReportEntry) (hourlyData : HourlyData)
  : option HourlyData :=
  match allEntries with
  | [] => Some hourlyData
  | entry :: others =>
      let hour := JsDate.getHours tz (timestamp entry) in
      let dayKey := JsLib.toDateString tz (timestamp entry) in
      match recordMessage hourlyData hour dayKey with
      | Some hourlyData' => recordAll others hourlyData'
      | None => None
      end
  end.

Definition analyzeHourlyActivity (allEntries : list ReportEntry)
  : option (list HourlyActivity) :=
  option_map
    (map (fun '(hour, data) => mkHourlyActivity hour (messages data) 0 (dayKeys data)))
    (recordAll allEntries emptyHourlyData).
End WithTimeZone.

Record DailyChart : Type := mkDailyChart {
  daily_labels : list string;
  daily_messages : list Z;
  daily_conversationMinutes : list Z
}.

Record HourlyChart : Type := mkHourlyChart {
  hourly_labels : list string;
  hourly_messages : list Z;
  avgTime : list Z
}.

Record ProjectsChart : Type := mkProjectsChart {
  projects_labels : list string;
  projects_messages : list Z;
  projects_conversationMinutes : list Z
}.

Record ChartData : Type := mkChartData {
  daily : DailyChart;
  hourly : HourlyChart;
  projects : ProjectsChart
}.

Definition prepareChartData (conversations : list DailyConversation)
    (projectActivity : list ProjectActivity) : ChartData :=
  let daily :=
    mkDailyChart (map date conversations) (map messageCount conversations)
      (map (fun c => convertToMinutes (estimatedConversationTime c)) conversations) in
  let hourlyLabels :=
    map (fun i => (Js.padStart 2 "0" (Js.numberToString (Z.of_nat i)) ++ ":00")%string)
      (seq 0 24) in
  mkChartData daily
    (mkHourlyChart hourlyLabels (repeat 0 24) (repeat 0 24))
    (mkProjectsChart (map projectName projectActivity)
       (map project_messageCount projectActivity)
       (map project_conversationTime projectActivity)).

End HtmlReport.

(** ** table-display.ts *)

Module TableDisplay.

Section WithColors.
(** The colour functions of picocolors. *)
Variables bold green yellow : string -> string.

Definition newline : string := String "010"%char EmptyString.

Definition formatSummary (conversations : list DailyConversation) : string :=
  match conversations with
  | [] => yellow "No data to summarize"
  | _ =>
      let totalDays := Z.of_nat (List.length conversations) in
      let totalMessages :=
        fold_left (fun sum conv => sum + messageCount conv) conversations 0 in
      let totalSessions :=
        fold_left (fun sum conv => sum + Z.of_nat (List.length (sessionIds conv)))
          conversations 0 in
      let lines :=
        [ bold "Summary:";
          ("  Days with activity: " ++ green (Js.numberToString totalDays))%string;
          ("  Total messages: " ++ green (Js.numberToString totalMessages))%string;
          ("  Total sessions: " ++ green (Js.numberToString totalSessions))%string;
          ("  Avg messages/day: "
           ++ green (Js.numberToString (JsLib.roundDiv totalMessages totalDays)))%string ] in
      String.concat newline lines
  end.
End WithColors.

End TableDisplay.

(** ** index.ts *)

Module Cli.

(** [LoadOptions & { help?, debug?, days? }]; a flag that is not set is
    [false]. *)
Record Options : Type := mkOptions {
  claudePath : option string;
  since : option string;
  until : option string;
  help : bool;
  debug : bool;
  days : option Z
}.

Definition noOptions : Options := mkOptions None None None false false None.

(** What running a function that may call [process.exit] comes to. *)
Inductive Outcome (A : Type) : Type :=
| Returned (value : A)
| Exited (code : Z) (stderr : string).

Arguments Returned {A} value.
Arguments Exited {A} code stderr.

Section WithColors.
Variable red : string -> string.

(** The loop of [parseArgs] from [args[i]] on. *)
Fixpoint parseLoop (args : list string) (options : Options) : Outcome Options :=
  match args with
  | [] => Returned options
  | arg :: rest =>
      if String.eqb arg "-h" || String.eqb arg "--help"
      then parseLoop rest
             (mkOptions (claudePath options) (since options) (until options)
                true (debug options) (days options))
      else if String.eqb arg "--debug"
      then parseLoop rest
             (mkOptions (claudePath options) (since options) (until options)
                (help options) true (days options))
      else if String.eqb arg "--since"
      then match rest with
           | value :: rest' =>
               parseLoop rest'
                 (mkOptions (claudePath options) (Some value) (until options)
                    (help options) (debug options) (days options))
           | [] => Returned options
           end
      else if String.eqb arg "--until"
      then match rest with
           | value :: rest' =>
               parseLoop rest'
                 (mkOptions (claudePath options) (since options) (Some value)
                    (help options) (debug options) (days options))
           | [] => Returned options
           end
      else if String.eqb arg "--claude-path"
      then match rest with
           | value :: rest' =>
               parseLoop rest'
                 (mkOptions (Some value) (since options) (until options)
                    (help options) (debug options) (days options))
           | [] => Returned options
           end
      else if String.eqb arg "--days"
      then match rest with
           | value :: rest' =>
               match JsLib.parseInt value with
               | Some daysValue =>
                   if (daysValue <? 1) || (daysValue >? 30)
                   then Exited 1 (red "Error: --days must be a number between 1 and 30")
                   else parseLoop rest'
                          (mkOptions (claudePath options) (since options)
                             (until options) (help options) (debug options)
                             (Some daysValue))
               | None =>
                   Exited 1 (red "Error: --days must be a number between 1 and 30")
               end
           | [] => Returned options
           end
      else if JsLib.startsWith "-" arg
      then Exited 1 (red ("Unknown option: " ++ arg))
      else parseLoop rest options
  end.

(** [parseArgs] on [process.argv.slice(2)]. *)
Definition parseArgs (args : list string) : Outcome Options :=
  parseLoop args noOptions.
End WithColors.

End Cli.

(** ** Session identifiers (data-loader.ts, types.ts) *)

Module SessionIds.

(** [sessionIdSchema.parse(value)]. *)
Definition createSessionId (value : string) : Result SessionId :=
  if Js.truthy value then Ok value
  else Throw (ZodError "Session ID cannot be empty").

Section WithPath.
(** [path.basename(p, ext)], [path.dirname(p)] and [path.extname(p)] of
    node:path. *)
Variable basename : string -> option string -> string.
Variables dirname extname : string -> string.

Definition extractFromPath (filePath : string) : Result SessionId :=
  let fileName := basename filePath (Some (extname filePath)) in
  let parentDir := basename (dirname filePath) None in
  if Js.truthy parentDir && negb (String.eqb parentDir ".")
     && negb (String.eqb parentDir ".claude")
  then createSessionId parentDir
  else if Js.truthy fileName && negb (String.eqb fileName "usage")
          && negb (String.eqb fileName "chat")
  then createSessionId fileName
  else createSessionId "unknown".

(** The body above runs in a [try]; the [catch] returns the id "unknown". *)
Definition extractSessionIdFromPath (filePath : string) : Result SessionId :=
  match extractFromPath filePath with
  | Ok sessionId => Ok sessionId
  | Throw _ => createSessionId "unknown"
  end.
End WithPath.

End SessionIds.

(** ** The data directories (data-loader.ts) *)

Module ClaudePaths.

(** [s.trim()]: the white space at both ends removed. *)
Fixpoint trimEnd (s : string) : string :=
  match s with
  | EmptyString => EmptyString
  | String c s' =>
      match JsLib.skipWhitespace s with
      | EmptyString => EmptyString
      | String _ _ => String c (trimEnd s')
      end
  end.

Definition trim (s : string) : string := trimEnd (JsLib.skipWhitespace s).

(** The array [paths] and the set [normalizedPaths]. *)
Record PathState : Type := mkPathState {
  paths : list string;
  normalizedPaths : list string
}.

Definition envPathList (envPaths : string) : list string :=
  filter (fun p => negb (String.eqb p "")) (map trim (JsLib.split "," envPaths)).

Section WithFileSystem.
(** The value of the environment variable CLAUDE_CONFIG_DIR, [path.resolve],
    [isDirectorySync] and the two default directories. *)
Variable configDirEnv : option string.
Variable resolve : string -> string.
Variable isDirectorySync : string -> bool.
Variables DEFAULT_CLAUDE_CONFIG_PATH DEFAULT_CLAUDE_CODE_PATH : string.

Definition remember (st : PathState) (normalizedPath : string) : PathState :=
  if negb (existsb (String.eqb normalizedPath) (normalizedPaths st))
  then mkPathState (paths st ++ [normalizedPath])%list
         (JsLib.setAdd normalizedPath (normalizedPaths st))
  else st.

Definition envStep (st : PathState) (envPath : string) : PathState :=
  let normalizedPath := resolve envPath in
  if isDirectorySync normalizedPath then remember st normalizedPath else st.

Definition defaultStep (st : PathState) (defaultPath : string) : PathState :=
  if isDirectorySync defaultPath
  then let normalizedPath := resolve defaultPath in remember st normalizedPath
  else st.

Definition getClaudePaths : list string :=
  let start := mkPathState [] [] in
  let envPaths := trim (match configDirEnv with Some value => value | None => "" end) in
  let useDefaults (st : PathState) :=
    let defaultPaths := [DEFAULT_CLAUDE_CONFIG_PATH; DEFAULT_CLAUDE_CODE_PATH] in
    paths (fold_left defaultStep defaultPaths st) in
  if negb (String.eqb envPaths "")
  then
    let afterEnv := fold_left envStep (envPathList envPaths) start in
    if (0 <? List.length (paths afterEnv))%nat then paths afterEnv
    else useDefaults afterEnv
  else useDefaults start.
End WithFileSystem.

End ClaudePaths.

(** ** Vocabulary of the further properties *)

Definition sumZ {A : Type} (f : A -> Z) (l : list A) : Z :=
  fold_right Z.add 0 (map f l).

Definition countIf {A : Type} (p : A -> bool) (l : list A) : Z :=
  Z.of_nat (List.length (filter p l)).

(** Every two neighbours of the list are related by [P]. *)
Fixpoint consecutive (P : Z -> Z -> Prop) (l : list Z) : Prop :=
  match l with
  | a :: (b :: _) as l' => P a b /\ consecutive P l'
  | _ => True
  end.

(** Decreasing values of [f] along the list. *)
Definition descendingBy {A : Type} (f : A -> Z) (l : list A) : Prop :=
  StronglySorted (fun a b => f b <= f a) l.

(** The time the sessions cover, in milliseconds. *)
Definition coveredMs (ss : list Session) : Z :=
  sumZ (fun s => session_end s - session_start s) ss.

(** The session of a single message. *)
Definition pointSession (entry : Entry) : Session :=
  mkSession (timestamp entry) (timestamp entry).

(** Colours switched off. *)
Definition plain (s : string) : string := s.

(** [sep] does not occur in [s]. *)
Fixpoint lacks (sep : ascii) (s : string) : bool :=
  match s with
  | EmptyString => true
  | String c s' => negb (Ascii.eqb c sep) && lacks sep s'
  end.

(** The path whose last component names the project of an entry. *)
Definition projectPathOf (entry : HtmlReport.ReportEntry) : string :=
  match HtmlReport.cwd entry with
  | Some path => if Js.truthy path then path else "Unknown Project"
  | None => "Unknown Project"
  end.







(** * Sample evaluations of the date model *)

Example epoch_date : JsDate.localCivil utc 0 = (1970, 1, 1).
Proof. reflexivity. Qed.

Example leap_day : JsDate.localCivil utc 951782400000 = (2000, 2, 29).
Proof. reflexivity. Qed.

Example before_epoch : JsDate.localCivil utc (-1) = (1969, 12, 31).
Proof. reflexivity. Qed.

Example local_day_differs :
  formatDate utc 1733700600000 = Ok "2024-12-08"
  /\ formatDate utcPlus1 1733700600000 = Ok "2024-12-09"
  /\ formatTime utc 1733700600000 = "23:30"
  /\ formatTime utcPlus1 1733700600000 = "00:30".
Proof. repeat split; reflexivity. Qed.

(** * Facts about [Array.prototype.sort] *)

Section SortFacts.
Context {A : Type} (cmp : A -> A -> Z).

Lemma insertSorted_perm (x : A) (l : list A) :
  Permutation (Js.insertSorted cmp x l) (x :: l).
Proof.
  induction l as [|y l IH]; simpl.
  - apply Permutation_refl.
  - destruct (cmp x y <=? 0).
    + apply Permutation_refl.
    + apply perm_trans with (y :: x :: l).
      * now apply perm_skip.
      * apply perm_swap.
Qed.

Lemma sort_perm (l : list A) : Permutation (Js.sort cmp l) l.
Proof.
  induction l as [|x l IH]; simpl.
  - apply perm_nil.
  - eapply perm_trans; [apply insertSorted_perm|].
    now apply perm_skip.
Qed.

Lemma sort_length (l : list A) : List.length (Js.sort cmp l) = List.length l.
Proof. apply Permutation_length, sort_perm. Qed.

Lemma sort_sorted_fixed (l : list A) : Sorted (cmpLe cmp) l -> Js.sort cmp l = l.
Proof.
  induction 1 as [|x l Hs IH Hhd]; simpl; [reflexivity|].
  rewrite IH. destruct Hhd as [|y l' Hxy]; simpl; [reflexivity|].
  unfold cmpLe in Hxy. apply Z.leb_le in Hxy. now rewrite Hxy.
Qed.

Hypothesis cmp_total : forall x y, 0 < cmp x y -> cmp y x <= 0.

Lemma insertSorted_sorted (x : A) (l : list A) :
  Sorted (cmpLe cmp) l -> Sorted (cmpLe cmp) (Js.insertSorted cmp x l).
Proof.
  induction 1 as [|y l Hs IH Hhd]; simpl.
  - repeat constructor.
  - destruct (cmp x y <=? 0) eqn:E.
    + apply Z.leb_le in E. repeat constructor; assumption.
    + apply Z.leb_gt in E. constructor; [exact IH|].
      destruct Hhd as [|z l' Hyz]; simpl.
      * constructor. now apply cmp_total.
      * destruct (cmp x z <=? 0); constructor;
          [now apply cmp_total | exact Hyz].
Qed.

Lemma sort_sorted (l : list A) : Sorted (cmpLe cmp) (Js.sort cmp l).
Proof.
  induction l as [|x l IH]; simpl; [constructor|].
  now apply insertSorted_sorted.
Qed.

Lemma sort_idempotent (l : list A) : Js.sort cmp (Js.sort cmp l) = Js.sort cmp l.
Proof. apply sort_sorted_fixed, sort_sorted. Qed.
End SortFacts.

Lemma byTimestamp_total (x y : Entry) :
  0 < byTimestamp x y -> byTimestamp y x <= 0.
Proof. unfold byTimestamp. lia. Qed.

Lemma sorted_timestamps (l : list Entry) :
  Sorted (cmpLe byTimestamp) l -> StronglySorted Z.le (map timestamp l).
Proof.
  intros H. apply Sorted_StronglySorted.
  - intros a b c. apply Z.le_trans.
  - induction H as [|x l Hs IH Hhd]; simpl; constructor; [exact IH|].
    destruct Hhd as [|y l' Hxy]; simpl; constructor.
    unfold cmpLe, byTimestamp in Hxy. lia.
Qed.

Lemma strongly_sorted_perm_eq (l1 l2 : list Z) :
  StronglySorted Z.le l1 -> StronglySorted Z.le l2 -> Permutation l1 l2 ->
  l1 = l2.
Proof.
  revert l2. induction l1 as [|x l1 IH]; intros l2 H1 H2 HP.
  - apply Permutation_nil in HP. now subst.
  - destruct l2 as [|y l2].
    + apply Permutation_sym, Permutation_nil in HP. discriminate.
    + apply StronglySorted_inv in H1 as [H1 Hx].
      apply StronglySorted_inv in H2 as [H2 Hy].
      assert (x = y) as ->.
      { assert (In x (y :: l2)) as Ix
          by (eapply Permutation_in; [exact HP | now left]).
        assert (In y (x :: l1)) as Iy
          by (eapply Permutation_in; [apply Permutation_sym; exact HP | now left]).
        rewrite Forall_forall in Hx, Hy.
        destruct Ix as [->|Ix]; [reflexivity|].
        destruct Iy as [->|Iy]; [reflexivity|].
        specialize (Hx _ Iy). specialize (Hy _ Ix). lia. }
      f_equal. apply IH; auto. now apply Permutation_cons_inv in HP.
Qed.

Lemma sorted_timestamps_of_perm (l1 l2 : list Entry) :
  Permutation l1 l2 ->
  map timestamp (Js.sort byTimestamp l1) = map timestamp (Js.sort byTimestamp l2).
Proof.
  intros HP. apply strongly_sorted_perm_eq.
  - apply sorted_timestamps, sort_sorted, byTimestamp_total.
  - apply sorted_timestamps, sort_sorted, byTimestamp_total.
  - apply Permutation_map.
    eapply perm_trans; [apply sort_perm|].
    eapply perm_trans; [exact HP|]. apply Permutation_sym, sort_perm.
Qed.

(** * Facts about the segmentation loop *)

Lemma loop_timestamps (gap : Z) (l1 l2 : list Entry) (st : LoopState) :
  map timestamp l1 = map timestamp l2 ->
  fold_left (loopStep gap) l1 st = fold_left (loopStep gap) l2 st.
Proof.
  revert l2 st. induction l1 as [|a l1 IH]; intros [|b l2] st H;
    simpl in *; try discriminate; [reflexivity|].
  injection H as Hab Hl. unfold loopStep at 2 4. rewrite Hab.
  now apply IH.
Qed.

Lemma segment_timestamps (gap : Z) (l1 l2 : list Entry) :
  map timestamp l1 = map timestamp l2 -> segment gap l1 = segment gap l2.
Proof.
  destruct l1 as [|a l1], l2 as [|b l2]; simpl; intros H;
    try discriminate; [reflexivity|].
  injection H as Hab Hl. unfold runLoop, initialState. rewrite Hab.
  f_equal. now apply loop_timestamps.
Qed.

Lemma last_cons_default {A : Type} (l : list A) (a d : A) :
  last (a :: l) d = last l a.
Proof.
  revert a d. induction l as [|b l IH]; intros a d; [reflexivity|].
  change (last (a :: b :: l) d) with (last (b :: l) d).
  now rewrite (IH b d), (IH b a).
Qed.

(** The end of the current session is the timestamp of the last entry read. *)
Lemma loop_end_is_last (gap : Z) (first : Entry) (before : list Entry) :
  currentSessionEnd (runLoop gap first before)
  = timestamp (last (first :: before) first).
Proof.
  unfold runLoop. rewrite last_cons_default.
  assert (G : forall l st e0,
             currentSessionEnd st = timestamp e0 ->
             currentSessionEnd (fold_left (loopStep gap) l st)
             = timestamp (last l e0)).
  { induction l as [|a l IH]; intros st e0 H; [exact H|].
    cbn [fold_left]. rewrite last_cons_default.
    apply IH. unfold loopStep. destruct (_ <=? _); reflexivity. }
  apply G. reflexivity.
Qed.

Lemma loopStep_eq (gap : Z) (s e : Z) (acc : list Session) (a : Entry) :
  loopStep gap (mkLoopState s e acc) a
  = if timestamp a - e <=? gap
    then mkLoopState s (timestamp a) acc
    else mkLoopState (timestamp a) (timestamp a) (acc ++ [mkSession s e])%list.
Proof. reflexivity. Qed.

(** Sessions already closed are never touched again. *)
Lemma loop_closed_prefix (gap : Z) (l : list Entry) (s e : Z) (acc : list Session) :
  fold_left (loopStep gap) l (mkLoopState s e acc)
  = mkLoopState
      (currentSessionStart (fold_left (loopStep gap) l (mkLoopState s e [])))
      (currentSessionEnd (fold_left (loopStep gap) l (mkLoopState s e [])))
      (acc ++ sessions (fold_left (loopStep gap) l (mkLoopState s e [])))%list.
Proof.
  revert s e acc. induction l as [|a l IH]; intros s e acc; cbn [fold_left].
  - cbn. now rewrite app_nil_r.
  - rewrite !loopStep_eq. destruct (timestamp a - e <=? gap).
    + apply IH.
    + rewrite IH. rewrite (IH _ _ ([] ++ _)%list). cbn.
      now rewrite <- app_assoc.
Qed.

(** The start of the open session only shows in the first session that the
    rest of the loop closes. *)
Lemma loop_open_start (gap : Z) (l : list Entry) (s e : Z) :
  closeLast (fold_left (loopStep gap) l (mkLoopState s e []))
  = withStart s (closeLast (fold_left (loopStep gap) l (mkLoopState e e []))).
Proof.
  revert s e. induction l as [|a l IH]; intros s e; cbn [fold_left].
  - reflexivity.
  - rewrite !loopStep_eq. destruct (timestamp a - e <=? gap).
    + rewrite (IH s), (IH e). now destruct (closeLast _).
    + rewrite !(loop_closed_prefix gap l _ _ ([] ++ _)%list).
      unfold closeLast. cbn. reflexivity.
Qed.

Lemma totalMinutesOf_spec (ss : list Session) :
  totalMinutesOf ss = specTotalMinutes ss.
Proof.
  unfold totalMinutesOf, specTotalMinutes.
  assert (G : forall l acc,
             fold_left (fun total s => total + sessionMinutes s) l acc
             = acc + fold_right Z.add 0 (map specSessionMinutes l)).
  { induction l as [|s l IH]; intros acc; simpl; [lia|].
    rewrite IH. unfold sessionMinutes, specSessionMinutes.
    change (1000 * 60) with 60000. lia. }
  rewrite G. lia.
Qed.

Lemma closeLast_prefix (gap : Z) (l : list Entry) (s e : Z) (acc : list Session) :
  closeLast (fold_left (loopStep gap) l (mkLoopState s e acc))
  = (acc ++ closeLast (fold_left (loopStep gap) l (mkLoopState s e [])))%list.
Proof.
  rewrite loop_closed_prefix. unfold closeLast. cbn.
  now rewrite app_assoc.
Qed.

Lemma gap_rule (gap : Z) (first : Entry) (before : list Entry) (next : Entry)
    (after : list Entry) :
  let prev := last (first :: before) first in
  let st := runLoop gap first before in
  let st' := runLoop gap first (before ++ [next]) in
  currentSessionEnd st = timestamp prev
  /\ if timestamp next - timestamp prev <=? gap
     then st' = mkLoopState (currentSessionStart st) (timestamp next) (sessions st)
          /\ segment gap (first :: before ++ next :: after)
             = (sessions st
                ++ withStart (currentSessionStart st) (segment gap (next :: after)))%list
     else st' = mkLoopState (timestamp next) (timestamp next)
                  (sessions st
                   ++ [mkSession (currentSessionStart st) (timestamp prev)])%list
          /\ segment gap (first :: before ++ next :: after)
             = (segment gap (first :: before) ++ segment gap (next :: after))%list.
Proof.
  intros prev st st'.
  assert (Hend : currentSessionEnd st = timestamp prev)
    by apply loop_end_is_last.
  split; [exact Hend|].
  assert (Hst' : st' = loopStep gap st next).
  { unfold st', st, runLoop. now rewrite fold_left_app. }
  assert (Hseg : segment gap (first :: before ++ next :: after)
                 = closeLast (fold_left (loopStep gap) after (loopStep gap st next))).
  { unfold segment, st, runLoop. now rewrite fold_left_app. }
  rewrite Hst', Hseg. clear Hst' Hseg st'.
  assert (Hcur : segment gap (first :: before) = closeLast st) by reflexivity.
  rewrite Hcur.
  generalize dependent (timestamp prev). intros tp Hend.
  destruct st as [s e acc]. cbn [currentSessionEnd] in Hend. subst e.
  rewrite loopStep_eq. cbn [currentSessionStart sessions].
  destruct (timestamp next - tp <=? gap).
  - split; [reflexivity|].
    rewrite closeLast_prefix, loop_open_start. reflexivity.
  - split; [reflexivity|].
    rewrite closeLast_prefix. reflexivity.
Qed.

(** * Facts about decimal numerals and date strings *)

Ltac split_andb :=
  repeat match goal with
         | H : _ && _ = true |- _ => apply andb_prop in H; destruct H
         end.

Lemma checkRange_spec (f : Z -> bool) (n : nat) (lo : Z) :
  checkRange f lo n = true -> forall x, lo <= x < lo + Z.of_nat n -> f x = true.
Proof.
  revert lo. induction n as [|n IH]; intros lo H x Hx.
  - simpl in Hx. lia.
  - simpl in H. destruct (f lo) eqn:E; [|discriminate].
    destruct (Z.eq_dec x lo) as [->|Hne]; [exact E|].
    apply (IH (lo + 1) H). lia.
Qed.

Lemma isDigit_value (c : ascii) : isDigit c = true -> 0 <= digitValue c <= 9.
Proof.
  unfold isDigit, digitValue. intros H. split_andb.
  apply N.leb_le in H, H0. lia.
Qed.

Lemma isDigit_not_hyphen (c : ascii) : isDigit c = true -> Ascii.eqb c "-" = false.
Proof.
  intros H. apply Ascii.eqb_neq. intros ->. discriminate.
Qed.

Lemma allDigits_bound (s : string) :
  allDigits s = true -> 0 <= decimalValue s < 10 ^ Z.of_nat (String.length s).
Proof.
  induction s as [|c s IH]; cbn [allDigits decimalValue String.length];
    intros H; [cbn; lia|].
  split_andb. specialize (IH H0). apply isDigit_value in H.
  rewrite Nat2Z.inj_succ, Z.pow_succ_r by lia.
  nia.
Qed.

Lemma compare_refl (s : string) : String.compare s s = Eq.
Proof.
  induction s as [|c s IH]; simpl; [reflexivity|].
  unfold Ascii.compare. now rewrite N.compare_refl.
Qed.

(** On numerals of the same width the order of strings is the order of
    numbers. *)
Lemma compare_digits (a b : string) :
  String.length a = String.length b ->
  allDigits a = true -> allDigits b = true ->
  String.compare a b = (decimalValue a ?= decimalValue b).
Proof.
  revert b. induction a as [|c a IH]; intros [|d b] Hlen Ha Hb;
    simpl in *; try discriminate; [reflexivity|].
  injection Hlen as Hlen. split_andb.
  pose proof (allDigits_bound a H2) as Ba.
  pose proof (allDigits_bound b H0) as Bb.
  rewrite <- Hlen in *.
  set (P := 10 ^ Z.of_nat (String.length a)) in *.
  unfold Ascii.compare, digitValue.
  destruct (N.compare_spec (N_of_ascii c) (N_of_ascii d)) as [E|E|E].
  - rewrite E, Z.add_compare_mono_l. now apply IH.
  - symmetry. apply Z.compare_lt_iff. nia.
  - symmetry. apply Z.compare_gt_iff. nia.
Qed.

Lemma compare_app (a a' b b' : string) :
  String.length a = String.length a' ->
  String.compare (a ++ b) (a' ++ b')
  = match String.compare a a' with
    | Eq => String.compare b b'
    | other => other
    end.
Proof.
  revert a'. induction a as [|c a IH]; intros [|c' a'] Hlen;
    simpl in *; try discriminate; [reflexivity|].
  injection Hlen as Hlen. destruct (Ascii.compare c c'); auto.
Qed.

Lemma numeralOk_parts (w : nat) (s : string) (n : Z) :
  numeralOk w s n = true ->
  String.length s = w /\ allDigits s = true /\ decimalValue s = n.
Proof.
  unfold numeralOk. intros H. split_andb.
  apply Nat.eqb_eq in H. apply Z.eqb_eq in H0. auto.
Qed.

Lemma year_numeral (y : Z) :
  1000 <= y <= 9999 -> numeralOk 4 (Js.numberToString y) y = true.
Proof.
  intros H.
  apply (checkRange_spec (fun y => numeralOk 4 (Js.numberToString y) y)
           (Z.to_nat 9000) 1000);
    [vm_compute; reflexivity | rewrite Z2Nat.id; lia].
Qed.

Lemma two_digit_numeral (n : Z) :
  0 <= n <= 99 ->
  numeralOk 2 (Js.padStart 2 "0" (Js.numberToString n)) n = true.
Proof.
  intros H.
  apply (checkRange_spec
           (fun n => numeralOk 2 (Js.padStart 2 "0" (Js.numberToString n)) n)
           (Z.to_nat 100) 0);
    [vm_compute; reflexivity | rewrite Z2Nat.id; lia].
Qed.

Lemma civil_month_day (days : Z) :
  1 <= snd (fst (JsDate.civilFromDays days)) <= 12
  /\ 1 <= snd (JsDate.civilFromDays days) <= 31.
Proof.
  unfold JsDate.civilFromDays. cbn [fst snd].
  set (doe := (days + 719468) mod 146097).
  assert (Hdoe : 0 <= doe < 146097) by (apply Z.mod_pos_bound; lia).
  clearbody doe.
  set (yoe := (doe - doe / 1460 + doe / 36524 - doe / 146096) / 365).
  set (doy := doe - (365 * yoe + yoe / 4 - yoe / 100)).
  assert (Hdoy : 0 <= doy <= 365).
  { subst doy yoe. Z.to_euclidean_division_equations; lia. }
  clearbody doy.
  set (mp := (5 * doy + 2) / 153).
  assert (Hmp : 0 <= mp <= 11 /\ 1 <= doy - (153 * mp + 2) / 5 + 1 <= 31).
  { subst mp. Z.to_euclidean_division_equations; lia. }
  clearbody mp. destruct Hmp as [Hmp Hd].
  split; [|exact Hd].
  destruct (mp <? 10) eqn:E; [apply Z.ltb_lt in E | apply Z.ltb_ge in E]; lia.
Qed.

(** A string put together from a four-digit year and two-digit month and day
    passes the schema and denotes that date. *)
Lemma daily_date_of_numerals (Y M D : string) (y m d : Z) :
  numeralOk 4 Y y = true -> numeralOk 2 M m = true -> numeralOk 2 D d = true ->
  matchesDailyDate (Y ++ "-" ++ M ++ "-" ++ D) = true
  /\ parseDailyDate (Y ++ "-" ++ M ++ "-" ++ D) = (y, m, d)
  /\ Js.removeHyphens (Y ++ "-" ++ M ++ "-" ++ D) = (Y ++ M ++ D)%string
  /\ isYYYYMMDD (Y ++ M ++ D) = true
  /\ parseYYYYMMDD (Y ++ M ++ D) = (y, m, d).
Proof.
  intros HY HM HD.
  apply numeralOk_parts in HY as (LY & AY & VY), HM as (LM & AM & VM),
      HD as (LD & AD & VD).
  subst y m d.
  destruct Y as [|y1 [|y2 [|y3 [|y4 [|? ?]]]]]; try discriminate.
  destruct M as [|m1 [|m2 [|? ?]]]; try discriminate.
  destruct D as [|d1 [|d2 [|? ?]]]; try discriminate.
  cbn [allDigits] in *. split_andb.
  unfold matchesDailyDate, isYYYYMMDD, parseDailyDate, parseYYYYMMDD.
  cbn [append list_ascii_of_string substring Js.removeHyphens allDigits
       String.length Nat.eqb].
  repeat match goal with
         | H : isDigit ?c = true |- _ =>
             rewrite (isDigit_not_hyphen c H); rewrite H; clear H
         end.
  repeat split; reflexivity.
Qed.

(** The shape of a string that passes the schema. *)
Lemma daily_date_shape (s : string) :
  matchesDailyDate s = true ->
  exists Y M D,
    s = (Y ++ "-" ++ M ++ "-" ++ D)%string
    /\ numeralOk 4 Y (decimalValue Y) = true
    /\ numeralOk 2 M (decimalValue M) = true
    /\ numeralOk 2 D (decimalValue D) = true.
Proof.
  unfold matchesDailyDate. intros H.
  destruct s as [|y1 [|y2 [|y3 [|y4 [|h1 [|m1 [|m2 [|h2 [|d1 [|d2 [|? ?]]]]]]]]]]];
    try discriminate.
  cbn [list_ascii_of_string] in H. split_andb.
  repeat match goal with
         | H : isHyphen _ = true |- _ => apply Ascii.eqb_eq in H
         end.
  subst h1 h2.
  exists (String y1 (String y2 (String y3 (String y4 "")))),
    (String m1 (String m2 "")), (String d1 (String d2 "")).
  unfold numeralOk. cbn [String.length Nat.eqb allDigits andb].
  rewrite !Z.eqb_refl.
  repeat match goal with H : isDigit _ = true |- _ => rewrite H; clear H end.
  repeat split; reflexivity.
Qed.

(** Strings of the forms [YYYY-MM-DD] and [YYYYMMDD] are ordered as the dates
    they denote. *)
Lemma compare_numerals_hyphens (Y M D Y' M' D' : string) (y m d y' m' d' : Z) :
  numeralOk 4 Y y = true -> numeralOk 2 M m = true -> numeralOk 2 D d = true ->
  numeralOk 4 Y' y' = true -> numeralOk 2 M' m' = true -> numeralOk 2 D' d' = true ->
  String.compare (Y ++ "-" ++ M ++ "-" ++ D) (Y' ++ "-" ++ M' ++ "-" ++ D')
  = civilCompare (y, m, d) (y', m', d').
Proof.
  intros HY HM HD HY' HM' HD'.
  apply numeralOk_parts in HY as (LY & AY & VY), HM as (LM & AM & VM),
      HD as (LD & AD & VD), HY' as (LY' & AY' & VY'), HM' as (LM' & AM' & VM'),
      HD' as (LD' & AD' & VD').
  rewrite compare_app by congruence.
  rewrite (compare_digits Y Y') by congruence.
  cbn [append String.compare]. change (Ascii.compare "-" "-") with Eq. cbv iota.
  rewrite compare_app by congruence.
  rewrite (compare_digits M M') by congruence.
  cbn [append String.compare]. change (Ascii.compare "-" "-") with Eq. cbv iota.
  rewrite (compare_digits D D') by congruence.
  subst. reflexivity.
Qed.

Lemma compare_numerals_plain (Y M D Y' M' D' : string) (y m d y' m' d' : Z) :
  numeralOk 4 Y y = true -> numeralOk 2 M m = true -> numeralOk 2 D d = true ->
  numeralOk 4 Y' y' = true -> numeralOk 2 M' m' = true -> numeralOk 2 D' d' = true ->
  String.compare (Y ++ M ++ D) (Y' ++ M' ++ D')
  = civilCompare (y, m, d) (y', m', d').
Proof.
  intros HY HM HD HY' HM' HD'.
  apply numeralOk_parts in HY as (LY & AY & VY), HM as (LM & AM & VM),
      HD as (LD & AD & VD), HY' as (LY' & AY' & VY'), HM' as (LM' & AM' & VM'),
      HD' as (LD' & AD' & VD').
  rewrite compare_app by congruence.
  rewrite (compare_digits Y Y') by congruence.
  rewrite compare_app by congruence.
  rewrite (compare_digits M M') by congruence.
  rewrite (compare_digits D D') by congruence.
  subst. reflexivity.
Qed.

Lemma yyyymmdd_shape (s : string) :
  isYYYYMMDD s = true ->
  exists Y M D,
    s = (Y ++ M ++ D)%string
    /\ numeralOk 4 Y (decimalValue Y) = true
    /\ numeralOk 2 M (decimalValue M) = true
    /\ numeralOk 2 D (decimalValue D) = true
    /\ parseYYYYMMDD s = (decimalValue Y, decimalValue M, decimalValue D)
    /\ Js.truthy s = true.
Proof.
  unfold isYYYYMMDD. intros H. split_andb.
  destruct s as [|y1 [|y2 [|y3 [|y4 [|m1 [|m2 [|d1 [|d2 [|? ?]]]]]]]]];
    try discriminate.
  cbn [allDigits] in *. split_andb.
  exists (String y1 (String y2 (String y3 (String y4 "")))),
    (String m1 (String m2 "")), (String d1 (String d2 "")).
  unfold numeralOk. cbn [String.length Nat.eqb allDigits andb].
  rewrite !Z.eqb_refl.
  repeat match goal with H : isDigit _ = true |- _ => rewrite H; clear H end.
  repeat split; reflexivity.
Qed.

Lemma civilCompare_antisym (a b : CalendarDate) :
  civilCompare a b = CompOpp (civilCompare b a).
Proof.
  destruct a as [[y1 m1] d1], b as [[y2 m2] d2]. unfold civilCompare.
  rewrite (Z.compare_antisym y1 y2), (Z.compare_antisym m1 m2),
    (Z.compare_antisym d1 d2).
  destruct (y1 ?= y2), (m1 ?= m2), (d1 ?= d2); reflexivity.
Qed.

Lemma civilCompare_refl (a : CalendarDate) : civilCompare a a = Eq.
Proof.
  destruct a as [[y m] d]. unfold civilCompare. now rewrite !Z.compare_refl.
Qed.

(** * Facts about [formatDate] and the date-range filter *)

Section RangeFilter.
Variable tz : Z -> Z.

Lemma formatDate_numerals (t : Z) :
  1000 <= JsDate.getFullYear tz t <= 9999 ->
  exists Y M D,
    formatDate tz t = Ok (Y ++ "-" ++ M ++ "-" ++ D)%string
    /\ numeralOk 4 Y (fst (fst (JsDate.localCivil tz t))) = true
    /\ numeralOk 2 M (snd (fst (JsDate.localCivil tz t))) = true
    /\ numeralOk 2 D (snd (JsDate.localCivil tz t)) = true.
Proof.
  intros Hy.
  destruct (civil_month_day (JsDate.localTime tz t / JsDate.msPerDay)) as [Hm Hd].
  fold (JsDate.localCivil tz t) in Hm, Hd.
  pose proof (year_numeral _ Hy) as NY.
  assert (NM : numeralOk 2
                 (Js.padStart 2 "0" (Js.numberToString (JsDate.getMonth tz t + 1)))
                 (snd (fst (JsDate.localCivil tz t))) = true).
  { unfold JsDate.getMonth.
    replace (snd (fst (JsDate.localCivil tz t)) - 1 + 1)
      with (snd (fst (JsDate.localCivil tz t))) by lia.
    apply two_digit_numeral. lia. }
  assert (ND : numeralOk 2
                 (Js.padStart 2 "0" (Js.numberToString (JsDate.getDate tz t)))
                 (snd (JsDate.localCivil tz t)) = true).
  { apply two_digit_numeral. unfold JsDate.getDate. lia. }
  do 3 eexists. split; [|split; [exact NY | split; [exact NM | exact ND]]].
  unfold formatDate, createDailyDate.
  destruct (daily_date_of_numerals _ _ _ _ _ _ NY NM ND) as (Hmatch & _).
  now rewrite Hmatch.
Qed.

Lemma civil_eta (t : Z) :
  JsDate.localCivil tz t
  = (fst (fst (JsDate.localCivil tz t)), snd (fst (JsDate.localCivil tz t)),
     snd (JsDate.localCivil tz t)).
Proof. now destruct (JsDate.localCivil tz t) as [[y m] d]. Qed.

(** With a four-digit local year [formatDate] returns the date string of the
    local calendar date. *)
Lemma formatDate_four_digit_year (t : Z) :
  1000 <= JsDate.getFullYear tz t <= 9999 ->
  exists s, formatDate tz t = Ok s
            /\ matchesDailyDate s = true
            /\ parseDailyDate s = JsDate.localCivil tz t.
Proof.
  intros Hy. destruct (formatDate_numerals t Hy) as (Y & M & D & HF & NY & NM & ND).
  destruct (daily_date_of_numerals _ _ _ _ _ _ NY NM ND) as (Hmatch & Hparse & _).
  eexists. split; [exact HF|]. split; [exact Hmatch|].
  rewrite Hparse. symmetry. apply civil_eta.
Qed.

Lemma bound_not_provided (bound : option string) :
  wellFormedBound bound -> provided bound = false -> bound = None.
Proof.
  destruct bound as [s|]; [|reflexivity]. cbn. intros Hwf Hp.
  apply yyyymmdd_shape in Hwf as (_ & _ & _ & _ & _ & _ & _ & _ & Ht).
  congruence.
Qed.

Lemma keepEntry_spec (options : LoadOptions) (entry : Entry) :
  wellFormedBound (since options) -> wellFormedBound (until options) ->
  fourDigitYear tz entry ->
  keepEntry tz options entry
  = Ok (inRange (since options) (until options)
          (JsDate.localCivil tz (timestamp entry))).
Proof.
  intros Hs Hu Hy.
  destruct (formatDate_numerals _ Hy) as (Y & M & D & HF & NY & NM & ND).
  destruct (daily_date_of_numerals _ _ _ _ _ _ NY NM ND) as (_ & _ & Hrm & _ & _).
  unfold keepEntry. rewrite HF. cbn [bind]. rewrite Hrm.
  rewrite (civil_eta (timestamp entry)).
  set (y := fst (fst (JsDate.localCivil tz (timestamp entry)))) in *.
  set (m := snd (fst (JsDate.localCivil tz (timestamp entry)))) in *.
  set (d := snd (JsDate.localCivil tz (timestamp entry))) in *.
  unfold inRange.
  assert (Hsince :
            provided (since options) && Js.lt (Y ++ M ++ D) (boundOr (since options))
            = negb match since options with
                   | Some s => civilLeb (parseYYYYMMDD s) (y, m, d)
                   | None => true
                   end).
  { destruct (since options) as [s|]; [|reflexivity].
    cbn in Hs. apply yyyymmdd_shape in Hs
      as (Y' & M' & D' & -> & NY' & NM' & ND' & Hp & Ht).
    cbn [provided boundOr]. rewrite Ht, Hp. cbn [andb].
    unfold Js.lt, String.ltb, civilLeb.
    rewrite (compare_numerals_plain _ _ _ _ _ _ _ _ _ _ _ _ NY NM ND NY' NM' ND').
    rewrite (civilCompare_antisym (decimalValue Y', _, _)).
    now destruct (civilCompare (y, m, d) _). }
  assert (Huntil :
            provided (until options) && Js.gt (Y ++ M ++ D) (boundOr (until options))
            = negb match until options with
                   | Some u => civilLeb (y, m, d) (parseYYYYMMDD u)
                   | None => true
                   end).
  { destruct (until options) as [u|]; [|reflexivity].
    cbn in Hu. apply yyyymmdd_shape in Hu
      as (Y' & M' & D' & -> & NY' & NM' & ND' & Hp & Ht).
    cbn [provided boundOr]. rewrite Ht, Hp. cbn [andb].
    unfold Js.gt, String.ltb, civilLeb.
    rewrite (compare_numerals_plain _ _ _ _ _ _ _ _ _ _ _ _ NY' NM' ND' NY NM ND).
    rewrite (civilCompare_antisym (y, m, d)).
    now destruct (civilCompare _ (y, m, d)). }
  rewrite Hsince, Huntil.
  destruct (match since options with Some _ => _ | None => _ end),
    (match until options with Some _ => _ | None => _ end); reflexivity.
Qed.

Lemma filterEntries_spec (options : LoadOptions) (entries : list Entry) :
  wellFormedBound (since options) -> wellFormedBound (until options) ->
  Forall (fourDigitYear tz) entries ->
  filterEntries (keepEntry tz options) entries
  = Ok (filter (fun entry => inRange (since options) (until options)
                               (JsDate.localCivil tz (timestamp entry)))
          entries).
Proof.
  intros Hs Hu. induction 1 as [|entry entries Hy _ IH]; [reflexivity|].
  cbn [filterEntries filter]. rewrite (keepEntry_spec _ _ Hs Hu Hy), IH.
  reflexivity.
Qed.

Lemma filterByRange_spec (options : LoadOptions) (entries : list Entry) :
  wellFormedBound (since options) -> wellFormedBound (until options) ->
  Forall (fourDigitYear tz) entries ->
  filterByRange tz options entries
  = Ok (filter (fun entry => inRange (since options) (until options)
                               (JsDate.localCivil tz (timestamp entry)))
          entries).
Proof.
  intros Hs Hu Hy. unfold filterByRange.
  destruct (provided (since options)) eqn:Ps;
    [cbn; now apply filterEntries_spec|].
  destruct (provided (until options)) eqn:Pu;
    [cbn; now apply filterEntries_spec|].
  cbn. rewrite (bound_not_provided _ Hs Ps), (bound_not_provided _ Hu Pu).
  f_equal. clear. induction entries as [|e l IH]; [reflexivity|].
  cbn [filter inRange andb]. now f_equal.
Qed.
End RangeFilter.

(** * Facts about the grouping by date *)

Lemma compare_lt_trans (a b c : string) :
  String.compare a b = Lt -> String.compare b c = Lt -> String.compare a c = Lt.
Proof.
  revert b c. induction a as [|x a IH]; intros [|y b] [|z c]; simpl;
    try discriminate; try reflexivity.
  unfold Ascii.compare. intros H1 H2.
  destruct (N.compare_spec (N_of_ascii x) (N_of_ascii y)) as [E1|E1|E1];
    try discriminate;
    destruct (N.compare_spec (N_of_ascii y) (N_of_ascii z)) as [E2|E2|E2];
    try discriminate;
    destruct (N.compare_spec (N_of_ascii x) (N_of_ascii z)) as [E3|E3|E3];
    try lia; try reflexivity; eauto.
Qed.

Lemma pushEntry_size (groups : DailyGroups) (d : DailyDate) (e : Entry) :
  groupSize (pushEntry groups d e) = groupSize groups + 1.
Proof.
  unfold groupSize. induction groups as [|[k es] groups IH]; cbn; [lia|].
  destruct (String.eqb k d); cbn.
  - rewrite length_app. cbn. lia.
  - cbn in IH. lia.
Qed.

Lemma addTo_other (d : DailyDate) (e : Entry) (groups : DailyGroups) :
  ~ In d (map fst groups) -> map (addTo d e) groups = groups.
Proof.
  induction groups as [|[k es] groups IH]; cbn; [reflexivity|].
  intros Hn. unfold addTo at 1. cbn.
  destruct (String.eqb_spec k d) as [->|_]; [exfalso; auto|].
  f_equal. apply IH. auto.
Qed.

Lemma pushEntry_found (groups : DailyGroups) (d : DailyDate) (e : Entry) :
  In d (map fst groups) -> NoDup (map fst groups) ->
  pushEntry groups d e = map (addTo d e) groups.
Proof.
  induction groups as [|[k es] groups IH]; cbn; [intros []|].
  intros Hin Hnd. inversion Hnd as [|? ? Hk Hnd']; subst.
  unfold addTo at 1. cbn.
  destruct (String.eqb_spec k d) as [->|Hkd].
  - now rewrite addTo_other.
  - f_equal. apply IH; [|assumption]. destruct Hin; [contradiction|assumption].
Qed.

Lemma pushEntry_new (groups : DailyGroups) (d : DailyDate) (e : Entry) :
  ~ In d (map fst groups) -> pushEntry groups d e = (groups ++ [(d, [e])])%list.
Proof.
  induction groups as [|[k es] groups IH]; cbn; [reflexivity|].
  intros Hn. destruct (String.eqb_spec k d) as [->|_]; [exfalso; auto|].
  f_equal. apply IH. auto.
Qed.

Lemma hasDate_of (tz : Z -> Z) (e : Entry) (d k : DailyDate) :
  formatDate tz (timestamp e) = Ok d -> hasDate tz k e = String.eqb d k.
Proof. unfold hasDate. now intros ->. Qed.

Lemma hasDate_true (tz : Z -> Z) (e : Entry) (k : DailyDate) :
  hasDate tz k e = true <-> formatDate tz (timestamp e) = Ok k.
Proof.
  unfold hasDate. destruct (formatDate tz (timestamp e)) as [d|err].
  - rewrite String.eqb_eq. split; congruence.
  - split; discriminate.
Qed.

Lemma pushEntry_ok (tz : Z -> Z) (processed : list Entry) (groups : DailyGroups)
    (d : DailyDate) (e : Entry) :
  formatDate tz (timestamp e) = Ok d ->
  groupsOk tz processed groups ->
  groupsOk tz (processed ++ [e]) (pushEntry groups d e).
Proof.
  intros Hd (Hnd & Hall & Hcover).
  destruct (in_dec string_dec d (map fst groups)) as [Hin|Hnew].
  - rewrite (pushEntry_found _ _ _ Hin Hnd). repeat split.
    + rewrite map_map.
      replace (map (fun g => fst (addTo d e g)) groups) with (map fst groups);
        [assumption|].
      apply map_ext. intros g. unfold addTo. now destruct (String.eqb _ _).
    + apply Forall_map. eapply Forall_impl; [|exact Hall].
      intros [k es] [Hne Hes]. cbn in Hne, Hes.
      unfold addTo. cbn [fst snd].
      destruct (String.eqb_spec k d) as [->|Hkd]; cbn [fst snd];
        rewrite filter_app; cbn [filter];
        rewrite (hasDate_of tz e d) by assumption.
      * rewrite String.eqb_refl. split; [now destruct es | now rewrite <- Hes].
      * assert (Hdk : String.eqb d k = false)
          by (apply String.eqb_neq; congruence).
        rewrite Hdk. split; [assumption | now rewrite app_nil_r].
    + intros x Hx. apply in_app_or in Hx as [Hx|[<-|[]]].
      * destruct (Hcover x Hx) as (g & Hg & Hgx).
        exists (addTo d e g). split; [now apply in_map|].
        unfold addTo. now destruct (String.eqb _ _).
      * apply in_map_iff in Hin as (g & Hgd & Hg).
        exists (addTo d e g). split; [now apply in_map|].
        unfold addTo. rewrite Hgd, String.eqb_refl. cbn.
        now apply hasDate_true.
  - rewrite (pushEntry_new _ _ _ Hnew). repeat split.
    + rewrite map_app. cbn.
      apply NoDup_app; [assumption | repeat constructor; intros [] | ].
      intros x Hx [<-|[]]. contradiction.
    + apply Forall_app. split.
      * rewrite Forall_forall in *. intros [k es] Hg.
        destruct (Hall _ Hg) as [Hne Hes]. cbn in Hne, Hes. cbn [fst snd].
        split; [assumption|].
        rewrite filter_app. cbn [filter].
        rewrite (hasDate_of tz e d) by assumption.
        destruct (String.eqb_spec d k) as [->|_].
        -- exfalso. apply Hnew. apply in_map_iff. now exists (k, es).
        -- now rewrite app_nil_r.
      * repeat constructor; cbn [fst snd]; [discriminate|].
        rewrite filter_app. cbn [filter].
        rewrite (hasDate_of tz e d) by assumption. rewrite String.eqb_refl.
        replace (filter (hasDate tz d) processed) with (@nil Entry);
          [reflexivity|].
        symmetry. destruct (filter (hasDate tz d) processed) as [|x l] eqn:E;
          [reflexivity|].
        assert (Hx : In x (filter (hasDate tz d) processed))
          by (rewrite E; now left).
        apply filter_In in Hx as [Hx Hxd].
        destruct (Hcover x Hx) as (g & Hg & Hgx).
        apply hasDate_true in Hxd, Hgx. exfalso. apply Hnew.
        apply in_map_iff. exists g. split; [congruence | assumption].
    + intros x Hx. apply in_app_or in Hx as [Hx|[<-|[]]].
      * destruct (Hcover x Hx) as (g & Hg & Hgx).
        exists g. split; [apply in_or_app; now left | assumption].
      * exists (d, [e]). split; [apply in_or_app; right; now left|].
        now apply hasDate_true.
Qed.

Lemma groupByDate_ok (tz : Z -> Z) (entries processed : list Entry)
    (groups groups' : DailyGroups) :
  groupsOk tz processed groups ->
  groupByDate tz entries groups = Ok groups' ->
  groupsOk tz (processed ++ entries) groups'
  /\ groupSize groups' = groupSize groups + Z.of_nat (List.length entries).
Proof.
  revert processed groups.
  induction entries as [|e entries IH]; intros processed groups Hok H.
  - cbn in H. injection H as <-. rewrite app_nil_r.
    split; [assumption|]. cbn. lia.
  - cbn [groupByDate] in H.
    destruct (formatDate tz (timestamp e)) as [d|err] eqn:Hd; [|discriminate].
    cbn [bind] in H.
    apply (IH (processed ++ [e])%list) in H as [H1 H2].
    + rewrite <- app_assoc in H1. split; [exact H1|].
      rewrite H2, pushEntry_size. cbn [List.length]. lia.
    + now apply pushEntry_ok.
Qed.

Lemma groupsOk_nil (tz : Z -> Z) : groupsOk tz [] [].
Proof. repeat split; [constructor | constructor | intros e []]. Qed.

(** The groups of a successful run. *)
Lemma groups_of_run (tz : Z -> Z) (entries : list Entry) (groups : DailyGroups) :
  groupByDate tz entries [] = Ok groups ->
  groupsOk tz entries groups
  /\ groupSize groups = Z.of_nat (List.length entries).
Proof.
  intros H. apply (groupByDate_ok tz entries []) in H; [|apply groupsOk_nil].
  exact H.
Qed.

Lemma groupsOk_nonempty (tz : Z -> Z) (processed : list Entry) (groups : DailyGroups) :
  groupsOk tz processed groups -> Forall (fun group => snd group <> []) groups.
Proof.
  intros (_ & Hall & _). eapply Forall_impl; [|exact Hall].
  intros g [Hne _]. exact Hne.
Qed.

Lemma summaries_of_groups (tz : Z -> Z) (groups : DailyGroups) :
  Forall (fun group => snd group <> []) groups ->
  map date (summaries tz groups) = map fst groups
  /\ totalMessageCount (summaries tz groups) = groupSize groups.
Proof.
  unfold summaries, totalMessageCount, groupSize.
  induction 1 as [|[k es] groups Hne _ [IH1 IH2]]; [split; reflexivity|].
  cbn in Hne. destruct es as [|e0 es]; [contradiction|].
  cbn [flat_map summarize app map date messageCount fold_right fst snd].
  rewrite IH1, IH2, sort_length. split; reflexivity.
Qed.

Lemma group_of_summary (tz : Z -> Z) (groups : DailyGroups) (c : DailyConversation) :
  In c (summaries tz groups) ->
  exists group, In group groups
                /\ date c = fst group
                /\ messageCount c = Z.of_nat (List.length (snd group)).
Proof.
  unfold summaries. intros H. apply in_flat_map in H as ([k es] & Hg & Hc).
  exists (k, es). split; [assumption|].
  destruct es as [|e0 es]; [destruct Hc|]. cbn [summarize] in Hc.
  destruct Hc as [<-|[]]. cbn [date messageCount fst snd].
  now rewrite sort_length.
Qed.

Lemma summary_of_group (tz : Z -> Z) (groups : DailyGroups)
    (group : DailyDate * list Entry) :
  In group groups -> snd group <> [] ->
  exists c, In c (summaries tz groups) /\ date c = fst group.
Proof.
  intros Hg Hne. destruct group as [k es]. cbn in Hne.
  destruct es as [|e0 es]; [contradiction|].
  eexists. split.
  - unfold summaries. apply in_flat_map. exists (k, e0 :: es).
    split; [exact Hg|]. cbn. left. reflexivity.
  - reflexivity.
Qed.

Lemma totalMessageCount_perm (l l' : list DailyConversation) :
  Permutation l l' -> totalMessageCount l = totalMessageCount l'.
Proof.
  unfold totalMessageCount. induction 1; cbn; lia.
Qed.

Lemma byDateDescending_total (a b : DailyConversation) :
  0 < byDateDescending a b -> byDateDescending b a <= 0.
Proof.
  unfold byDateDescending, Js.localeCompare.
  rewrite (String.compare_antisym (date b) (date a)).
  destruct (String.compare (date a) (date b)); cbn; lia.
Qed.

Lemma sorted_distinct_dates (l : list DailyConversation) :
  NoDup (map date l) -> Sorted (cmpLe byDateDescending) l ->
  StronglySorted laterDateFirst l.
Proof.
  intros Hnd Hs. apply Sorted_StronglySorted.
  - intros a b c. unfold laterDateFirst, Js.lt, String.ltb.
    destruct (String.compare (date b) (date a)) eqn:E1; try discriminate.
    destruct (String.compare (date c) (date b)) eqn:E2; try discriminate.
    now rewrite (compare_lt_trans _ _ _ E2 E1).
  - induction Hs as [|a l Hs IH Hhd]; [constructor|].
    cbn in Hnd. inversion Hnd as [|? ? Hnotin Hnd']; subst.
    constructor; [now apply IH|].
    destruct Hhd as [|b l' Hab]; constructor.
    unfold cmpLe, byDateDescending, Js.localeCompare in Hab.
    unfold laterDateFirst, Js.lt, String.ltb.
    destruct (String.compare (date b) (date a)) eqn:E; [|reflexivity|cbn in Hab; lia].
    apply String.compare_eq_iff in E. exfalso. apply Hnotin. cbn. now left.
Qed.

(** What [loadDailyConversationData] returns, step by step. *)
Lemma load_ok_inv (tz : Z -> Z) (options : LoadOptions) (entries : list Entry)
    (r : LoadResult) :
  loadDailyConversationData tz options entries = Ok r ->
  exists groups,
    filterByRange tz options entries = Ok (allEntries r)
    /\ groupByDate tz (allEntries r) [] = Ok groups
    /\ conversations r = Js.sort byDateDescending (summaries tz groups).
Proof.
  unfold loadDailyConversationData. intros H.
  destruct (filterByRange tz options entries) as [filtered|] eqn:Hf; [|discriminate].
  cbn [bind] in H.
  destruct (groupByDate tz filtered []) as [groups|] eqn:Hg; [|discriminate].
  cbn [bind] in H. injection H as <-. cbn [allEntries conversations].
  exists groups. auto.
Qed.

Lemma formatDate_ok_matches (tz : Z -> Z) (t : Z) (s : DailyDate) :
  formatDate tz t = Ok s -> matchesDailyDate s = true.
Proof.
  unfold formatDate, createDailyDate.
  destruct (matchesDailyDate _) eqn:E; [|discriminate].
  intros H. injection H as <-. exact E.
Qed.

Lemma daily_date_compare (s1 s2 : string) :
  matchesDailyDate s1 = true -> matchesDailyDate s2 = true ->
  String.compare s1 s2 = civilCompare (parseDailyDate s1) (parseDailyDate s2).
Proof.
  intros H1 H2.
  apply daily_date_shape in H1 as (Y1 & M1 & D1 & -> & NY1 & NM1 & ND1).
  apply daily_date_shape in H2 as (Y2 & M2 & D2 & -> & NY2 & NM2 & ND2).
  rewrite (compare_numerals_hyphens _ _ _ _ _ _ _ _ _ _ _ _ NY1 NM1 ND1 NY2 NM2 ND2).
  destruct (daily_date_of_numerals _ _ _ _ _ _ NY1 NM1 ND1) as (_ & -> & _).
  destruct (daily_date_of_numerals _ _ _ _ _ _ NY2 NM2 ND2) as (_ & -> & _).
  reflexivity.
Qed.

(** * When [formatDate] throws *)

Lemma append_assoc (a b c : string) : ((a ++ b) ++ c = a ++ (b ++ c))%string.
Proof. induction a as [|x a IH]; cbn; [reflexivity | now rewrite IH]. Qed.

Lemma append_length (a b : string) :
  String.length (a ++ b) = (String.length a + String.length b)%nat.
Proof. induction a as [|x a IH]; cbn; [reflexivity | now rewrite IH]. Qed.

Lemma allDigits_app (a b : string) :
  allDigits a = true -> allDigits b = true -> allDigits (a ++ b) = true.
Proof.
  induction a as [|x a IH]; cbn; [auto|]. intros H Hb. split_andb.
  rewrite H. cbn. auto.
Qed.

Lemma digitChar_isDigit (n : Z) : 0 <= n -> isDigit (Js.digitChar (n mod 10)) = true.
Proof.
  intros Hn.
  apply (checkRange_spec (fun d => isDigit (Js.digitChar d)) 10 0);
    [reflexivity|].
  pose proof (Z.mod_pos_bound n 10). lia.
Qed.

Lemma digitsOf_acc (fuel : nat) (n : Z) (acc : string) :
  Js.digitsOf fuel n acc = (Js.digitsOf fuel n "" ++ acc)%string.
Proof.
  revert n acc. induction fuel as [|fuel IH]; intros n acc; cbn; [reflexivity|].
  destruct (n <? 10); [reflexivity|].
  rewrite (IH _ (String _ acc)), (IH _ (String _ "")), append_assoc.
  reflexivity.
Qed.

Lemma digitsOf_allDigits (fuel : nat) (n : Z) :
  0 <= n -> allDigits (Js.digitsOf fuel n "") = true.
Proof.
  revert n. induction fuel as [|fuel IH]; intros n Hn; cbn; [reflexivity|].
  destruct (n <? 10); cbn.
  - now rewrite digitChar_isDigit.
  - rewrite digitsOf_acc. apply allDigits_app.
    + apply IH. apply Z.div_pos; lia.
    + cbn. now rewrite digitChar_isDigit.
Qed.

Lemma digitsOf_nonempty (fuel : nat) (n : Z) :
  (1 <= String.length (Js.digitsOf (S fuel) n ""))%nat.
Proof.
  cbn. destruct (n <? 10); cbn; [lia|].
  rewrite digitsOf_acc, append_length. cbn. lia.
Qed.

Lemma decimalValue_app (a b : string) :
  decimalValue (a ++ b)
  = decimalValue a * 10 ^ Z.of_nat (String.length b) + decimalValue b.
Proof.
  induction a as [|c a IH]; cbn [append decimalValue String.length]; [lia|].
  rewrite IH, append_length, Nat2Z.inj_add, Z.pow_add_r by lia. ring.
Qed.

Lemma digitValue_digitChar (d : Z) : 0 <= d <= 9 -> digitValue (Js.digitChar d) = d.
Proof.
  intros H. apply Z.eqb_eq.
  apply (checkRange_spec (fun d => digitValue (Js.digitChar d) =? d) 10 0);
    [reflexivity | lia].
Qed.

Lemma digitsOf_value (fuel : nat) (n : Z) :
  0 <= n < 10 ^ Z.of_nat fuel -> decimalValue (Js.digitsOf fuel n "") = n.
Proof.
  revert n. induction fuel as [|fuel IH]; intros n Hn.
  - cbn in *. lia.
  - rewrite Nat2Z.inj_succ, Z.pow_succ_r in Hn by lia.
    cbn [Js.digitsOf]. destruct (Z.ltb_spec n 10) as [Hlt|Hge].
    + cbn [decimalValue String.length]. rewrite Z.mod_small by lia.
      rewrite digitValue_digitChar by lia. cbn. lia.
    + rewrite digitsOf_acc, decimalValue_app.
      rewrite IH by (Z.to_euclidean_division_equations; lia).
      cbn [decimalValue String.length].
      pose proof (Z.mod_pos_bound n 10).
      rewrite digitValue_digitChar by lia.
      cbn. Z.to_euclidean_division_equations; lia.
Qed.

(** [String(n)] is the decimal numeral of a non-negative [n]. *)
Lemma numberToString_decimal (n : Z) :
  0 <= n ->
  allDigits (Js.numberToString n) = true
  /\ decimalValue (Js.numberToString n) = n.
Proof.
  intros Hn. unfold Js.numberToString.
  assert (Hneg : (n <? 0) = false) by (apply Z.ltb_ge; lia). rewrite Hneg.
  split; [now apply digitsOf_allDigits|].
  apply digitsOf_value. split; [assumption|].
  rewrite Nat2Z.inj_succ, Z2Nat.id by apply Z.log2_nonneg.
  destruct (Z.eq_dec n 0) as [->|Hnz]; [cbn; lia|].
  destruct (Z.log2_spec n) as [_ Hlt]; [lia|].
  eapply Z.lt_le_trans; [exact Hlt|].
  apply Z.pow_le_mono_l. pose proof (Z.log2_nonneg n). lia.
Qed.

(** Negative numbers are written with a sign. *)
Lemma numberToString_negative (n : Z) :
  n < 0 -> exists rest, Js.numberToString n = String "-" rest.
Proof.
  intros H. unfold Js.numberToString. apply Z.ltb_lt in H. rewrite H.
  eexists. reflexivity.
Qed.

(** Numbers below 1000 are written on at most three digits. *)
Lemma numberToString_short (n : Z) :
  0 <= n < 1000 -> (String.length (Js.numberToString n) <=? 3)%nat = true.
Proof.
  intros H.
  apply (checkRange_spec
           (fun n => (String.length (Js.numberToString n) <=? 3)%nat)
           (Z.to_nat 1000) 0);
    [vm_compute; reflexivity | rewrite Z2Nat.id; lia].
Qed.

(** Numbers from 10000 on are written on at least five digits. *)
Lemma numberToString_long (n : Z) :
  10000 <= n ->
  exists c1 c2 c3 c4 c5 rest,
    Js.numberToString n
    = String c1 (String c2 (String c3 (String c4 (String c5 rest))))
    /\ isDigit c5 = true.
Proof.
  intros H. unfold Js.numberToString.
  assert (Hneg : (n <? 0) = false) by (apply Z.ltb_ge; lia). rewrite Hneg.
  assert (Hall : allDigits (Js.digitsOf (S (Z.to_nat (Z.log2 n))) n "") = true)
    by (apply digitsOf_allDigits; lia).
  assert (Hlen : (5 <= String.length (Js.digitsOf (S (Z.to_nat (Z.log2 n))) n ""))%nat).
  { assert (Hlog : 13 <= Z.log2 n).
    { change 13 with (Z.log2 10000). now apply Z.log2_le_mono. }
    destruct (Z.to_nat (Z.log2 n)) as [|[|[|[|k]]]] eqn:E; try lia.
    assert (H1 : (n <? 10) = false) by (apply Z.ltb_ge; lia).
    assert (H2 : (n / 10 <? 10) = false)
      by (apply Z.ltb_ge; Z.to_euclidean_division_equations; lia).
    assert (H3 : (n / 10 / 10 <? 10) = false)
      by (apply Z.ltb_ge; Z.to_euclidean_division_equations; lia).
    assert (H4 : (n / 10 / 10 / 10 <? 10) = false)
      by (apply Z.ltb_ge; Z.to_euclidean_division_equations; lia).
    cbn [Js.digitsOf]. rewrite H1, H2, H3, H4.
    destruct (n / 10 / 10 / 10 / 10 <? 10); [cbn [String.length]; lia|].
    rewrite digitsOf_acc, append_length. cbn [String.length]. lia. }
  destruct (Js.digitsOf _ n "") as [|c1 [|c2 [|c3 [|c4 [|c5 rest]]]]];
    cbn in Hlen; try lia.
  cbn [allDigits] in Hall. split_andb.
  exists c1, c2, c3, c4, c5, rest. split; [reflexivity | assumption].
Qed.

Section FormatDateDomain.
Variable tz : Z -> Z.

(** [formatDate] returns exactly when the local year has four digits. *)
Lemma formatDate_ok_year (t : Z) (s : DailyDate) :
  formatDate tz t = Ok s -> 1000 <= JsDate.getFullYear tz t <= 9999.
Proof.
  intros H. pose proof (formatDate_ok_matches _ _ _ H) as Hm.
  unfold formatDate, createDailyDate in H.
  destruct (matchesDailyDate _); [|discriminate]. injection H as H.
  apply daily_date_shape in Hm as (Y & M & D & Hs & NY & _).
  rewrite <- H in Hs. clear H s.
  apply numeralOk_parts in NY as (LY & AY & _).
  destruct Y as [|a [|b [|c [|d [|? ?]]]]]; try discriminate.
  cbn [allDigits] in AY. split_andb.
  cbn [append] in Hs.
  set (y := JsDate.getFullYear tz t) in *.
  destruct (Z.lt_ge_cases y 0) as [Hneg|Hpos].
  { destruct (numberToString_negative y Hneg) as (rest & E).
    rewrite E in Hs. cbn [append] in Hs. injection Hs as Hs _. subst a.
    discriminate. }
  destruct (Z.lt_ge_cases y 1000) as [Hsmall|Hbig].
  { pose proof (numberToString_short y (conj Hpos Hsmall)) as Hlen.
    destruct (Js.numberToString y) as [|p1 [|p2 [|p3 [|? ?]]]];
      try discriminate Hlen; cbn [append] in Hs.
    - injection Hs as Hs _. subst a. discriminate.
    - injection Hs as _ Hs _. subst b. discriminate.
    - injection Hs as _ _ Hs _. subst c. discriminate.
    - injection Hs as _ _ _ Hs _. subst d. discriminate. }
  destruct (Z.lt_ge_cases y 10000) as [Hok|Hlong]; [lia|].
  destruct (numberToString_long y Hlong)
    as (c1 & c2 & c3 & c4 & c5 & rest & E & Hc5).
  rewrite E in Hs. cbn [append] in Hs. injection Hs as _ _ _ _ Hs _.
  subst c5. discriminate.
Qed.

Lemma formatDate_ok_iff (t : Z) :
  (exists s, formatDate tz t = Ok s) <-> 1000 <= JsDate.getFullYear tz t <= 9999.
Proof.
  split.
  - intros [s H]. eapply formatDate_ok_year; exact H.
  - intros H. destruct (formatDate_four_digit_year tz t H) as (s & Hs & _).
    now exists s.
Qed.

(** The string [formatDate] returns denotes the local calendar date. *)
Lemma formatDate_ok_parse (t : Z) (s : DailyDate) :
  formatDate tz t = Ok s -> parseDailyDate s = JsDate.localCivil tz t.
Proof.
  intros H. pose proof (formatDate_ok_year t s H) as Hy.
  destruct (formatDate_four_digit_year tz t Hy) as (s' & Hs' & _ & Hp).
  congruence.
Qed.

Lemma keepEntry_total (options : LoadOptions) (entry : Entry) :
  fourDigitYear tz entry -> exists kept, keepEntry tz options entry = Ok kept.
Proof.
  intros H. apply formatDate_ok_iff in H as [s Hs].
  unfold keepEntry. rewrite Hs. cbn [bind].
  destruct (_ && _); [eexists; reflexivity|].
  destruct (_ && _); eexists; reflexivity.
Qed.

Lemma filterEntries_total (options : LoadOptions) (entries : list Entry) :
  Forall (fourDigitYear tz) entries ->
  exists kept, filterEntries (keepEntry tz options) entries = Ok kept
               /\ incl kept entries.
Proof.
  induction 1 as [|e entries He _ (kept & IH & Hincl)].
  - exists []. split; [reflexivity | apply incl_refl].
  - destruct (keepEntry_total options e He) as [b Hb].
    cbn [filterEntries]. rewrite Hb, IH. cbn [bind].
    eexists. split; [reflexivity|].
    destruct b.
    + intros x [->|Hx]; [now left | right; now apply Hincl].
    + intros x Hx. right. now apply Hincl.
Qed.

Lemma groupByDate_total (entries : list Entry) (groups : DailyGroups) :
  Forall (fourDigitYear tz) entries ->
  exists groups', groupByDate tz entries groups = Ok groups'.
Proof.
  intros H. revert groups.
  induction H as [|e entries He _ IH]; intros groups.
  - eexists. reflexivity.
  - apply formatDate_ok_iff in He as [s Hs].
    cbn [groupByDate]. rewrite Hs. cbn [bind]. apply IH.
Qed.

(** The aggregation returns on entries whose local years have four digits. *)
Lemma load_total (options : LoadOptions) (entries : list Entry) :
  Forall (fourDigitYear tz) entries ->
  exists r, loadDailyConversationData tz options entries = Ok r.
Proof.
  intros H. unfold loadDailyConversationData.
  assert (Hf : exists filtered,
             filterByRange tz options entries = Ok filtered
             /\ incl filtered entries).
  { unfold filterByRange. destruct (_ && _).
    - exists entries. split; [reflexivity | apply incl_refl].
    - now apply filterEntries_total. }
  destruct Hf as (filtered & Hf & Hincl). rewrite Hf. cbn [bind].
  destruct (groupByDate_total filtered []) as [groups Hg].
  - rewrite Forall_forall in *. auto.
  - rewrite Hg. cbn [bind]. eexists. reflexivity.
Qed.

Lemma load_empty (options : LoadOptions) :
  loadDailyConversationData tz options [] = Ok (mkLoadResult [] []).
Proof.
  unfold loadDailyConversationData, filterByRange.
  destruct (_ && _); reflexivity.
Qed.

(** An entry whose local year has not four digits makes it throw. *)
Lemma load_throws (options : LoadOptions) (entries : list Entry) (r : LoadResult) :
  loadDailyConversationData tz options entries = Ok r ->
  Forall (fourDigitYear tz) entries.
Proof.
  intros H. apply load_ok_inv in H as (groups & Hf & Hg & _).
  assert (Hgroup : forall l g g', groupByDate tz l g = Ok g' ->
                                  Forall (fourDigitYear tz) l).
  { induction l as [|e l IH]; intros g g' Hl; [constructor|].
    cbn [groupByDate] in Hl.
    destruct (formatDate tz (timestamp e)) as [d|] eqn:E; [|discriminate].
    cbn [bind] in Hl. constructor; [|eapply IH; exact Hl].
    eapply formatDate_ok_year; exact E. }
  assert (Hfilter : forall l kept,
             filterEntries (keepEntry tz options) l = Ok kept ->
             Forall (fourDigitYear tz) l).
  { induction l as [|e l IH]; intros kept Hl; [constructor|].
    cbn [filterEntries] in Hl. unfold keepEntry at 1 in Hl.
    destruct (formatDate tz (timestamp e)) as [d|] eqn:E; [|discriminate].
    destruct (filterEntries (keepEntry tz options) l) as [rest|] eqn:El.
    - constructor; [eapply formatDate_ok_year; exact E | eapply IH; reflexivity].
    - cbn [bind] in Hl.
      destruct (_ && _); [discriminate|]. destruct (_ && _); discriminate. }
  unfold filterByRange in Hf. destruct (_ && _).
  - injection Hf as Hf. rewrite <- Hf in Hg. eapply Hgroup; exact Hg.
  - eapply Hfilter; exact Hf.
Qed.
End FormatDateDomain.

(** * The claims *)

(** C1. For consecutive events [prev], [next] of the sorted input, the end of
    the current session is the timestamp of [prev]; when [next] comes at most
    180000 ms after it (bound included) the current session is extended to
    [next] and no session is closed, so that the open session runs on into the
    sessions of the rest; when it comes later the current session is closed at
    [prev] and a new one starts and ends at [next], so that the sessions are
    those of the entries up to [prev] followed by those from [next] on. *)
Theorem consecutive_events_gap_rule (first : Entry) (before : list Entry)
    (next : Entry) (after : list Entry) :
  let prev := last (first :: before) first in
  let st := runLoop SESSION_GAP_MS first before in
  let st' := runLoop SESSION_GAP_MS first (before ++ [next]) in
  currentSessionEnd st = timestamp prev
  /\ if timestamp next - timestamp prev <=? 180000
     then st' = mkLoopState (currentSessionStart st) (timestamp next) (sessions st)
          /\ segment SESSION_GAP_MS (first :: before ++ next :: after)
             = (sessions st
                ++ withStart (currentSessionStart st)
                     (segment SESSION_GAP_MS (next :: after)))%list
     else st' = mkLoopState (timestamp next) (timestamp next)
                  (sessions st
                   ++ [mkSession (currentSessionStart st) (timestamp prev)])%list
          /\ segment SESSION_GAP_MS (first :: before ++ next :: after)
             = (segment SESSION_GAP_MS (first :: before)
                ++ segment SESSION_GAP_MS (next :: after))%list.
Proof. exact (gap_rule SESSION_GAP_MS first before next after). Qed.

Example three_minutes_apart_one_session :
  segment SESSION_GAP_MS [entryAt 0; entryAt 180000] = [mkSession 0 180000].
Proof. reflexivity. Qed.

Example three_minutes_one_second_apart_two_sessions :
  segment SESSION_GAP_MS [entryAt 0; entryAt 181000]
  = [mkSession 0 0; mkSession 181000 181000].
Proof. reflexivity. Qed.

(** C2. For a non-empty group the returned duration is the rendering of the
    sum, over the sessions of the sorted group, of
    max(1, floor((end - start) / one minute)); a group of one event gives
    "1m". *)
Theorem total_duration_is_sum_over_sessions (entries : list Entry) :
  entries <> [] ->
  calculateConversationTime entries
  = renderMinutes
      (specTotalMinutes (segment SESSION_GAP_MS (Js.sort byTimestamp entries)))
  /\ (List.length entries = 1%nat -> calculateConversationTime entries = "1m").
Proof.
  intros Hne. destruct entries as [|a [|b l]]; [contradiction| |].
  - split; [|reflexivity].
    cbn. unfold specTotalMinutes, specSessionMinutes. cbn.
    now rewrite Z.sub_diag.
  - split; [|discriminate].
    unfold calculateConversationTime. now rewrite totalMinutesOf_spec.
Qed.

Lemma total_duration_is_sum_over_sessions_witness :
  calculateConversationTime [entryAt 0; entryAt 60000; entryAt 600000]
  = renderMinutes
      (specTotalMinutes
         (segment SESSION_GAP_MS
            (Js.sort byTimestamp [entryAt 0; entryAt 60000; entryAt 600000]))).
Proof.
  refine (proj1 (total_duration_is_sum_over_sessions
                   [entryAt 0; entryAt 60000; entryAt 600000] _)).
  discriminate.
Defined.

Example single_event_one_minute (e : Entry) : calculateConversationTime [e] = "1m".
Proof. reflexivity. Qed.

(** C3 as stated fails: events at 09:00 and 09:05 of the same day are more than
    three minutes apart, so they are not one session and the duration is not
    "5m". *)
Lemma five_minute_gap_not_one_session :
  formatDate utc 1733648400000 = Ok "2024-12-08"
  /\ formatDate utc 1733648700000 = Ok "2024-12-08"
  /\ formatTime utc 1733648400000 = "09:00"
  /\ formatTime utc 1733648700000 = "09:05"
  /\ ~ (List.length
          (segment SESSION_GAP_MS
             (Js.sort byTimestamp [entryAt 1733648400000; entryAt 1733648700000]))
        = 1%nat
        /\ calculateConversationTime [entryAt 1733648400000; entryAt 1733648700000]
           = "5m").
Proof.
  repeat split; try reflexivity.
  intros [H _]. vm_compute in H. discriminate.
Qed.

(** C3, amended. Two events five minutes apart are two sessions, each a single
    point counted as one minute, and the duration is rendered "2m", in
    whichever order the two events are given. *)
Theorem five_minute_gap_two_sessions (t : Z) (s1 f1 s2 f2 : string) :
  let a := mkEntry t s1 f1 in
  let b := mkEntry (t + 5 * 60 * 1000) s2 f2 in
  segment SESSION_GAP_MS (Js.sort byTimestamp [a; b])
  = [mkSession t t; mkSession (t + 300000) (t + 300000)]
  /\ segment SESSION_GAP_MS (Js.sort byTimestamp [b; a])
     = [mkSession t t; mkSession (t + 300000) (t + 300000)]
  /\ calculateConversationTime [a; b] = "2m"
  /\ calculateConversationTime [b; a] = "2m".
Proof.
  intros a b.
  assert (Hab : Js.sort byTimestamp [a; b] = [a; b]).
  { cbn. unfold byTimestamp. cbn.
    replace (t - (t + 300000) <=? 0) with true; [reflexivity|].
    symmetry. apply Z.leb_le. lia. }
  assert (Hba : Js.sort byTimestamp [b; a] = [a; b]).
  { cbn. unfold byTimestamp. cbn.
    replace (t + 300000 - t <=? 0) with false; [reflexivity|].
    symmetry. apply Z.leb_gt. lia. }
  assert (Hseg : segment SESSION_GAP_MS [a; b]
                 = [mkSession t t; mkSession (t + 300000) (t + 300000)]).
  { unfold segment, runLoop, initialState. cbn [fold_left].
    rewrite loopStep_eq. subst a b. cbn [timestamp].
    replace (t + 5 * 60 * 1000 - t <=? SESSION_GAP_MS) with false; [reflexivity|].
    symmetry. apply Z.leb_gt. unfold SESSION_GAP_MS. lia. }
  unfold calculateConversationTime. rewrite Hab, Hba, Hseg.
  repeat split.
  all: unfold totalMinutesOf, sessionMinutes; cbn [fold_left session_end session_start].
  all: rewrite !Z.sub_diag; reflexivity.
Qed.

(** C4. Whenever the aggregation returns, the message counts of the daily
    summaries add up to the number of entries that passed the date filter, which
    are the entries returned as [allEntries]: the summaries have distinct
    dates, each counts the filtered entries that fall on its date, and every
    filtered entry falls on the date of a summary. *)
Theorem message_counts_sum_to_filtered_size (tz : Z -> Z) (options : LoadOptions)
    (entries : list Entry) (r : LoadResult) :
  loadDailyConversationData tz options entries = Ok r ->
  filterByRange tz options entries = Ok (allEntries r)
  /\ totalMessageCount (conversations r) = Z.of_nat (List.length (allEntries r))
  /\ NoDup (map date (conversations r))
  /\ Forall (fun c =>
               messageCount c
               = Z.of_nat (List.length (filter (hasDate tz (date c)) (allEntries r))))
       (conversations r)
  /\ (forall entry, In entry (allEntries r) ->
        exists c, In c (conversations r) /\ hasDate tz (date c) entry = true).
Proof.
  intros H. apply load_ok_inv in H as (groups & Hf & Hg & Hc).
  split; [exact Hf|].
  apply groups_of_run in Hg as [Hok Hsize].
  pose proof (groupsOk_nonempty _ _ _ Hok) as Hne.
  destruct Hok as (Hnd & Hall & Hcover).
  destruct (summaries_of_groups tz groups Hne) as [Hdates Hsum].
  pose proof (sort_perm byDateDescending (summaries tz groups)) as HP.
  rewrite <- Hc in HP.
  split; [|split; [|split]].
  - rewrite (totalMessageCount_perm _ _ HP), Hsum, Hsize. reflexivity.
  - eapply Permutation_NoDup; [apply Permutation_map, Permutation_sym, HP|].
    now rewrite Hdates.
  - apply Forall_forall. intros c Hin.
    apply (Permutation_in _ HP) in Hin.
    apply group_of_summary in Hin as (g & Hgin & Hd & Hm).
    rewrite Forall_forall in Hall. destruct (Hall g Hgin) as [_ Hes].
    now rewrite Hm, Hd, <- Hes.
  - intros entry Hin. destruct (Hcover entry Hin) as (g & Hgin & Hge).
    rewrite Forall_forall in Hne.
    destruct (summary_of_group tz groups g Hgin (Hne g Hgin)) as (c & Hcin & Hd).
    exists c. split.
    + eapply Permutation_in; [apply Permutation_sym, HP | exact Hcin].
    + now rewrite Hd.
Qed.

Lemma message_counts_sum_to_filtered_size_witness :
  totalMessageCount (conversations sampleFiltered)
  = Z.of_nat (List.length (allEntries sampleFiltered)).
Proof.
  refine (proj1 (proj2 (message_counts_sum_to_filtered_size utc sampleOptions
                          sampleEntries sampleFiltered _))).
  vm_compute. reflexivity.
Defined.

Example sample_counts :
  map (fun c => (date c, messageCount c)) (conversations sampleResult)
  = [("2024-12-25", 1); ("2024-12-20", 1); ("2024-12-15", 1); ("2024-12-01", 1)]
  /\ map (fun c => (date c, messageCount c)) (conversations sampleFiltered)
     = [("2024-12-20", 1); ("2024-12-15", 1)].
Proof. split; reflexivity. Qed.

(** C5. With bounds in [YYYYMMDD] form and entries whose local year has four
    digits, the filter keeps exactly the entries whose local calendar date [d]
    satisfies [since <= d <= until], a missing bound being no constraint; in
    particular an entry dated on [until] is kept unless [since] is later than
    [until]. *)
Theorem date_range_filter_inclusive (tz : Z -> Z) (options : LoadOptions)
    (entries : list Entry) :
  wellFormedBound (since options) -> wellFormedBound (until options) ->
  Forall (fourDigitYear tz) entries ->
  filterByRange tz options entries
  = Ok (filter (fun entry => inRange (since options) (until options)
                               (JsDate.localCivil tz (timestamp entry)))
          entries)
  /\ (forall entry, In entry entries ->
        keepEntry tz options entry
        = Ok (inRange (since options) (until options)
                (JsDate.localCivil tz (timestamp entry))))
  /\ (forall entry u, In entry entries ->
        until options = Some u ->
        JsDate.localCivil tz (timestamp entry) = parseYYYYMMDD u ->
        keepEntry tz options entry
        = Ok match since options with
             | Some s => civilLeb (parseYYYYMMDD s) (parseYYYYMMDD u)
             | None => true
             end).
Proof.
  intros Hs Hu Hy. split; [now apply filterByRange_spec|].
  assert (Hkeep : forall entry, In entry entries ->
            keepEntry tz options entry
            = Ok (inRange (since options) (until options)
                    (JsDate.localCivil tz (timestamp entry)))).
  { intros entry Hin. apply keepEntry_spec; auto.
    rewrite Forall_forall in Hy. now apply Hy. }
  split; [exact Hkeep|].
  intros entry u Hin Hub Hdate. rewrite (Hkeep entry Hin), Hdate, Hub.
  unfold inRange, civilLeb at 2. rewrite civilCompare_refl.
  now rewrite andb_true_r.
Qed.

Lemma date_range_filter_inclusive_witness :
  filterByRange utc sampleOptions sampleEntries
  = Ok [ mkEntry 1734274800000 "session-001" "a.jsonl";
         mkEntry 1734737400000 "session-002" "b.jsonl" ].
Proof.
  refine (proj1 (date_range_filter_inclusive utc sampleOptions sampleEntries _ _ _)).
  - reflexivity.
  - reflexivity.
  - repeat constructor; vm_compute; discriminate.
Defined.

Example entry_on_until_date_is_kept :
  formatDate utc 1734737400000 = Ok "2024-12-20"
  /\ keepEntry utc sampleOptions (mkEntry 1734737400000 "session-002" "b.jsonl")
     = Ok true.
Proof. split; reflexivity. Qed.

(** C6, at the input on which the code departs from it: an entry stamped
    0999-01-01T12:00:00Z has the local date 999-01-01 in UTC, [formatDate]
    builds the string "999-01-01", which the schema of [DailyDate] rejects, and
    the aggregation throws. *)
Theorem three_digit_year_throws :
  JsDate.localCivil utc (-30641716800000) = (999, 1, 1)
  /\ formatDate utc (-30641716800000)
     = Throw (ZodError "Date must be in YYYY-MM-DD format")
  /\ loadDailyConversationData utc noOptions [entryAt (-30641716800000)]
     = Throw (ZodError "Date must be in YYYY-MM-DD format").
Proof. repeat split; reflexivity. Qed.

(** The part of C6 that holds: the empty input gives the empty result, and the
    aggregation returns exactly on the inputs whose local years all have four
    digits. *)
Lemma aggregation_returns_iff (tz : Z -> Z) (options : LoadOptions)
    (entries : list Entry) :
  loadDailyConversationData tz options [] = Ok (mkLoadResult [] [])
  /\ ((exists r, loadDailyConversationData tz options entries = Ok r)
      <-> Forall (fourDigitYear tz) entries).
Proof.
  split; [apply load_empty|]. split.
  - intros [r H]. eapply load_throws; exact H.
  - apply load_total.
Qed.

(** C7. Segmentation depends on the set of events only: two arrangements of
    the same events have the same sessions once sorted, and sorting the sorted
    sequence again changes neither the sequence nor its sessions. *)
Theorem segmentation_deterministic (gap : Z) (entries entries' : list Entry) :
  Permutation entries entries' ->
  segment gap (Js.sort byTimestamp entries)
  = segment gap (Js.sort byTimestamp entries')
  /\ Js.sort byTimestamp (Js.sort byTimestamp entries) = Js.sort byTimestamp entries
  /\ segment gap (Js.sort byTimestamp (Js.sort byTimestamp entries))
     = segment gap (Js.sort byTimestamp entries).
Proof.
  intros HP. split; [|split].
  - now apply segment_timestamps, sorted_timestamps_of_perm.
  - apply sort_idempotent, byTimestamp_total.
  - rewrite sort_idempotent; [reflexivity | apply byTimestamp_total].
Qed.

Lemma segmentation_deterministic_witness :
  segment SESSION_GAP_MS
    (Js.sort byTimestamp [entryAt 600000; entryAt 0; entryAt 60000])
  = segment SESSION_GAP_MS
      (Js.sort byTimestamp [entryAt 0; entryAt 600000; entryAt 60000]).
Proof.
  refine (proj1 (segmentation_deterministic SESSION_GAP_MS
                   [entryAt 600000; entryAt 0; entryAt 60000]
                   [entryAt 0; entryAt 600000; entryAt 60000] _)).
  apply perm_swap.
Defined.

(** C8. A non-negative total is rendered "{m}m" below 60 minutes, "{h}h" when
    it is a positive multiple of 60 and "{h}h {m}m" otherwise, where h is the
    quotient and m the remainder of the total by 60, each written as its
    decimal numeral. *)
Theorem render_minutes_cases (total : Z) :
  0 <= total ->
  let h := total / 60 in
  let m := total mod 60 in
  (total < 60 -> renderMinutes total = Js.numberToString m ++ "m")%string
  /\ (0 < total -> m = 0 -> renderMinutes total = Js.numberToString h ++ "h")%string
  /\ (60 <= total -> m <> 0 ->
      renderMinutes total
      = Js.numberToString h ++ "h " ++ Js.numberToString m ++ "m")%string
  /\ allDigits (Js.numberToString h) = true
  /\ decimalValue (Js.numberToString h) = h
  /\ allDigits (Js.numberToString m) = true
  /\ decimalValue (Js.numberToString m) = m.
Proof.
  intros Hpos h m.
  assert (Hh : 0 <= h) by (apply Z.div_pos; lia).
  assert (Hm : 0 <= m) by (apply Z.mod_pos_bound; lia).
  destruct (numberToString_decimal h Hh) as [Ah Vh].
  destruct (numberToString_decimal m Hm) as [Am Vm].
  unfold renderMinutes. fold h m.
  split; [|split; [|split; [|auto]]].
  - intros Hlt. subst m. rewrite Z.mod_small by lia.
    apply Z.ltb_lt in Hlt. now rewrite Hlt.
  - intros H0 Hm0.
    assert (60 <= total) as Hge.
    { subst m. destruct (Z.lt_ge_cases total 60) as [Hlt|]; [|assumption].
      rewrite Z.mod_small in Hm0 by lia. lia. }
    apply Z.ltb_ge in Hge. rewrite Hge, Hm0. reflexivity.
  - intros Hge Hm0. apply Z.ltb_ge in Hge. apply Z.eqb_neq in Hm0.
    now rewrite Hge, Hm0.
Qed.

Lemma render_minutes_cases_witness : renderMinutes 150 = "2h 30m".
Proof.
  refine (proj1 (proj2 (proj2 (render_minutes_cases 150 _))) _ _).
  - lia.
  - lia.
  - discriminate.
Defined.

Example render_45 : renderMinutes 45 = "45m".
Proof. reflexivity. Qed.

Example render_120 : renderMinutes 120 = "2h".
Proof. reflexivity. Qed.

Example render_150 : renderMinutes 150 = "2h 30m".
Proof. reflexivity. Qed.

(** C9. Whenever the aggregation returns, its summaries are in strictly
    descending order of their date strings; these strings all have the form
    YYYY-MM-DD, on which the order of strings is the order of the calendar dates
    they denote, and each denotes the local calendar date of the entries it
    summarizes, so the summaries are in descending chronological order. *)
Theorem summaries_sorted_by_date_descending (tz : Z -> Z) (options : LoadOptions)
    (entries : list Entry) (r : LoadResult) :
  loadDailyConversationData tz options entries = Ok r ->
  StronglySorted laterDateFirst (conversations r)
  /\ Forall (fun c => matchesDailyDate (date c) = true) (conversations r)
  /\ (forall s1 s2, matchesDailyDate s1 = true -> matchesDailyDate s2 = true ->
        String.compare s1 s2
        = civilCompare (parseDailyDate s1) (parseDailyDate s2))
  /\ Forall (fun c =>
               exists entry,
                 In entry (allEntries r)
                 /\ formatDate tz (timestamp entry) = Ok (date c)
                 /\ parseDailyDate (date c)
                    = JsDate.localCivil tz (timestamp entry))
       (conversations r)
  /\ StronglySorted laterDayFirst (conversations r).
Proof.
  intros H. apply load_ok_inv in H as (groups & Hf & Hg & Hc).
  apply groups_of_run in Hg as [Hok _].
  pose proof (groupsOk_nonempty _ _ _ Hok) as Hne.
  destruct Hok as (Hnd & Hall & _).
  destruct (summaries_of_groups tz groups Hne) as [Hdates _].
  pose proof (sort_perm byDateDescending (summaries tz groups)) as HP.
  rewrite <- Hc in HP.
  assert (Hsorted : StronglySorted laterDateFirst (conversations r)).
  { apply sorted_distinct_dates.
    - eapply Permutation_NoDup;
        [apply Permutation_map, Permutation_sym, HP|].
      now rewrite Hdates.
    - rewrite Hc. apply sort_sorted, byDateDescending_total. }
  assert (Hentry : Forall (fun c =>
                             exists entry,
                               In entry (allEntries r)
                               /\ formatDate tz (timestamp entry) = Ok (date c)
                               /\ parseDailyDate (date c)
                                  = JsDate.localCivil tz (timestamp entry))
                     (conversations r)).
  { apply Forall_forall. intros c Hin.
    apply (Permutation_in _ HP) in Hin.
    apply group_of_summary in Hin as ([k es] & Hg & Hd & _). cbn in Hd.
    rewrite Forall_forall in Hall. destruct (Hall _ Hg) as [Hes0 Hes].
    cbn in Hes0, Hes. destruct es as [|e es]; [contradiction|].
    assert (He : In e (filter (hasDate tz k) (allEntries r)))
      by (rewrite <- Hes; now left).
    apply filter_In in He as [He Hek]. apply hasDate_true in Hek.
    exists e. rewrite Hd. repeat split; try assumption.
    now apply formatDate_ok_parse. }
  assert (Hmatch : Forall (fun c => matchesDailyDate (date c) = true)
                     (conversations r)).
  { eapply Forall_impl; [|exact Hentry].
    intros c (e & _ & He & _). eapply formatDate_ok_matches; exact He. }
  repeat split; try assumption.
  - apply daily_date_compare.
  - clear -Hsorted Hmatch.
    induction Hsorted as [|a l Hs IH Ha]; constructor.
    + apply IH. now inversion Hmatch.
    + inversion Hmatch as [|? ? Hma Hml]; subst.
      rewrite Forall_forall in *. intros b Hb.
      unfold laterDayFirst. rewrite <- daily_date_compare by auto.
      specialize (Ha b Hb). unfold laterDateFirst, Js.lt, String.ltb in Ha.
      now destruct (String.compare (date b) (date a)).
Qed.

Lemma summaries_sorted_by_date_descending_witness :
  StronglySorted laterDateFirst (conversations sampleResult)
  /\ map date (conversations sampleResult)
     = ["2024-12-25"; "2024-12-20"; "2024-12-15"; "2024-12-01"].
Proof.
  split; [|reflexivity].
  refine (proj1 (summaries_sorted_by_date_descending utc noOptions sampleEntries
                   sampleResult _)).
  vm_compute. reflexivity.
Defined.

(** C10. On the empty sequence [calculateConversationTime] returns "0m". *)
Theorem empty_sequence_zero_minutes : calculateConversationTime [] = "0m".
Proof. reflexivity. Qed.

(** * Further properties of data-loader.ts *)

Lemma hours_minutes_range (tz : Z -> Z) (t : Z) :
  0 <= JsDate.getHours tz t <= 23 /\ 0 <= JsDate.getMinutes tz t <= 59.
Proof.
  unfold JsDate.getHours, JsDate.getMinutes, JsDate.msPerDay, JsDate.msPerHour,
    JsDate.msPerMinute.
  generalize (JsDate.localTime tz t). intros x.
  split; Z.to_euclidean_division_equations; lia.
Qed.

(** X1. [formatTime] always returns a string HH:MM of five characters, where
    HH is the local hour on two digits, from 00 to 23 and never 24, and MM the
    minute on two digits, from 00 to 59. *)
Theorem formatTime_shape (tz : Z -> Z) (t : Z) :
  exists H M,
    formatTime tz t = (H ++ ":" ++ M)%string
    /\ numeralOk 2 H (JsDate.getHours tz t) = true
    /\ numeralOk 2 M (JsDate.getMinutes tz t) = true
    /\ 0 <= JsDate.getHours tz t <= 23
    /\ 0 <= JsDate.getMinutes tz t <= 59
    /\ String.length (formatTime tz t) = 5%nat.
Proof.
  destruct (hours_minutes_range tz t) as [Hh Hm].
  pose proof (two_digit_numeral (JsDate.getHours tz t) ltac:(lia)) as NH.
  pose proof (two_digit_numeral (JsDate.getMinutes tz t) ltac:(lia)) as NM.
  do 2 eexists. split; [reflexivity|].
  repeat split; try assumption; try lia.
  unfold formatTime.
  apply numeralOk_parts in NH as (LH & _), NM as (LM & _).
  rewrite !append_length, LH, LM. reflexivity.
Qed.

Lemma calculateConversationTime_sorted (a b : Entry) (l : list Entry) :
  calculateConversationTime (a :: b :: l)
  = renderMinutes
      (specTotalMinutes
         (segment DataLoader.SESSION_GAP_MS (Js.sort byTimestamp (a :: b :: l)))).
Proof. unfold calculateConversationTime. now rewrite totalMinutesOf_spec. Qed.

Lemma calculateConversationTime_perm (l l' : list Entry) :
  Permutation l l' -> calculateConversationTime l = calculateConversationTime l'.
Proof.
  intros HP. pose proof (Permutation_length HP) as Hlen.
  destruct l as [|a [|b l]], l' as [|a' [|b' l']]; try discriminate Hlen;
    try reflexivity.
  rewrite !calculateConversationTime_sorted.
  do 2 f_equal. now apply segment_timestamps, sorted_timestamps_of_perm.
Qed.

(** X2. The duration [calculateConversationTime] returns does not depend on
    the order in which the entries are given. *)
Theorem conversation_time_order_independent (entries entries' : list Entry) :
  Permutation entries entries' ->
  calculateConversationTime entries = calculateConversationTime entries'.
Proof. apply calculateConversationTime_perm. Qed.

Lemma conversation_time_order_independent_witness :
  calculateConversationTime [entryAt 600000; entryAt 0; entryAt 60000]
  = calculateConversationTime [entryAt 0; entryAt 600000; entryAt 60000].
Proof.
  apply (conversation_time_order_independent
           [entryAt 600000; entryAt 0; entryAt 60000]
           [entryAt 0; entryAt 600000; entryAt 60000]).
  apply perm_swap.
Defined.

Lemma sumZ_app {A : Type} (f : A -> Z) (l1 l2 : list A) :
  sumZ f (l1 ++ l2) = sumZ f l1 + sumZ f l2.
Proof.
  unfold sumZ. induction l1 as [|x l1 IH]; cbn; [reflexivity|].
  cbn in IH. rewrite IH. lia.
Qed.

(** On a sorted input the sessions are intervals that follow one another
    between the first and the last timestamp. *)
Lemma loop_sorted_invariant (gap t0 : Z) (rest : list Entry) (st : LoopState) :
  Sorted Z.le (currentSessionEnd st :: map timestamp rest) ->
  currentSessionStart st <= currentSessionEnd st ->
  Forall (fun s => session_start s <= session_end s) (sessions st) ->
  coveredMs (sessions st) + (currentSessionEnd st - currentSessionStart st)
  <= currentSessionEnd st - t0 ->
  let st' := fold_left (loopStep gap) rest st in
  currentSessionStart st' <= currentSessionEnd st'
  /\ Forall (fun s => session_start s <= session_end s) (sessions st')
  /\ coveredMs (sessions st') + (currentSessionEnd st' - currentSessionStart st')
     <= currentSessionEnd st' - t0
  /\ (List.length (sessions st') <= List.length (sessions st) + List.length rest)%nat.
Proof.
  revert st. induction rest as [|e rest IH]; intros st Hs Hle Hall Hcov.
  - cbn. repeat split; auto. lia.
  - cbn [fold_left map] in *.
    apply Sorted_inv in Hs as [Hs Hhd]. apply HdRel_inv in Hhd.
    destruct st as [s c acc]. cbn [currentSessionStart currentSessionEnd sessions] in *.
    rewrite loopStep_eq.
    destruct (timestamp e - c <=? gap).
    + specialize (IH (mkLoopState s (timestamp e) acc)).
      cbn [currentSessionStart currentSessionEnd sessions] in IH.
      assert (I : s <= timestamp e) by lia.
      assert (J : coveredMs acc + (timestamp e - s) <= timestamp e - t0) by lia.
      specialize (IH Hs I Hall J). cbv zeta in IH.
      destruct IH as (I1 & I2 & I3 & I4).
      repeat split; auto. cbn [List.length]. lia.
    + specialize (IH (mkLoopState (timestamp e) (timestamp e)
                        (acc ++ [mkSession s c])%list)).
      cbn [currentSessionStart currentSessionEnd sessions] in IH.
      assert (K : Forall (fun x => session_start x <= session_end x)
                    (acc ++ [mkSession s c])).
      { apply Forall_app. split; [assumption|]. repeat constructor. assumption. }
      assert (J : coveredMs (acc ++ [mkSession s c])
                  + (timestamp e - timestamp e) <= timestamp e - t0).
      { unfold coveredMs in *. rewrite sumZ_app. unfold sumZ at 2. cbn. lia. }
      specialize (IH Hs (Z.le_refl _) K J). cbv zeta in IH.
      destruct IH as (I1 & I2 & I3 & I4).
      repeat split; auto. rewrite length_app in I4. cbn [List.length] in *. lia.
Qed.

Lemma total_minutes_bounds (ss : list Session) :
  Forall (fun s => session_start s <= session_end s) ss ->
  Z.of_nat (List.length ss) <= specTotalMinutes ss
  <= Z.of_nat (List.length ss) + coveredMs ss / 60000.
Proof.
  unfold specTotalMinutes, coveredMs, sumZ.
  induction 1 as [|s ss Hs Hss IH]; [cbn; lia|].
  cbn [map fold_right List.length]. unfold specSessionMinutes at 1 3.
  rewrite Nat2Z.inj_succ.
  set (d := session_end s - session_start s) in *.
  set (S := fold_right Z.add 0 (map (fun s0 => session_end s0 - session_start s0) ss)) in *.
  assert (0 <= d) by (subst d; lia).
  assert (0 <= S).
  { subst S. clear -Hss. induction Hss as [|x l Hx _ IHl]; cbn; lia. }
  split; [lia|].
  assert (Z.max 1 (d / 60000) <= 1 + d / 60000)
    by (Z.to_euclidean_division_equations; lia).
  assert (d / 60000 + S / 60000 <= (d + S) / 60000)
    by (Z.to_euclidean_division_equations; lia).
  lia.
Qed.

Lemma last_map_timestamp (l : list Entry) (d : Entry) :
  last (map timestamp l) (timestamp d) = timestamp (last l d).
Proof.
  revert d. induction l as [|a l IH]; intros d; [reflexivity|].
  cbn [map]. rewrite !last_cons_default. apply IH.
Qed.

(** The sessions of a sorted, non-empty array. *)
Lemma segment_sorted_facts (gap : Z) (first : Entry) (rest : list Entry) :
  Sorted (cmpLe byTimestamp) (first :: rest) ->
  let found := segment gap (first :: rest) in
  Forall (fun s => session_start s <= session_end s) found
  /\ coveredMs found <= timestamp (last (first :: rest) first) - timestamp first
  /\ (1 <= List.length found <= List.length (first :: rest))%nat.
Proof.
  intros Hs found.
  assert (Hts : Sorted Z.le (timestamp first :: map timestamp rest)).
  { apply StronglySorted_Sorted. now apply (sorted_timestamps (first :: rest)). }
  pose proof (loop_sorted_invariant gap (timestamp first) rest (initialState first))
    as Hinv.
  cbn [initialState currentSessionStart currentSessionEnd sessions] in Hinv.
  specialize (Hinv Hts (Z.le_refl _) (Forall_nil _)).
  assert (H0 : coveredMs [] + (timestamp first - timestamp first)
               <= timestamp first - timestamp first) by (cbn; lia).
  specialize (Hinv H0). cbv zeta in Hinv. destruct Hinv as (I1 & I2 & I3 & I4).
  pose proof (loop_end_is_last gap first rest) as Hend.
  unfold found, segment, closeLast. fold (runLoop gap first rest) in *.
  repeat split.
  - apply Forall_app. split; [assumption|]. repeat constructor. assumption.
  - unfold coveredMs in *. rewrite sumZ_app, <- Hend. unfold sumZ at 2.
    cbn [map fold_right session_end session_start]. lia.
  - rewrite length_app. cbn. lia.
  - rewrite length_app. cbn [List.length] in *. lia.
Qed.

Lemma sorted_hd_fixed (first : Entry) (others : list Entry) :
  exists a rest, Js.sort byTimestamp (first :: others) = a :: rest.
Proof.
  pose proof (sort_length byTimestamp (first :: others)) as Hlen.
  destruct (Js.sort byTimestamp (first :: others)) as [|a rest]; [discriminate|].
  eauto.
Qed.

(** X3. For a non-empty group the duration is that of its sessions: there is
    at least one session and at most one per entry, every session counts for at
    least one minute, and the total exceeds the number of sessions by no more
    than the whole minutes between the earliest and the latest entry, so time
    between sessions is never counted. *)
Theorem conversation_time_bounds (first : Entry) (others : list Entry) :
  let sorted := Js.sort byTimestamp (first :: others) in
  let found := segment DataLoader.SESSION_GAP_MS sorted in
  let total := specTotalMinutes found in
  let span := timestamp (last sorted first) - timestamp (hd first sorted) in
  calculateConversationTime (first :: others) = renderMinutes total
  /\ (1 <= List.length found <= List.length (first :: others))%nat
  /\ Z.of_nat (List.length found) <= total
  /\ total <= Z.of_nat (List.length found) + span / 60000.
Proof.
  intros sorted found total span.
  assert (Hcalc : calculateConversationTime (first :: others) = renderMinutes total).
  { destruct others as [|b l]; [|apply calculateConversationTime_sorted].
    cbn. unfold specTotalMinutes, specSessionMinutes. cbn. now rewrite Z.sub_diag. }
  split; [exact Hcalc|].
  pose proof (sort_sorted byTimestamp byTimestamp_total (first :: others)) as Hs.
  pose proof (sort_length byTimestamp (first :: others)) as Hlen.
  fold sorted in Hs, Hlen.
  destruct (sorted_hd_fixed first others) as (a & rest & Ha). fold sorted in Ha.
  subst found total span. rewrite Ha in *.
  destruct (segment_sorted_facts DataLoader.SESSION_GAP_MS a rest Hs)
    as (F1 & F2 & F3 & F4).
  pose proof (total_minutes_bounds _ F1) as [B1 B2].
  rewrite (last_cons_default rest a first), <- (last_cons_default rest a a).
  cbn [hd].
  repeat split; try lia.
  eapply Z.le_trans; [exact B2|].
  apply Z.add_le_mono_l. apply Z.div_le_mono; lia.
Qed.

Example bounds_sample :
  calculateConversationTime
    [entryAt 0; entryAt 120000; entryAt 3600000; entryAt 3900000]
  = "4m".
Proof. reflexivity. Qed.

Lemma loop_unbroken (gap : Z) (rest : list Entry) (s e : Z) (acc : list Session) :
  consecutive (fun a b => b - a <= gap) (e :: map timestamp rest) ->
  fold_left (loopStep gap) rest (mkLoopState s e acc)
  = mkLoopState s (last (map timestamp rest) e) acc.
Proof.
  revert e. induction rest as [|x rest IH]; intros e H; [reflexivity|].
  cbn [fold_left map] in *. destruct H as [Hx H].
  rewrite loopStep_eq. apply Z.leb_le in Hx. rewrite Hx.
  rewrite IH by exact H.
  now rewrite last_cons_default.
Qed.

Lemma loop_all_apart (gap : Z) (rest : list Entry) (e : Z) (acc : list Session) :
  consecutive (fun a b => b - a > gap) (e :: map timestamp rest) ->
  closeLast (fold_left (loopStep gap) rest (mkLoopState e e acc))
  = (acc ++ mkSession e e :: map pointSession rest)%list.
Proof.
  revert e acc. induction rest as [|x rest IH]; intros e acc H; [reflexivity|].
  cbn [fold_left map] in *. destruct H as [Hx H].
  rewrite loopStep_eq.
  assert (Hgt : (timestamp x - e <=? gap) = false) by (apply Z.leb_gt; lia).
  rewrite Hgt, IH by exact H.
  now rewrite <- app_assoc.
Qed.

(** X4. When no entry comes more than three minutes after the one before it
    in time order, the whole group is one session from the earliest to the
    latest entry, and the duration is the whole minutes between them, or one
    minute if they are less than a minute apart. *)
Theorem unbroken_conversation_one_session (first : Entry) (others : list Entry) :
  let sorted := Js.sort byTimestamp (first :: others) in
  let earliest := timestamp (hd first sorted) in
  let latest := timestamp (last sorted first) in
  consecutive (fun a b => b - a <= 180000) (map timestamp sorted) ->
  segment DataLoader.SESSION_GAP_MS sorted = [mkSession earliest latest]
  /\ calculateConversationTime (first :: others)
     = renderMinutes (Z.max 1 ((latest - earliest) / 60000)).
Proof.
  intros sorted earliest latest H.
  destruct (sorted_hd_fixed first others) as (a & rest & Ha). fold sorted in Ha.
  assert (Hseg : segment DataLoader.SESSION_GAP_MS sorted
                 = [mkSession earliest latest]).
  { subst earliest latest. rewrite Ha in *. cbn [map] in H.
    rewrite (last_cons_default rest a first). cbn [hd].
    unfold segment, runLoop, initialState.
    rewrite (loop_unbroken _ _ _ _ _ H). unfold closeLast.
    cbn [currentSessionStart currentSessionEnd sessions app].
    now rewrite last_map_timestamp. }
  split; [exact Hseg|].
  assert (Hcalc : calculateConversationTime (first :: others)
                  = renderMinutes
                      (specTotalMinutes (segment DataLoader.SESSION_GAP_MS sorted))).
  { destruct others as [|b l]; [|apply calculateConversationTime_sorted].
    cbn. unfold specTotalMinutes, specSessionMinutes. cbn. now rewrite Z.sub_diag. }
  rewrite Hcalc, Hseg. unfold specTotalMinutes, specSessionMinutes. cbn.
  now rewrite Z.add_0_r.
Qed.

Lemma unbroken_conversation_one_session_witness :
  calculateConversationTime [entryAt 300000; entryAt 0; entryAt 120000] = "5m".
Proof.
  refine (proj2 (unbroken_conversation_one_session (entryAt 300000)
                   [entryAt 0; entryAt 120000] _)).
  cbn. lia.
Defined.

(** X5. When every entry comes more than three minutes after the one before
    it in time order, every entry is a session of its own and the duration is
    one minute per entry. *)
Theorem isolated_messages_one_minute_each (first : Entry) (others : list Entry) :
  let sorted := Js.sort byTimestamp (first :: others) in
  consecutive (fun a b => b - a > 180000) (map timestamp sorted) ->
  segment DataLoader.SESSION_GAP_MS sorted = map pointSession sorted
  /\ calculateConversationTime (first :: others)
     = renderMinutes (Z.of_nat (List.length (first :: others))).
Proof.
  intros sorted H.
  destruct (sorted_hd_fixed first others) as (a & rest & Ha). fold sorted in Ha.
  assert (Hseg : segment DataLoader.SESSION_GAP_MS sorted = map pointSession sorted).
  { rewrite Ha in *. cbn [map] in H. unfold segment, runLoop, initialState.
    now rewrite (loop_all_apart _ _ _ _ H). }
  split; [exact Hseg|].
  assert (Hcalc : calculateConversationTime (first :: others)
                  = renderMinutes
                      (specTotalMinutes (segment DataLoader.SESSION_GAP_MS sorted))).
  { destruct others as [|b l]; [|apply calculateConversationTime_sorted].
    cbn. unfold specTotalMinutes, specSessionMinutes. cbn. now rewrite Z.sub_diag. }
  rewrite Hcalc, Hseg. f_equal.
  rewrite <- (sort_length byTimestamp (first :: others)). fold sorted.
  unfold specTotalMinutes. clear.
  induction sorted as [|x l IH]; [reflexivity|].
  cbn [map fold_right List.length]. rewrite IH, Nat2Z.inj_succ.
  unfold specSessionMinutes, pointSession.
  cbn [session_end session_start]. rewrite Z.sub_diag.
  change (Z.max 1 (0 / 60000)) with 1. lia.
Qed.

Lemma isolated_messages_one_minute_each_witness :
  calculateConversationTime [entryAt 600000; entryAt 0; entryAt 1200000] = "3m".
Proof.
  refine (proj2 (isolated_messages_one_minute_each (entryAt 600000)
                   [entryAt 0; entryAt 1200000] _)).
  cbn. lia.
Defined.

Lemma summarize_cons (tz : Z -> Z) (d : DailyDate) (e0 : Entry) (rest : list Entry) :
  summarize tz d (e0 :: rest)
  = [ mkDailyConversation d
        (formatTime tz (timestamp (hd e0 (Js.sort byTimestamp (e0 :: rest)))))
        (formatTime tz (timestamp (last (Js.sort byTimestamp (e0 :: rest)) e0)))
        (calculateConversationTime (Js.sort byTimestamp (e0 :: rest)))
        (Z.of_nat (List.length (Js.sort byTimestamp (e0 :: rest))))
        (Js.unique (map sessionId (Js.sort byTimestamp (e0 :: rest)))) ].
Proof. reflexivity. Qed.

(** Each summary is the one [summarize] builds from the filtered entries of
    its date. *)
Lemma summary_inv (tz : Z -> Z) (options : LoadOptions) (entries : list Entry)
    (r : LoadResult) (c : DailyConversation) :
  loadDailyConversationData tz options entries = Ok r ->
  In c (conversations r) ->
  exists e0 rest sorted,
    filter (hasDate tz (date c)) (allEntries r) = e0 :: rest
    /\ sorted = Js.sort byTimestamp (e0 :: rest)
    /\ c = mkDailyConversation (date c)
             (formatTime tz (timestamp (hd e0 sorted)))
             (formatTime tz (timestamp (last sorted e0)))
             (calculateConversationTime sorted)
             (Z.of_nat (List.length sorted))
             (Js.unique (map sessionId sorted)).
Proof.
  intros H Hin. apply load_ok_inv in H as (groups & Hf & Hg & Hc).
  apply groups_of_run in Hg as [(Hnd & Hall & _) _].
  rewrite Hc in Hin.
  apply (Permutation_in _ (sort_perm byDateDescending _)) in Hin.
  unfold summaries in Hin. apply in_flat_map in Hin as ([k es] & Hg & Hsum).
  rewrite Forall_forall in Hall. destruct (Hall _ Hg) as [Hne Hes].
  cbn [fst snd] in *. destruct es as [|e0 rest]; [contradiction|].
  rewrite summarize_cons in Hsum. destruct Hsum as [Hsum|[]].
  assert (Hk : date c = k) by (now rewrite <- Hsum).
  exists e0, rest, (Js.sort byTimestamp (e0 :: rest)).
  rewrite Hk, <- Hes. split; [reflexivity|]. split; [reflexivity|].
  now symmetry.
Qed.

Lemma last_in {A : Type} (l : list A) (a d : A) : In (last (a :: l) d) (a :: l).
Proof.
  revert a. induction l as [|b l IH]; intros a; [now left|].
  change (last (a :: b :: l) d) with (last (b :: l) d). right. apply IH.
Qed.

Lemma strongly_sorted_last (l : list Z) (a d x : Z) :
  StronglySorted Z.le (a :: l) -> In x (a :: l) -> x <= last (a :: l) d.
Proof.
  revert a x. induction l as [|b l IH]; intros a x Hs Hin.
  - destruct Hin as [<-|[]]. cbn. lia.
  - change (last (a :: b :: l) d) with (last (b :: l) d).
    apply StronglySorted_inv in Hs as [Hs Ha].
    destruct Hin as [<-|Hin]; [|now apply IH].
    rewrite Forall_forall in Ha.
    assert (a <= b) by (apply Ha; now left).
    assert (b <= last (b :: l) d) by (apply IH; [assumption | now left]).
    lia.
Qed.

(** X6. In every daily summary, [firstMessageTime] and [lastMessageTime] are
    the local times of the earliest and of the latest of the filtered entries
    that fall on the date of the summary. *)
Theorem first_and_last_message_times (tz : Z -> Z) (options : LoadOptions)
    (entries : list Entry) (r : LoadResult) :
  loadDailyConversationData tz options entries = Ok r ->
  Forall (fun c =>
            exists first last,
              In first (allEntries r) /\ In last (allEntries r)
              /\ hasDate tz (date c) first = true
              /\ hasDate tz (date c) last = true
              /\ firstMessageTime c = formatTime tz (timestamp first)
              /\ lastMessageTime c = formatTime tz (timestamp last)
              /\ (forall e, In e (allEntries r) -> hasDate tz (date c) e = true ->
                    timestamp first <= timestamp e <= timestamp last))
    (conversations r).
Proof.
  intros H. apply Forall_forall. intros c Hin.
  destruct (summary_inv tz options entries r c H Hin)
    as (e0 & rest & sorted & Hes & Hsorted & Hc).
  pose proof (sort_perm byTimestamp (e0 :: rest)) as HP.
  pose proof (sorted_timestamps _
                (sort_sorted byTimestamp byTimestamp_total (e0 :: rest))) as Hss.
  rewrite <- Hsorted in HP, Hss. clear Hsorted.
  assert (Hmem : forall e, In e sorted <->
                   In e (allEntries r) /\ hasDate tz (date c) e = true).
  { intros e. rewrite <- filter_In, Hes. split; intros He.
    - eapply Permutation_in; [exact HP | exact He].
    - eapply Permutation_in; [apply Permutation_sym; exact HP | exact He]. }
  destruct sorted as [|a srest].
  { apply Permutation_nil in HP. discriminate. }
  cbn [hd] in Hc.
  exists a, (last (a :: srest) e0).
  destruct (proj1 (Hmem a) (or_introl eq_refl)) as [Ha1 Ha2].
  destruct (proj1 (Hmem _) (last_in srest a e0)) as [Hl1 Hl2].
  repeat split; try assumption.
  - now rewrite Hc.
  - now rewrite Hc.
  - cbn [map] in Hss. apply StronglySorted_inv in Hss as [_ Hmin].
    destruct (proj2 (Hmem e) (conj H0 H1)) as [->|He]; [lia|].
    rewrite Forall_forall in Hmin. apply Hmin. now apply in_map.
  - rewrite <- last_map_timestamp. cbn [map].
    apply strongly_sorted_last; [exact Hss|].
    apply (in_map timestamp (a :: srest)). apply Hmem. auto.
Qed.

Lemma first_and_last_message_times_witness :
  Forall (fun c =>
            exists first last,
              In first (allEntries sampleFiltered)
              /\ In last (allEntries sampleFiltered)
              /\ firstMessageTime c = formatTime utc (timestamp first)
              /\ lastMessageTime c = formatTime utc (timestamp last))
    (conversations sampleFiltered).
Proof.
  eapply Forall_impl;
    [|refine (first_and_last_message_times utc sampleOptions sampleEntries
                sampleFiltered _)].
  - intros c (first & last & H1 & H2 & _ & _ & H5 & H6 & _).
    exists first, last. repeat split; assumption.
  - vm_compute. reflexivity.
Defined.

Lemma existsb_eqb_in (x : string) (l : list string) :
  existsb (String.eqb x) l = true <-> In x l.
Proof.
  rewrite existsb_exists. split.
  - intros (y & Hy & E). apply String.eqb_eq in E. now subst.
  - intros H. exists x. split; [assumption | apply String.eqb_refl].
Qed.

Lemma uniqueFrom_in (xs seen : list string) (x : string) :
  In x (Js.uniqueFrom seen xs) <-> In x xs /\ ~ In x seen.
Proof.
  revert seen. induction xs as [|y xs IH]; intros seen; cbn; [tauto|].
  destruct (existsb (String.eqb y) seen) eqn:E.
  - apply existsb_eqb_in in E. rewrite IH. split.
    + intros [H1 H2]. auto.
    + intros [[->|H1] H2]; [contradiction | auto].
  - assert (Hy : ~ In y seen).
    { intros Hc. apply existsb_eqb_in in Hc. congruence. }
    cbn. rewrite IH. cbn. split.
    + intros [->|[H1 H2]]; [auto|]. split; [auto|]. intros Hc. apply H2. auto.
    + intros [[->|H1] H2]; [auto|].
      destruct (string_dec y x) as [->|Hne]; [auto|].
      right. split; [assumption|]. intros [Hc|Hc]; auto.
Qed.

Lemma uniqueFrom_nodup (xs seen : list string) : NoDup (Js.uniqueFrom seen xs).
Proof.
  revert seen. induction xs as [|y xs IH]; intros seen; cbn; [constructor|].
  destruct (existsb (String.eqb y) seen); [apply IH|].
  constructor; [|apply IH].
  rewrite uniqueFrom_in. intros [_ Hc]. apply Hc. now left.
Qed.

Lemma uniqueFrom_length (xs seen : list string) :
  (List.length (Js.uniqueFrom seen xs) <= List.length xs)%nat.
Proof.
  revert seen. induction xs as [|y xs IH]; intros seen; cbn; [lia|].
  destruct (existsb (String.eqb y) seen); [specialize (IH seen) | specialize (IH (y :: seen))];
    cbn; lia.
Qed.

(** X7. In every daily summary, [sessionIds] lists without repetition exactly
    the session identifiers of the filtered entries that fall on the date of
    the summary; there is at least one and there are no more than
    [messageCount]. *)
Theorem session_ids_of_summary (tz : Z -> Z) (options : LoadOptions)
    (entries : list Entry) (r : LoadResult) :
  loadDailyConversationData tz options entries = Ok r ->
  Forall (fun c =>
            NoDup (sessionIds c)
            /\ (forall id, In id (sessionIds c) <->
                  exists e, In e (allEntries r)
                            /\ hasDate tz (date c) e = true
                            /\ sessionId e = id)
            /\ 1 <= Z.of_nat (List.length (sessionIds c)) <= messageCount c)
    (conversations r).
Proof.
  intros H. apply Forall_forall. intros c Hin.
  destruct (summary_inv tz options entries r c H Hin)
    as (e0 & rest & sorted & Hes & Hsorted & Hc).
  pose proof (sort_perm byTimestamp (e0 :: rest)) as HP.
  rewrite <- Hsorted in HP. clear Hsorted.
  assert (Hids : sessionIds c = Js.unique (map sessionId sorted))
    by (now rewrite Hc).
  assert (Hcount : messageCount c = Z.of_nat (List.length sorted))
    by (now rewrite Hc).
  rewrite Hids, Hcount. unfold Js.unique. split; [apply uniqueFrom_nodup|].
  split.
  - intros id. rewrite uniqueFrom_in, in_map_iff. split.
    + intros [(e & He & Hine) _]. exists e.
      apply (Permutation_in _ HP) in Hine. rewrite <- Hes in Hine.
      apply filter_In in Hine. tauto.
    + intros (e & He1 & He2 & He3). split; [|intros []].
      exists e. split; [assumption|].
      eapply Permutation_in; [apply Permutation_sym; exact HP|].
      rewrite <- Hes. apply filter_In. auto.
  - pose proof (uniqueFrom_length (map sessionId sorted) []) as Hlen.
    rewrite length_map in Hlen. split; [|apply Nat2Z.inj_le; exact Hlen].
    destruct sorted as [|a srest].
    { apply Permutation_nil in HP. discriminate. }
    cbn [map Js.uniqueFrom existsb List.length]. lia.
Qed.

Lemma session_ids_of_summary_witness :
  map sessionIds (conversations sampleFiltered)
  = [["session-002"]; ["session-001"]]
  /\ Forall (fun c => NoDup (sessionIds c)) (conversations sampleFiltered).
Proof.
  split; [reflexivity|].
  eapply Forall_impl;
    [|refine (session_ids_of_summary utc sampleOptions sampleEntries
                sampleFiltered _)].
  - intros c Hc. exact (proj1 Hc).
  - vm_compute. reflexivity.
Defined.

Lemma formatDate_throw (tz : Z -> Z) (t : Z) (e : Error) :
  formatDate tz t = Throw e -> e = ZodError "Date must be in YYYY-MM-DD format".
Proof.
  unfold formatDate, createDailyDate. destruct (matchesDailyDate _); [discriminate|].
  now intros [=].
Qed.

Lemma load_throw_error (tz : Z -> Z) (options : LoadOptions) (entries : list Entry)
    (e : Error) :
  loadDailyConversationData tz options entries = Throw e ->
  e = ZodError "Date must be in YYYY-MM-DD format".
Proof.
  assert (Hgroup : forall l g, groupByDate tz l g = Throw e ->
                     e = ZodError "Date must be in YYYY-MM-DD format").
  { induction l as [|x l IH]; intros g Hl; [discriminate|].
    cbn [groupByDate] in Hl.
    destruct (formatDate tz (timestamp x)) as [d|err] eqn:E.
    - cbn [bind] in Hl. eapply IH; exact Hl.
    - cbn [bind] in Hl. injection Hl as <-. eapply formatDate_throw; exact E. }
  assert (Hfilter : forall l, filterEntries (keepEntry tz options) l = Throw e ->
                      e = ZodError "Date must be in YYYY-MM-DD format").
  { induction l as [|x l IH]; intros Hl; [discriminate|].
    cbn [filterEntries] in Hl. unfold keepEntry at 1 in Hl.
    destruct (formatDate tz (timestamp x)) as [d|err] eqn:E.
    - cbn [bind] in Hl.
      destruct (filterEntries (keepEntry tz options) l) as [kept|err'] eqn:El.
      + destruct (_ && _); [discriminate|]. destruct (_ && _); discriminate.
      + apply IH.
        destruct (_ && _); [now injection Hl as <-|].
        destruct (_ && _); now injection Hl as <-.
    - cbn [bind] in Hl. injection Hl as <-. eapply formatDate_throw; exact E. }
  unfold loadDailyConversationData, filterByRange. intros H.
  destruct (_ && _).
  - cbn [bind] in H.
    destruct (groupByDate tz entries []) as [g|err] eqn:Eg; [discriminate|].
    cbn [bind] in H. injection H as <-. eapply Hgroup; exact Eg.
  - destruct (filterEntries (keepEntry tz options) entries) as [kept|err] eqn:Ef.
    + cbn [bind] in H.
      destruct (groupByDate tz kept []) as [g|err] eqn:Eg; [discriminate|].
      cbn [bind] in H. injection H as <-. eapply Hgroup; exact Eg.
    + cbn [bind] in H. injection H as <-. eapply Hfilter; exact Ef.
Qed.

(** X8. The aggregation returns when the local year of every entry has four
    digits, whatever the bounds are; otherwise, even if the entry at fault lies
    outside the bounds, it throws the [ZodError] of the date schema and nothing
    else. *)
Theorem aggregation_error_behaviour (tz : Z -> Z) (options : LoadOptions)
    (entries : list Entry) :
  (Forall (fourDigitYear tz) entries ->
   exists r, loadDailyConversationData tz options entries = Ok r)
  /\ (~ Forall (fourDigitYear tz) entries ->
      loadDailyConversationData tz options entries
      = Throw (ZodError "Date must be in YYYY-MM-DD format")).
Proof.
  split; [apply load_total|].
  intros Hn.
  destruct (loadDailyConversationData tz options entries) as [r|e] eqn:E.
  - exfalso. apply Hn. eapply load_throws; exact E.
  - f_equal. eapply load_throw_error; exact E.
Qed.

Example entry_outside_bounds_still_throws :
  loadDailyConversationData utc sampleOptions
    (entryAt (-30641716800000) :: sampleEntries)
  = Throw (ZodError "Date must be in YYYY-MM-DD format").
Proof. reflexivity. Qed.

(** * Properties of html-report.ts *)

Lemma isDigit_not_space (c : ascii) :
  isDigit c = true ->
  JsLib.isAsciiSpace c = false
  /\ (forall c2, JsLib.isSpace2 c c2 = false)
  /\ (forall c2 c3, JsLib.isSpace3 c c2 c3 = false).
Proof.
  unfold isDigit, JsLib.isAsciiSpace, JsLib.isSpace2, JsLib.isSpace3.
  intros H. split_andb. apply N.leb_le in H, H0.
  set (n := N_of_ascii c) in *.
  assert (E1 : (n <=? 13)%N = false) by (apply N.leb_gt; lia).
  assert (E2 : (n =? 32)%N = false) by (apply N.eqb_neq; lia).
  assert (E3 : (n =? 194)%N = false) by (apply N.eqb_neq; lia).
  assert (E4 : (n =? 225)%N = false) by (apply N.eqb_neq; lia).
  assert (E5 : (n =? 226)%N = false) by (apply N.eqb_neq; lia).
  assert (E6 : (n =? 227)%N = false) by (apply N.eqb_neq; lia).
  assert (E7 : (n =? 239)%N = false) by (apply N.eqb_neq; lia).
  rewrite E1, E2, E3, E4, E5, E6, E7, andb_false_r. cbn. auto.
Qed.

(** White space is only skipped in front of something that is not a digit. *)
Lemma skipWhitespace_digit (c : ascii) (s : string) :
  isDigit c = true -> JsLib.skipWhitespace (String c s) = String c s.
Proof.
  intros H. destruct (isDigit_not_space c H) as (E1 & E2 & E3).
  cbn [JsLib.skipWhitespace]. rewrite E1.
  destruct s as [|c2 s]; [reflexivity|]. rewrite E2.
  destruct s as [|c3 s]; [reflexivity|]. now rewrite E3.
Qed.

Lemma spanDigits_app (digits rest : string) :
  allDigits digits = true ->
  match rest with
  | String c _ => isDigit c = false
  | EmptyString => True
  end ->
  JsLib.spanDigits (digits ++ rest) = (digits, rest).
Proof.
  intros Hd Hr. induction digits as [|c digits IH]; cbn [append].
  - destruct rest as [|c r]; [reflexivity|]. cbn. now rewrite Hr.
  - cbn [allDigits] in Hd. split_andb. cbn [JsLib.spanDigits]. rewrite H.
    now rewrite IH.
Qed.


Lemma digitsValue_decimal (digits : string) (acc : Z) :
  JsLib.digitsValue acc digits
  = acc * 10 ^ Z.of_nat (String.length digits) + decimalValue digits.
Proof.
  revert acc. induction digits as [|c digits IH]; intros acc;
    cbn [JsLib.digitsValue decimalValue String.length]; [cbn; lia|].
  rewrite IH, Nat2Z.inj_succ, Z.pow_succ_r by lia. unfold digitValue. ring.
Qed.

(** On a non-empty string of digits [parseInt] is the decimal value. *)
Lemma parseInt_digits (c : ascii) (digits : string) :
  allDigits (String c digits) = true ->
  JsLib.parseInt (String c digits) = Some (decimalValue (String c digits)).
Proof.
  intros H. pose proof H as H'. cbn [allDigits] in H'. split_andb.
  unfold JsLib.parseInt. rewrite skipWhitespace_digit by assumption.
  assert (Hm : Ascii.eqb c "-" = false) by now apply isDigit_not_hyphen.
  assert (Hp : Ascii.eqb c "+" = false).
  { apply Ascii.eqb_neq. intros ->. discriminate. }
  rewrite Hm, Hp.
  pose proof (spanDigits_app (String c digits) "" H I) as Hs.
  assert (Happ : (String c digits ++ "")%string = String c digits).
  { clear. induction (String c digits) as [|x s IH]; cbn; [reflexivity|].
    now rewrite IH. }
  rewrite Happ in Hs. rewrite Hs. cbn [fst].
  rewrite digitsValue_decimal. f_equal. lia.
Qed.

Lemma partValue_digits (digits : string) :
  allDigits digits = true -> digits <> "" ->
  HtmlReport.partValue (Some digits) = decimalValue digits.
Proof.
  intros H Hne. destruct digits as [|c digits]; [contradiction|].
  unfold HtmlReport.partValue, JsLib.orElse. cbn [Js.truthy].
  now rewrite parseInt_digits.
Qed.

Lemma matchNumberThen_found (suffix : ascii) (digits rest : string) :
  allDigits digits = true -> digits <> "" -> isDigit suffix = false ->
  HtmlReport.matchNumberThen suffix (digits ++ String suffix rest)
  = (Some digits, rest).
Proof.
  intros H Hne Hs. unfold HtmlReport.matchNumberThen.
  rewrite spanDigits_app by assumption.
  destruct digits as [|c digits]; [contradiction|].
  now rewrite Ascii.eqb_refl.
Qed.

Lemma matchNumberThen_other (suffix other : ascii) (digits rest : string) :
  allDigits digits = true -> isDigit other = false ->
  Ascii.eqb other suffix = false ->
  HtmlReport.matchNumberThen suffix (digits ++ String other rest)
  = (None, (digits ++ String other rest)%string).
Proof.
  intros H Ho Hne. unfold HtmlReport.matchNumberThen.
  rewrite spanDigits_app by assumption.
  destruct digits as [|c digits]; [reflexivity|]. now rewrite Hne.
Qed.



Lemma numberToString_numeral (n : Z) :
  0 <= n ->
  allDigits (Js.numberToString n) = true
  /\ Js.numberToString n <> ""
  /\ decimalValue (Js.numberToString n) = n.
Proof.
  intros Hn. destruct (numberToString_decimal n Hn) as [Ha Hv].
  repeat split; try assumption.
  unfold Js.numberToString.
  assert (Hneg : (n <? 0) = false) by (apply Z.ltb_ge; lia). rewrite Hneg.
  pose proof (digitsOf_nonempty (Z.to_nat (Z.log2 n)) n) as Hlen.
  intros E. rewrite E in Hlen. cbn in Hlen. lia.
Qed.

Lemma convertToMinutes_render (n : Z) :
  0 <= n -> HtmlReport.convertToMinutes (renderMinutes n) = n.
Proof.
  intros Hn. unfold renderMinutes, HtmlReport.convertToMinutes. cbv zeta.
  destruct (Z.ltb_spec n 60) as [Hlt|Hge].
  - destruct (numberToString_numeral n Hn) as (Ha & Hne & Hv).
    rewrite (matchNumberThen_other "h" "m") by (assumption || reflexivity).
    destruct (Js.numberToString n) as [|c d] eqn:E; [contradiction|].
    cbn [append]. pose proof Ha as Ha'. cbn [allDigits] in Ha'. split_andb.
    rewrite skipWhitespace_digit by assumption.
    change (String c (d ++ "m")) with (String c d ++ "m")%string.
    rewrite matchNumberThen_found by (assumption || discriminate || reflexivity).
    rewrite partValue_digits by (assumption || discriminate).
    rewrite Hv. cbn. lia.
  - assert (Hh : 0 <= n / 60) by (apply Z.div_pos; lia).
    assert (Hm : 0 <= n mod 60) by (apply Z.mod_pos_bound; lia).
    destruct (numberToString_numeral _ Hh) as (Ah & Nh & Vh).
    destruct (numberToString_numeral _ Hm) as (Am & Nm & Vm).
    destruct (Z.eqb_spec (n mod 60) 0) as [E0|E0].
    + rewrite matchNumberThen_found by (assumption || reflexivity).
      cbn [JsLib.skipWhitespace]. rewrite partValue_digits by assumption.
      rewrite Vh. cbn. Z.to_euclidean_division_equations; lia.
    + cbn [append].
      rewrite matchNumberThen_found by (assumption || reflexivity).
      cbn [JsLib.skipWhitespace]. change (JsLib.isAsciiSpace " ") with true.
      cbv iota.
      destruct (Js.numberToString (n mod 60)) as [|c d] eqn:E; [contradiction|].
      cbn [append]. pose proof Am as Am'. cbn [allDigits] in Am'. split_andb.
      rewrite skipWhitespace_digit by assumption.
      change (String c (d ++ "m")) with (String c d ++ "m")%string.
      rewrite matchNumberThen_found by (assumption || discriminate || reflexivity).
      rewrite !partValue_digits by (assumption || discriminate).
      rewrite Vh, Vm. Z.to_euclidean_division_equations; lia.
Qed.



Example convertToMinutes_samples :
  map HtmlReport.convertToMinutes ["45m"; "2h"; "2h 30m"; "2h30"; "abc"; ""]
  = [45; 120; 150; 120; 0; 0].
Proof. reflexivity. Qed.

Lemma specTotalMinutes_nonneg (ss : list Session) : 0 <= specTotalMinutes ss.
Proof.
  unfold specTotalMinutes. induction ss as [|x l IH]; cbn; [lia|].
  unfold specSessionMinutes at 1. lia.
Qed.

Lemma convertToMinutes_calculate (entries : list Entry) :
  HtmlReport.convertToMinutes (calculateConversationTime entries)
  = specTotalMinutes
      (segment DataLoader.SESSION_GAP_MS (Js.sort byTimestamp entries)).
Proof.
  destruct entries as [|a [|b l]].
  - reflexivity.
  - cbn [calculateConversationTime Js.sort Js.insertSorted].
    unfold segment, runLoop, initialState, closeLast, specTotalMinutes,
      specSessionMinutes.
    cbn [fold_left sessions currentSessionStart currentSessionEnd app map
         fold_right session_end session_start].
    rewrite Z.sub_diag. reflexivity.
  - rewrite calculateConversationTime_sorted.
    apply convertToMinutes_render, specTotalMinutes_nonneg.
Qed.

(** X10. In the chart data prepared from the result of the aggregation, the
    minutes of each day are the minutes of the sessions of the filtered entries
    of that day, read back from the duration string of the summary, and at
    least one; the labels are the dates and the message counts add up to the
    number of filtered entries. *)
Theorem chart_minutes_of_summaries (tz : Z -> Z) (options : LoadOptions)
    (entries : list Entry) (r : LoadResult)
    (projectActivity : list HtmlReport.ProjectActivity) :
  loadDailyConversationData tz options entries = Ok r ->
  let chart := HtmlReport.daily
                 (HtmlReport.prepareChartData (conversations r) projectActivity) in
  HtmlReport.daily_conversationMinutes chart
  = map (fun c =>
           specTotalMinutes
             (segment DataLoader.SESSION_GAP_MS
                (Js.sort byTimestamp
                   (filter (hasDate tz (date c)) (allEntries r)))))
      (conversations r)
  /\ Forall (fun minutes => 1 <= minutes) (HtmlReport.daily_conversationMinutes chart)
  /\ HtmlReport.daily_labels chart = map date (conversations r)
  /\ sumZ (fun n => n) (HtmlReport.daily_messages chart)
     = Z.of_nat (List.length (allEntries r)).
Proof.
  intros H chart. subst chart.
  cbn [HtmlReport.prepareChartData HtmlReport.daily
       HtmlReport.daily_conversationMinutes HtmlReport.daily_labels
       HtmlReport.daily_messages].
  assert (Hmin : forall c, In c (conversations r) ->
            HtmlReport.convertToMinutes (estimatedConversationTime c)
            = specTotalMinutes
                (segment DataLoader.SESSION_GAP_MS
                   (Js.sort byTimestamp
                      (filter (hasDate tz (date c)) (allEntries r))))
            /\ 1 <= HtmlReport.convertToMinutes (estimatedConversationTime c)).
  { intros c Hin.
    destruct (summary_inv tz options entries r c H Hin)
      as (e0 & rest & sorted & Hes & Hsorted & Hc).
    assert (He : estimatedConversationTime c
                 = calculateConversationTime (e0 :: rest)).
    { rewrite Hc. cbn [estimatedConversationTime]. rewrite Hsorted.
      apply calculateConversationTime_perm, sort_perm. }
    rewrite He, Hes, convertToMinutes_calculate. split; [reflexivity|].
    pose proof (sort_sorted byTimestamp byTimestamp_total (e0 :: rest)) as Hs.
    destruct (sorted_hd_fixed e0 rest) as (a & srest & Ha). rewrite Ha in *.
    destruct (segment_sorted_facts DataLoader.SESSION_GAP_MS a srest Hs)
      as (F1 & _ & F3 & _).
    pose proof (total_minutes_bounds _ F1). lia. }
  split; [|split; [|split; [reflexivity|]]].
  - apply map_ext_in. intros c Hin. apply Hmin, Hin.
  - apply Forall_forall. intros m Hm. apply in_map_iff in Hm as (c & <- & Hin).
    apply Hmin, Hin.
  - apply load_ok_inv in H as (groups & Hf & Hg & Hc).
    apply groups_of_run in Hg as [Hok Hsize].
    pose proof (groupsOk_nonempty _ _ _ Hok) as Hne.
    destruct (summaries_of_groups tz groups Hne) as [_ Hsum].
    unfold sumZ. rewrite map_id.
    change (fold_right Z.add 0 (map messageCount (conversations r)))
      with (totalMessageCount (conversations r)).
    rewrite Hc, (totalMessageCount_perm _ _ (sort_perm byDateDescending _)).
    now rewrite Hsum, Hsize.
Qed.

Lemma chart_minutes_of_summaries_witness :
  HtmlReport.daily_conversationMinutes
    (HtmlReport.daily (HtmlReport.prepareChartData (conversations sampleResult) []))
  = [1; 1; 1; 1].
Proof.
  refine (eq_trans
            (proj1 (chart_minutes_of_summaries utc noOptions sampleEntries
                      sampleResult [] _)) _).
  - vm_compute. reflexivity.
  - vm_compute. reflexivity.
Defined.

Lemma sort_map {A B : Type} (f : A -> B) (cmpA : A -> A -> Z) (cmpB : B -> B -> Z)
    (l : list A) :
  (forall x y, cmpA x y = cmpB (f x) (f y)) ->
  map f (Js.sort cmpA l) = Js.sort cmpB (map f l).
Proof.
  intros Hcmp.
  assert (Hins : forall x s, map f (Js.insertSorted cmpA x s)
                             = Js.insertSorted cmpB (f x) (map f s)).
  { intros x s. induction s as [|y s IH]; cbn; [reflexivity|].
    rewrite <- Hcmp. destruct (cmpA x y <=? 0); cbn; [reflexivity|].
    now rewrite IH. }
  induction l as [|x l IH]; cbn; [reflexivity|]. now rewrite Hins, IH.
Qed.

Lemma stampStep_loop (rest : list Entry) (st : LoopState) :
  fold_left HtmlReport.stampStep (map timestamp rest) st
  = fold_left (loopStep DataLoader.SESSION_GAP_MS) rest st.
Proof.
  revert st. induction rest as [|e rest IH]; intros st; [reflexivity|].
  cbn [map fold_left]. rewrite IH. reflexivity.
Qed.

Lemma projectSessions_segment (sorted : list Entry) :
  HtmlReport.projectSessions (map timestamp sorted)
  = segment DataLoader.SESSION_GAP_MS sorted.
Proof.
  destruct sorted as [|first rest]; [reflexivity|].
  cbn [map HtmlReport.projectSessions]. rewrite stampStep_loop. reflexivity.
Qed.

(** X11. [calculateProjectConversationTime], the copy of the duration
    computation the report applies to the timestamps of a project, returns on
    the timestamps of any entries what [calculateConversationTime] returns on
    the entries. *)
Theorem project_time_agrees_with_daily_time (entries : list Entry) :
  HtmlReport.calculateProjectConversationTime (map timestamp entries)
  = calculateConversationTime entries.
Proof.
  destruct entries as [|a [|b l]]; try reflexivity.
  unfold HtmlReport.calculateProjectConversationTime, calculateConversationTime.
  cbn [map].
  change (timestamp a :: timestamp b :: map timestamp l)
    with (map timestamp (a :: b :: l)).
  rewrite <- (sort_map timestamp byTimestamp HtmlReport.byStamp)
    by reflexivity.
  rewrite projectSessions_segment. reflexivity.
Qed.

Lemma split_nonempty (sep : ascii) (s : string) :
  exists a l, JsLib.split sep s = a :: l.
Proof.
  destruct s as [|c s]; cbn; [eauto|].
  destruct (Ascii.eqb c sep); [eauto|]. destruct (JsLib.split sep s); eauto.
Qed.

Lemma split_lacks (sep : ascii) (s : string) :
  lacks sep s = true -> JsLib.split sep s = [s].
Proof.
  induction s as [|c s IH]; cbn; intros H; [reflexivity|].
  apply andb_prop in H as [H1 H2]. apply negb_true_iff in H1.
  now rewrite H1, (IH H2).
Qed.

Lemma split_two (sep : ascii) (s : string) :
  lacks sep s = false -> exists a b l, JsLib.split sep s = a :: b :: l.
Proof.
  induction s as [|c s IH]; cbn; intros H; [discriminate|].
  destruct (Ascii.eqb c sep); cbn in H.
  - destruct (split_nonempty sep s) as (a & l & ->). eauto.
  - destruct (IH H) as (a & b & l & ->). eauto.
Qed.

Lemma pop_split_cons (sep c : ascii) (s : string) :
  JsLib.pop (JsLib.split sep (String c s))
  = if lacks sep s then (if Ascii.eqb c sep then s else String c s)
    else JsLib.pop (JsLib.split sep s).
Proof.
  cbn [JsLib.split]. destruct (lacks sep s) eqn:L.
  - rewrite (split_lacks _ _ L). destruct (Ascii.eqb c sep); reflexivity.
  - destruct (split_two _ _ L) as (a & b & l & ->).
    destruct (Ascii.eqb c sep); reflexivity.
Qed.

Lemma pop_split_suffix (sep : ascii) (s : string) :
  exists prefix, s = (prefix ++ JsLib.pop (JsLib.split sep s))%string.
Proof.
  induction s as [|c s [p Hp]]; [exists ""; reflexivity|].
  rewrite pop_split_cons. destruct (lacks sep s); [destruct (Ascii.eqb c sep)|].
  - exists (String c ""). reflexivity.
  - exists "". reflexivity.
  - exists (String c p). cbn [append]. f_equal. exact Hp.
Qed.

Lemma lacks_app_sep (sep : ascii) (dir name : string) :
  lacks sep (dir ++ String sep name) = false.
Proof.
  induction dir as [|c dir IH]; cbn.
  - now rewrite Ascii.eqb_refl.
  - rewrite IH. apply andb_false_r.
Qed.

Lemma pop_split_app (sep : ascii) (dir name : string) :
  lacks sep name = true ->
  JsLib.pop (JsLib.split sep (dir ++ String sep name)) = name.
Proof.
  intros H. induction dir as [|c dir IH]; cbn [append]; rewrite pop_split_cons.
  - now rewrite H, Ascii.eqb_refl.
  - now rewrite lacks_app_sep.
Qed.

Lemma orElse_nonempty (a b : string) : b <> "" -> JsLib.orElse a b <> "".
Proof.
  intros Hb. unfold JsLib.orElse. destruct a; cbn; [exact Hb | discriminate].
Qed.

Lemma orElse_suffix (s a b : string) :
  (exists p, s = (p ++ a)%string) -> (exists p, s = (p ++ b)%string) ->
  exists p, s = (p ++ JsLib.orElse a b)%string.
Proof. intros Ha Hb. unfold JsLib.orElse. destruct (Js.truthy a); assumption. Qed.

Lemma projectNameOf_path (entry : HtmlReport.ReportEntry) :
  HtmlReport.projectNameOf entry
  = JsLib.orElse (JsLib.pop (JsLib.split "/" (projectPathOf entry)))
      (JsLib.orElse (JsLib.pop (JsLib.split JsLib.backslash (projectPathOf entry)))
         (projectPathOf entry)).
Proof. reflexivity. Qed.

Lemma projectPathOf_nonempty (entry : HtmlReport.ReportEntry) :
  projectPathOf entry <> "".
Proof.
  unfold projectPathOf. destruct (HtmlReport.cwd entry) as [[|c path]|]; discriminate.
Qed.

(** X12. The project name of an entry is never empty and is the end of the
    path of the entry ('Unknown Project' when [cwd] is missing or empty).  It
    is the component after the last slash when that component is not empty, and
    a path without a slash is taken whole, back-slashes included. *)
Theorem project_name_of_path (entry : HtmlReport.ReportEntry) :
  HtmlReport.projectNameOf entry <> ""
  /\ (exists prefix,
         projectPathOf entry = (prefix ++ HtmlReport.projectNameOf entry)%string)
  /\ (forall dir name,
         HtmlReport.cwd entry = Some (dir ++ "/" ++ name)%string ->
         name <> "" -> lacks "/" name = true ->
         HtmlReport.projectNameOf entry = name)
  /\ (forall path,
         HtmlReport.cwd entry = Some path -> path <> "" -> lacks "/" path = true ->
         HtmlReport.projectNameOf entry = path)
  /\ (HtmlReport.cwd entry = None \/ HtmlReport.cwd entry = Some "" ->
      HtmlReport.projectNameOf entry = "Unknown Project").
Proof.
  rewrite projectNameOf_path. repeat split.
  - apply orElse_nonempty, orElse_nonempty, projectPathOf_nonempty.
  - apply orElse_suffix; [apply pop_split_suffix|].
    apply orElse_suffix; [apply pop_split_suffix|]. exists "". reflexivity.
  - intros dir name Hcwd Hne Hl. unfold projectPathOf. rewrite Hcwd.
    assert (Hp : Js.truthy (dir ++ "/" ++ name) = true).
    { destruct dir; reflexivity. }
    rewrite Hp. cbn [append]. rewrite (pop_split_app "/" dir name Hl).
    unfold JsLib.orElse. destruct name; [contradiction|reflexivity].
  - intros path Hcwd Hne Hl. unfold projectPathOf. rewrite Hcwd.
    destruct path as [|c path]; [contradiction|]. cbn [Js.truthy].
    rewrite (split_lacks _ _ Hl). reflexivity.
  - intros [H|H]; unfold projectPathOf; rewrite H; reflexivity.
Qed.

Example project_names :
  map (fun path => HtmlReport.projectNameOf (HtmlReport.mkReportEntry 0 path None))
    [Some "/home/user/cctime"; Some "/home/user/cctime/"; Some "cctime"; Some "";
     None; Some "/"]
  = ["cctime"; "/home/user/cctime/"; "cctime"; "Unknown Project";
     "Unknown Project"; "/"].
Proof. reflexivity. Qed.


Lemma sort_descendingBy {A : Type} (f : A -> Z) (cmp : A -> A -> Z) (l : list A) :
  (forall a b, cmp a b = f b - f a) -> descendingBy f (Js.sort cmp l).
Proof.
  intros Hcmp. unfold descendingBy. apply Sorted_StronglySorted.
  - intros a b c. lia.
  - assert (Htotal : forall x y, 0 < cmp x y -> cmp y x <= 0).
    { intros x y. rewrite !Hcmp. lia. }
    pose proof (sort_sorted cmp Htotal l) as Hs.
    induction Hs as [|x s Hs IH Hhd]; constructor; [exact IH|].
    destruct Hhd as [|y s' Hxy]; constructor.
    unfold cmpLe in Hxy. rewrite Hcmp in Hxy. lia.
Qed.









Lemma sumZ_cons {A : Type} (f : A -> Z) (x : A) (l : list A) :
  sumZ f (x :: l) = f x + sumZ f l.
Proof. reflexivity. Qed.





Example project_activity_sample :
  HtmlReport.analyzeProjectActivity
    [HtmlReport.mkReportEntry 0 (Some "/work/a") None;
     HtmlReport.mkReportEntry 60000 (Some "/work/b") None;
     HtmlReport.mkReportEntry 120000 (Some "/work/a") None;
     HtmlReport.mkReportEntry 600000 (Some "/work/b") None]
  = [HtmlReport.mkProjectActivity "a" 2 2 0; HtmlReport.mkProjectActivity "b" 2 2 0].
Proof. reflexivity. Qed.




Lemma projectLabel_nonempty (currentProject : option string) :
  HtmlReport.projectLabel currentProject <> "".
Proof.
  destruct currentProject as [path|]; cbn; [|discriminate].
  apply orElse_nonempty, orElse_nonempty. discriminate.
Qed.




Example session_details_sample :
  HtmlReport.analyzeSessionDetails
    [HtmlReport.mkReportEntry 600000 (Some "/work/b") None;
     HtmlReport.mkReportEntry 0 (Some "/work/a") None;
     HtmlReport.mkReportEntry 120000 None None;
     HtmlReport.mkReportEntry 900000 (Some "/work/b") None]
  = [HtmlReport.mkSessionDetail 0 120000 2 2 "a";
     HtmlReport.mkSessionDetail 600000 600000 1 1 "b";
     HtmlReport.mkSessionDetail 900000 900000 1 1 "b"].
Proof. reflexivity. Qed.

Lemma gapLoop_inv (known : list HtmlReport.ReportEntry)
    (rest : list HtmlReport.ReportEntry) :
  let good g :=
    4 <= HtmlReport.gap g
    /\ HtmlReport.gap_project g <> ""
    /\ exists prev current,
         In prev known /\ In current known
         /\ HtmlReport.gap_timestamp g = HtmlReport.timestamp current
         /\ HtmlReport.gap g
            = (HtmlReport.timestamp current - HtmlReport.timestamp prev) / 60000 in
  forall prev gaps,
    In prev known -> incl rest known -> Forall good gaps ->
    Forall good (HtmlReport.gapLoop prev rest gaps)
    /\ (List.length (HtmlReport.gapLoop prev rest gaps)
        <= List.length gaps + List.length rest)%nat.
Proof.
  cbv zeta. induction rest as [|current rest IH]; intros prev gaps Hprev Hincl Hall.
  - cbn. split; [exact Hall|lia].
  - cbn [HtmlReport.gapLoop]. cbv zeta.
    assert (Hcur : In current known) by (apply Hincl; now left).
    assert (Hrest : incl rest known) by (intros x Hx; apply Hincl; now right).
    destruct (Z.gtb_spec ((HtmlReport.timestamp current - HtmlReport.timestamp prev)
                          / (1000 * 60)) 3) as [Hgt|Hle].
    + match goal with
      | |- context [HtmlReport.gapLoop current rest ?g] =>
          destruct (IH current g Hcur Hrest) as [I1 I2]
      end.
      * apply Forall_app. split; [exact Hall|]. constructor; [|constructor].
        cbn [HtmlReport.gap HtmlReport.gap_project HtmlReport.gap_timestamp].
        split; [lia|]. split; [apply projectLabel_nonempty|].
        exists prev, current. repeat split; assumption.
      * split; [exact I1|]. rewrite length_app in I2. cbn [List.length] in *. lia.
    + destruct (IH current gaps Hcur Hrest Hall) as [I1 I2].
      split; [exact I1|]. cbn [List.length]. lia.
Qed.

(** X15. The pauses [analyzeUserToUserGaps] reports: each one is the whole
    minutes between two user messages of the input, is at least 4 minutes
    long, and carries the time of the later message; they come in decreasing
    order of length, and there are fewer of them than user messages. *)
Theorem user_gaps_rows (allEntries : list HtmlReport.ReportEntry) :
  let gaps := HtmlReport.analyzeUserToUserGaps allEntries in
  descendingBy HtmlReport.gap gaps
  /\ Forall (fun g =>
               4 <= HtmlReport.gap g
               /\ HtmlReport.gap_project g <> ""
               /\ exists prev current,
                    (In prev allEntries /\ HtmlReport.isUserMessage prev = true)
                    /\ (In current allEntries
                        /\ HtmlReport.isUserMessage current = true)
                    /\ HtmlReport.gap_timestamp g = HtmlReport.timestamp current
                    /\ HtmlReport.gap g
                       = (HtmlReport.timestamp current - HtmlReport.timestamp prev)
                         / 60000)
       gaps
  /\ Z.of_nat (List.length gaps)
     <= Z.max 0 (countIf HtmlReport.isUserMessage allEntries - 1).
Proof.
  intros gaps. subst gaps. unfold HtmlReport.analyzeUserToUserGaps. cbv zeta.
  set (users := filter HtmlReport.isUserMessage allEntries).
  pose proof (sort_perm HtmlReport.byReportTimestamp users) as HPu.
  pose proof (sort_length HtmlReport.byReportTimestamp users) as Hlen.
  set (sorted := Js.sort HtmlReport.byReportTimestamp users) in *.
  set (found := match sorted with
                | [] => []
                | first :: rest => HtmlReport.gapLoop first rest []
                end).
  pose proof (sort_perm HtmlReport.byGapDescending found) as HP.
  assert (Hfound :
    Forall (fun g =>
               4 <= HtmlReport.gap g
               /\ HtmlReport.gap_project g <> ""
               /\ exists prev current,
                    In prev sorted /\ In current sorted
                    /\ HtmlReport.gap_timestamp g = HtmlReport.timestamp current
                    /\ HtmlReport.gap g
                       = (HtmlReport.timestamp current - HtmlReport.timestamp prev)
                         / 60000)
      found
    /\ Z.of_nat (List.length found) <= Z.max 0 (Z.of_nat (List.length sorted) - 1)).
  { subst found. destruct sorted as [|first rest] eqn:E; [split; [constructor|cbn; lia]|].
    destruct (gapLoop_inv (first :: rest) rest first []) as [G1 G2];
      [now left|intros x Hx; now right|constructor|].
    split; [exact G1|]. cbn [List.length] in *. lia. }
  destruct Hfound as [Hgood Hcount].
  split; [|split].
  - apply sort_descendingBy. reflexivity.
  - eapply Permutation_Forall; [apply Permutation_sym, HP|].
    eapply Forall_impl; [|exact Hgood].
    intros g (H1 & H2 & prev & current & Hp & Hc & H3 & H4).
    split; [exact H1|]. split; [exact H2|]. exists prev, current.
    split; [apply filter_In; eapply Permutation_in; [exact HPu|exact Hp]|].
    split; [apply filter_In; eapply Permutation_in; [exact HPu|exact Hc]|].
    split; assumption.
  - rewrite (Permutation_length HP). unfold countIf. fold users.
    rewrite <- Hlen. exact Hcount.
Qed.

Example user_gaps_sample :
  HtmlReport.analyzeUserToUserGaps
    [HtmlReport.mkReportEntry 0 (Some "/work/a") (Some "user");
     HtmlReport.mkReportEntry 60000 (Some "/work/a") (Some "assistant");
     HtmlReport.mkReportEntry 239999 (Some "/work/a") (Some "user");
     HtmlReport.mkReportEntry 479999 (Some "/work/b") (Some "user");
     HtmlReport.mkReportEntry 1079999 None (Some "user")]
  = [HtmlReport.mkUserToUserGap 10 1079999 "Unknown";
     HtmlReport.mkUserToUserGap 4 479999 "b"].
Proof. reflexivity. Qed.













Example hourly_activity_sample :
  option_map
    (map (fun row => (HtmlReport.hour row, HtmlReport.hourly_messageCount row,
                      HtmlReport.days row)))
    (option_map (firstn 2)
       (HtmlReport.analyzeHourlyActivity utc
          [HtmlReport.mkReportEntry 0 None None;
           HtmlReport.mkReportEntry 1800000 None None;
           HtmlReport.mkReportEntry 3600000 None None;
           HtmlReport.mkReportEntry 86400000 None None]))
  = Some [(0, 3, ["Thu Jan 01 1970"; "Fri Jan 02 1970"]);
          (1, 1, ["Thu Jan 01 1970"])].
Proof. reflexivity. Qed.

(** * Properties of table-display.ts *)

Lemma fold_left_sum {A : Type} (f : A -> Z) (l : list A) (start : Z) :
  fold_left (fun sum x => sum + f x) l start = start + sumZ f l.
Proof.
  revert start. induction l as [|x l IH]; intros start; cbn [fold_left].
  - unfold sumZ. cbn. lia.
  - rewrite IH, sumZ_cons. lia.
Qed.

Lemma sumZ_le {A : Type} (f g : A -> Z) (l : list A) :
  Forall (fun x => f x <= g x) l -> sumZ f l <= sumZ g l.
Proof.
  induction 1 as [|x l Hx _ IH]; [reflexivity|]. rewrite !sumZ_cons. lia.
Qed.

Lemma sumZ_ones {A : Type} (l : list A) :
  sumZ (fun _ => 1) l = Z.of_nat (List.length l).
Proof.
  induction l as [|x l IH]; [reflexivity|].
  rewrite sumZ_cons, IH. cbn [List.length]. lia.
Qed.

Lemma summary_counts (tz : Z -> Z) (options : LoadOptions) (entries : list Entry)
    (r : LoadResult) :
  loadDailyConversationData tz options entries = Ok r ->
  Forall (fun c => 1 <= Z.of_nat (List.length (sessionIds c)) <= messageCount c)
    (conversations r)
  /\ sumZ messageCount (conversations r) = Z.of_nat (List.length (allEntries r)).
Proof.
  intros H. split.
  - apply Forall_forall. intros c Hin.
    destruct (summary_inv tz options entries r c H Hin)
      as (e0 & rest & sorted & Hes & Hsorted & Hc).
    pose proof (sort_length byTimestamp (e0 :: rest)) as Hlen.
    rewrite <- Hsorted in Hlen. clear Hsorted.
    rewrite Hc. cbn [sessionIds messageCount]. unfold Js.unique.
    pose proof (uniqueFrom_length (map sessionId sorted) []) as Hle.
    rewrite length_map in Hle. split; [|apply Nat2Z.inj_le; exact Hle].
    destruct sorted as [|a srest]; [discriminate|].
    cbn [map Js.uniqueFrom existsb List.length]. lia.
  - apply load_ok_inv in H as (groups & Hf & Hg & Hc).
    apply groups_of_run in Hg as [Hok Hsize].
    pose proof (groupsOk_nonempty _ _ _ Hok) as Hne.
    destruct (summaries_of_groups tz groups Hne) as [_ Hsum].
    change (sumZ messageCount (conversations r))
      with (totalMessageCount (conversations r)).
    rewrite Hc, (totalMessageCount_perm _ _ (sort_perm byDateDescending _)).
    now rewrite Hsum, Hsize.
Qed.

Lemma roundDiv_average (total days : Z) :
  1 <= days <= total -> 1 <= JsLib.roundDiv total days <= total.
Proof.
  intros H. unfold JsLib.roundDiv. split.
  - apply Z.div_le_lower_bound; lia.
  - apply Z.lt_succ_r, Z.div_lt_upper_bound; [lia|nia].
Qed.

(** X17. The summary printed for a result of the aggregation: "No data to
    summarize" when no entry passed the filter; otherwise the five lines with
    the number of days, the number of filtered entries as total messages, the
    number of session ids, and the rounded average.  There is at least one
    session per day and at most one per message, and the average lies between
    1 and the total. *)
Theorem summary_of_result (bold green yellow : string -> string) (tz : Z -> Z)
    (options : LoadOptions) (entries : list Entry) (r : LoadResult) :
  loadDailyConversationData tz options entries = Ok r ->
  let totalDays := Z.of_nat (List.length (conversations r)) in
  let totalMessages := Z.of_nat (List.length (allEntries r)) in
  let totalSessions :=
    sumZ (fun c => Z.of_nat (List.length (sessionIds c))) (conversations r) in
  (allEntries r = [] ->
   TableDisplay.formatSummary bold green yellow (conversations r)
   = yellow "No data to summarize")
  /\ (allEntries r <> [] ->
      TableDisplay.formatSummary bold green yellow (conversations r)
      = String.concat TableDisplay.newline
          [ bold "Summary:";
            ("  Days with activity: " ++ green (Js.numberToString totalDays))%string;
            ("  Total messages: " ++ green (Js.numberToString totalMessages))%string;
            ("  Total sessions: " ++ green (Js.numberToString totalSessions))%string;
            ("  Avg messages/day: "
             ++ green (Js.numberToString
                         (JsLib.roundDiv totalMessages totalDays)))%string ]
      /\ 1 <= totalDays <= totalSessions
      /\ totalSessions <= totalMessages
      /\ 1 <= JsLib.roundDiv totalMessages totalDays <= totalMessages).
Proof.
  intros H. cbv zeta.
  destruct (summary_counts tz options entries r H) as [Hall Hsum].
  assert (Hdays : Z.of_nat (List.length (conversations r))
                  <= sumZ (fun c => Z.of_nat (List.length (sessionIds c)))
                       (conversations r)).
  { rewrite <- sumZ_ones. apply sumZ_le. eapply Forall_impl; [|exact Hall].
    intros c Hc. cbv beta in *. lia. }
  assert (Hsessions : sumZ (fun c => Z.of_nat (List.length (sessionIds c)))
                        (conversations r)
                      <= Z.of_nat (List.length (allEntries r))).
  { rewrite <- Hsum. apply sumZ_le. eapply Forall_impl; [|exact Hall].
    intros c Hc. cbv beta in *. lia. }
  split.
  - intros Hnone. rewrite Hnone in *. cbn [List.length] in *.
    destruct (conversations r) as [|c l]; [reflexivity|].
    cbn [List.length] in Hdays. lia.
  - intros Hsome.
    assert (Hpos : 1 <= Z.of_nat (List.length (conversations r))).
    { destruct (conversations r) as [|c l]; [|cbn [List.length]; lia].
      unfold sumZ in Hsum. cbn in Hsum.
      destruct (allEntries r); [contradiction|discriminate]. }
    split; [|split; [lia|split; [lia|apply roundDiv_average; lia]]].
    unfold TableDisplay.formatSummary.
    destruct (conversations r) as [|c l] eqn:E; [cbn in Hpos; lia|].
    cbv zeta. rewrite !fold_left_sum, !Z.add_0_l, Hsum. reflexivity.
Qed.

Lemma summary_of_result_witness :
  TableDisplay.formatSummary plain plain plain (conversations sampleResult)
  = String.concat TableDisplay.newline
      ["Summary:"; "  Days with activity: 4"; "  Total messages: 4";
       "  Total sessions: 4"; "  Avg messages/day: 1"].
Proof.
  refine (eq_trans
            (proj1 (proj2 (summary_of_result plain plain plain utc noOptions
                             sampleEntries sampleResult _) _)) _).
  - vm_compute. reflexivity.
  - discriminate.
  - vm_compute. reflexivity.
Defined.

(** * Properties of the command line (index.ts) *)

Lemma not_option_ne (arg option : string) :
  JsLib.startsWith "-" arg = false -> JsLib.startsWith "-" option = true ->
  String.eqb arg option = false.
Proof.
  intros Ha Ho. destruct (String.eqb_spec arg option) as [->|_]; [congruence|reflexivity].
Qed.

Lemma parseLoop_outcome (red : string -> string) (n : nat) :
  forall args options,
    (List.length args <= n)%nat ->
    match Cli.days options with Some d => 1 <= d <= 30 | None => True end ->
    match Cli.parseLoop red args options with
    | Cli.Returned result =>
        match Cli.days result with Some d => 1 <= d <= 30 | None => True end
    | Cli.Exited code _ => code = 1
    end.
Proof.
  induction n as [|n IH]; intros args options Hlen Hdays.
  - destruct args; [exact Hdays|cbn in Hlen; lia].
  - destruct args as [|arg rest]; [exact Hdays|].
    cbn [List.length] in Hlen. cbn [Cli.parseLoop].
    assert (Hrest : forall o,
              match Cli.days o with Some d => 1 <= d <= 30 | None => True end ->
              match rest with
              | [] => True
              | _ :: rest' =>
                  match Cli.parseLoop red rest' o with
                  | Cli.Returned result =>
                      match Cli.days result with
                      | Some d => 1 <= d <= 30
                      | None => True
                      end
                  | Cli.Exited code _ => code = 1
                  end
              end).
    { intros o Ho. destruct rest as [|v rest']; [exact I|].
      apply IH; [cbn [List.length] in Hlen; lia|exact Ho]. }
    destruct (_ || _); [apply IH; [lia|exact Hdays]|].
    destruct (String.eqb arg "--debug"); [apply IH; [lia|exact Hdays]|].
    destruct (String.eqb arg "--since").
    { destruct rest as [|v rest']; [exact Hdays|]. apply Hrest; exact Hdays. }
    destruct (String.eqb arg "--until").
    { destruct rest as [|v rest']; [exact Hdays|]. apply Hrest; exact Hdays. }
    destruct (String.eqb arg "--claude-path").
    { destruct rest as [|v rest']; [exact Hdays|]. apply Hrest; exact Hdays. }
    destruct (String.eqb arg "--days").
    { destruct rest as [|v rest']; [exact Hdays|].
      destruct (JsLib.parseInt v) as [d|]; [|reflexivity].
      destruct (Z.ltb_spec d 1); [reflexivity|].
      destruct (Z.gtb_spec d 30); [reflexivity|]. cbn [orb].
      apply (Hrest (Cli.mkOptions _ _ _ _ _ (Some d))). cbn. lia. }
    destruct (JsLib.startsWith "-" arg); [reflexivity|].
    apply IH; [lia|exact Hdays].
Qed.

(** X18. [parseArgs] either returns options whose [days], when set, lies
    between 1 and 30, or ends the process with exit code 1; arguments that do
    not start with a hyphen and follow no option are ignored. *)
Theorem parse_args_outcome (red : string -> string) (args : list string) :
  match Cli.parseArgs red args with
  | Cli.Returned options =>
      match Cli.days options with Some d => 1 <= d <= 30 | None => True end
  | Cli.Exited code _ => code = 1
  end
  /\ (Forall (fun arg => JsLib.startsWith "-" arg = false) args ->
      Cli.parseArgs red args = Cli.Returned Cli.noOptions).
Proof.
  split.
  - apply (parseLoop_outcome red (List.length args)); [lia|exact I].
  - unfold Cli.parseArgs. intros Hargs. generalize Cli.noOptions.
    induction Hargs as [|arg rest Harg _ IH]; intros options; [reflexivity|].
    cbn [Cli.parseLoop].
    rewrite !(not_option_ne arg) by (exact Harg || reflexivity).
    cbn [orb]. rewrite Harg. apply IH.
Qed.

Example parse_args_samples :
  Cli.parseArgs plain ["--days"; "7"; "--since"; "20241201"]
  = Cli.Returned (Cli.mkOptions None (Some "20241201") None false false (Some 7))
  /\ Cli.parseArgs plain ["--days"; "31"]
     = Cli.Exited 1 "Error: --days must be a number between 1 and 30"
  /\ Cli.parseArgs plain ["--days"; "7days"]
     = Cli.Returned (Cli.mkOptions None None None false false (Some 7))
  /\ Cli.parseArgs plain ["--since"; "--help"]
     = Cli.Returned (Cli.mkOptions None (Some "--help") None false false None)
  /\ Cli.parseArgs plain ["--days"] = Cli.Returned Cli.noOptions
  /\ Cli.parseArgs plain ["-x"] = Cli.Exited 1 "Unknown option: -x".
Proof. repeat split; reflexivity. Qed.

(** * Properties of the session identifiers *)

(** X19. [extractSessionIdFromPath] returns a session id for every path,
    whatever the path functions answer: it never throws and never returns an
    empty id; the id is the name of the parent directory, the file name
    without its extension, or "unknown". *)
Theorem session_id_of_path (basename : string -> option string -> string)
    (dirname extname : string -> string) (filePath : string) :
  exists id,
    SessionIds.extractSessionIdFromPath basename dirname extname filePath = Ok id
    /\ id <> ""
    /\ ((id = basename (dirname filePath) None /\ id <> "." /\ id <> ".claude")
        \/ (id = basename filePath (Some (extname filePath))
            /\ id <> "usage" /\ id <> "chat")
        \/ id = "unknown").
Proof.
  unfold SessionIds.extractSessionIdFromPath, SessionIds.extractFromPath.
  cbv zeta.
  set (parentDir := basename (dirname filePath) None).
  set (fileName := basename filePath (Some (extname filePath))).
  destruct (Js.truthy parentDir) eqn:Tp; cbn [andb].
  - destruct (String.eqb_spec parentDir ".") as [E1|N1]; cbn [negb andb].
    + clear Tp. destruct (Js.truthy fileName) eqn:Tf; cbn [andb].
      * destruct (String.eqb_spec fileName "usage") as [E2|N2]; cbn [negb andb].
        -- exists "unknown". repeat split; [discriminate|]. right. now right.
        -- destruct (String.eqb_spec fileName "chat") as [E3|N3]; cbn [negb].
           ++ exists "unknown". repeat split; [discriminate|]. right. now right.
           ++ unfold SessionIds.createSessionId. rewrite Tf. exists fileName.
              split; [reflexivity|]. split; [now destruct fileName|].
              right. left. auto.
      * exists "unknown". repeat split; [discriminate|]. right. now right.
    + destruct (String.eqb_spec parentDir ".claude") as [E2|N2]; cbn [negb].
      * clear Tp. destruct (Js.truthy fileName) eqn:Tf; cbn [andb].
        -- destruct (String.eqb_spec fileName "usage") as [E3|N3]; cbn [negb andb].
           ++ exists "unknown". repeat split; [discriminate|]. right. now right.
           ++ destruct (String.eqb_spec fileName "chat") as [E4|N4]; cbn [negb].
              ** exists "unknown". repeat split; [discriminate|]. right. now right.
              ** unfold SessionIds.createSessionId. rewrite Tf. exists fileName.
                 split; [reflexivity|]. split; [now destruct fileName|].
                 right. left. auto.
        -- exists "unknown". repeat split; [discriminate|]. right. now right.
      * unfold SessionIds.createSessionId. rewrite Tp. exists parentDir.
        split; [reflexivity|]. split; [now destruct parentDir|]. left. auto.
  - destruct (Js.truthy fileName) eqn:Tf; cbn [andb].
    + destruct (String.eqb_spec fileName "usage") as [E3|N3]; cbn [negb andb].
      * exists "unknown". repeat split; [discriminate|]. right. now right.
      * destruct (String.eqb_spec fileName "chat") as [E4|N4]; cbn [negb].
        -- exists "unknown". repeat split; [discriminate|]. right. now right.
        -- unfold SessionIds.createSessionId. rewrite Tf. exists fileName.
           split; [reflexivity|]. split; [now destruct fileName|].
           right. left. auto.
    + exists "unknown". repeat split; [discriminate|]. right. now right.
Qed.

(** * Properties of the data directories *)

Section ClaudePathsFacts.
Variable resolve : string -> string.
Variable isDirectorySync : string -> bool.

(** What holds of the paths collected so far: the array and the set hold the
    same paths, each once, and each is a resolved path found to be a
    directory. *)
Lemma remember_inv (good : string -> Prop) (st : ClaudePaths.PathState) (p : string) :
  ClaudePaths.paths st = ClaudePaths.normalizedPaths st ->
  NoDup (ClaudePaths.paths st) -> Forall good (ClaudePaths.paths st) -> good p ->
  let st' := ClaudePaths.remember st p in
  ClaudePaths.paths st' = ClaudePaths.normalizedPaths st'
  /\ NoDup (ClaudePaths.paths st') /\ Forall good (ClaudePaths.paths st')
  /\ In p (ClaudePaths.paths st')
  /\ (forall x, In x (ClaudePaths.paths st) -> In x (ClaudePaths.paths st')).
Proof.
  intros Hsame Hnd Hall Hp. cbv zeta. unfold ClaudePaths.remember, JsLib.setAdd.
  destruct (existsb (String.eqb p) (ClaudePaths.normalizedPaths st)) eqn:E;
    cbn [negb ClaudePaths.paths ClaudePaths.normalizedPaths].
  - repeat split; try assumption; [|auto].
    rewrite Hsame. apply existsb_exists in E as (y & Hy & Hpy).
    apply String.eqb_eq in Hpy. now subst.
  - assert (Hout : ~ In p (ClaudePaths.paths st)).
    { intros Hin. rewrite Hsame in Hin.
      assert (existsb (String.eqb p) (ClaudePaths.normalizedPaths st) = true).
      { apply existsb_exists. exists p. split; [exact Hin|apply String.eqb_refl]. }
      congruence. }
    split; [now rewrite Hsame|]. split; [|split; [|split]].
    + apply NoDup_app; [exact Hnd|repeat constructor; intros []|].
      intros x Hx [<-|[]]. now apply Hout.
    + apply Forall_app. split; [exact Hall|now repeat constructor].
    + apply in_or_app. right. now left.
    + intros x Hx. apply in_or_app. now left.
Qed.

Lemma envStep_loop (pieces : list string) :
  let good p := isDirectorySync p = true /\ exists q, In q pieces /\ p = resolve q in
  forall done rest st,
    pieces = (done ++ rest)%list ->
    ClaudePaths.paths st = ClaudePaths.normalizedPaths st ->
    NoDup (ClaudePaths.paths st) -> Forall good (ClaudePaths.paths st) ->
    (forall q, In q done -> isDirectorySync (resolve q) = true ->
               In (resolve q) (ClaudePaths.paths st)) ->
    let st' := fold_left (ClaudePaths.envStep resolve isDirectorySync) rest st in
    ClaudePaths.paths st' = ClaudePaths.normalizedPaths st'
    /\ NoDup (ClaudePaths.paths st') /\ Forall good (ClaudePaths.paths st')
    /\ (forall q, In q pieces -> isDirectorySync (resolve q) = true ->
                  In (resolve q) (ClaudePaths.paths st')).
Proof.
  cbv zeta. intros done rest. revert done.
  induction rest as [|piece rest IH]; intros done st Hpieces Hsame Hnd Hall Hdone.
  - cbn [fold_left]. rewrite app_nil_r in Hpieces. subst done. auto.
  - cbn [fold_left].
    assert (Hin : In piece pieces).
    { rewrite Hpieces. apply in_or_app. right. now left. }
    assert (Hstep : fold_left (ClaudePaths.envStep resolve isDirectorySync) rest
                      (ClaudePaths.envStep resolve isDirectorySync st piece)
                    = fold_left (ClaudePaths.envStep resolve isDirectorySync) rest
                        (if isDirectorySync (resolve piece)
                         then ClaudePaths.remember st (resolve piece) else st))
      by reflexivity.
    rewrite Hstep. clear Hstep.
    destruct (isDirectorySync (resolve piece)) eqn:D.
    + destruct (remember_inv _ st (resolve piece) Hsame Hnd Hall
                  (conj D (ex_intro _ piece (conj Hin eq_refl))))
        as (R1 & R2 & R3 & R4 & R5).
      apply (IH (done ++ [piece])%list); try assumption.
      * now rewrite <- app_assoc.
      * intros q Hq Hdir. apply in_app_or in Hq as [Hq|[<-|[]]]; [|exact R4].
        now apply R5, Hdone.
    + apply (IH (done ++ [piece])%list); try assumption.
      * now rewrite <- app_assoc.
      * intros q Hq Hdir. apply in_app_or in Hq as [Hq|[<-|[]]]; [|congruence].
        now apply Hdone.
Qed.

Lemma defaultStep_loop (defaults : list string) :
  let good p := exists q, In q defaults /\ isDirectorySync q = true /\ p = resolve q in
  forall done rest st,
    defaults = (done ++ rest)%list ->
    ClaudePaths.paths st = ClaudePaths.normalizedPaths st ->
    NoDup (ClaudePaths.paths st) -> Forall good (ClaudePaths.paths st) ->
    let st' := fold_left (ClaudePaths.defaultStep resolve isDirectorySync) rest st in
    NoDup (ClaudePaths.paths st') /\ Forall good (ClaudePaths.paths st').
Proof.
  cbv zeta. intros done rest. revert done.
  induction rest as [|d rest IH]; intros done st Hdefaults Hsame Hnd Hall.
  - cbn [fold_left]. auto.
  - cbn [fold_left].
    assert (Hin : In d defaults).
    { rewrite Hdefaults. apply in_or_app. right. now left. }
    assert (Hstep : fold_left (ClaudePaths.defaultStep resolve isDirectorySync) rest
                      (ClaudePaths.defaultStep resolve isDirectorySync st d)
                    = fold_left (ClaudePaths.defaultStep resolve isDirectorySync) rest
                        (if isDirectorySync d
                         then ClaudePaths.remember st (resolve d) else st))
      by reflexivity.
    rewrite Hstep. clear Hstep.
    destruct (isDirectorySync d) eqn:D.
    + destruct (remember_inv _ st (resolve d) Hsame Hnd Hall
                  (ex_intro _ d (conj Hin (conj D eq_refl))))
        as (R1 & R2 & R3 & _).
      apply (IH (done ++ [d])%list); try assumption. now rewrite <- app_assoc.
    + apply (IH (done ++ [d])%list); try assumption. now rewrite <- app_assoc.
Qed.
End ClaudePathsFacts.

(** X20. [getClaudePaths] returns every directory once.  When at least one
    entry of CLAUDE_CONFIG_DIR resolves to a directory, the result consists of
    the resolved entries that are directories, all of them, and the default
    directories are left out; otherwise each path returned is the resolved
    form of a default path that is a directory. *)
Theorem claude_paths_distinct (configDirEnv : option string)
    (resolve : string -> string) (isDirectorySync : string -> bool)
    (configPath codePath : string) :
  let result :=
    ClaudePaths.getClaudePaths configDirEnv resolve isDirectorySync
      configPath codePath in
  let pieces :=
    ClaudePaths.envPathList
      (ClaudePaths.trim (match configDirEnv with Some value => value | None => "" end)) in
  NoDup result
  /\ ((exists q, In q pieces /\ isDirectorySync (resolve q) = true) ->
      forall p, In p result
                <-> isDirectorySync p = true /\ exists q, In q pieces /\ p = resolve q)
  /\ ((forall q, In q pieces -> isDirectorySync (resolve q) = false) ->
      Forall (fun p => exists q, (q = configPath \/ q = codePath)
                                 /\ isDirectorySync q = true /\ p = resolve q)
        result).
Proof.
  cbv zeta. unfold ClaudePaths.getClaudePaths. cbv zeta.
  set (envPaths := ClaudePaths.trim
                     (match configDirEnv with Some value => value | None => "" end)).
  assert (Hdefaults : forall st,
            ClaudePaths.paths st = [] -> ClaudePaths.normalizedPaths st = [] ->
            NoDup (ClaudePaths.paths
                     (fold_left (ClaudePaths.defaultStep resolve isDirectorySync)
                        [configPath; codePath] st))
            /\ Forall (fun p => exists q, (q = configPath \/ q = codePath)
                                          /\ isDirectorySync q = true /\ p = resolve q)
                 (ClaudePaths.paths
                    (fold_left (ClaudePaths.defaultStep resolve isDirectorySync)
                       [configPath; codePath] st))).
  { intros st Hp Hn.
    destruct (defaultStep_loop resolve isDirectorySync [configPath; codePath]
                [] [configPath; codePath] st eq_refl) as [D1 D2].
    - now rewrite Hp, Hn.
    - rewrite Hp. constructor.
    - rewrite Hp. constructor.
    - split; [exact D1|]. eapply Forall_impl; [|exact D2].
      intros p (q & Hq & Hd & ->). exists q. split; [|auto].
      destruct Hq as [<-|[<-|[]]]; auto. }
  destruct (envStep_loop resolve isDirectorySync (ClaudePaths.envPathList envPaths)
              [] (ClaudePaths.envPathList envPaths)
              (ClaudePaths.mkPathState [] []) eq_refl eq_refl (NoDup_nil _)
              (Forall_nil _))
    as (E1 & E2 & E3 & E4); [intros q []|].
  set (afterEnv := fold_left (ClaudePaths.envStep resolve isDirectorySync)
                     (ClaudePaths.envPathList envPaths)
                     (ClaudePaths.mkPathState [] [])) in *.
  assert (Hempty : envPaths = "" -> ClaudePaths.envPathList envPaths = []).
  { intros ->. reflexivity. }
  destruct (String.eqb_spec envPaths "") as [Hnone|Hsome]; cbn [negb].
  - destruct (Hdefaults (ClaudePaths.mkPathState [] []) eq_refl eq_refl) as [D1 D2].
    split; [exact D1|]. split; [|intros _; exact D2].
    intros (q & Hq & _). rewrite (Hempty Hnone) in Hq. destruct Hq.
  - destruct (ClaudePaths.paths afterEnv) as [|p0 found] eqn:Epaths;
      cbn [List.length Nat.ltb Nat.leb].
    + destruct (Hdefaults afterEnv Epaths) as [D1 D2]; [now rewrite <- E1|].
      split; [exact D1|]. split; [|intros _; exact D2].
      intros (q & Hq & Hd). destruct (E4 q Hq Hd).
    + split; [exact E2|]. split.
      * intros _ p. split.
        -- intros Hp. rewrite Forall_forall in E3. now apply E3.
        -- intros (Hd & q & Hq & ->). now apply E4.
      * intros Hnodir. apply Forall_cons_iff in E3 as [(Hd & q & Hq & ->) _].
        rewrite (Hnodir q Hq) in Hd. discriminate.
Qed.

Example claude_paths_sample :
  ClaudePaths.getClaudePaths (Some " /data/a , /missing ,, /data/a ")
    (fun p => p) (fun p => negb (String.eqb p "/missing"))
    "/home/u/.config/claude" "/home/u/.claude"
  = ["/data/a"]
  /\ ClaudePaths.getClaudePaths (Some "/missing")
       (fun p => p) (fun p => negb (String.eqb p "/missing"))
       "/home/u/.config/claude" "/home/u/.claude"
     = ["/home/u/.config/claude"; "/home/u/.claude"].
Proof. split; reflexivity. Qed.
